(** * ChatBattery: formula extraction, generation loop, decision and search agents

    A shallow embedding of
      - [ChatBattery/LLM_agent.py]      ([_clean_formula_candidate], [parse],
                                         [LLM_Agent.optimize_batteries],
                                         [LLM_Agent.optimize_batteries_chatgpt]),
      - [ChatBattery/decision_agent.py] ([Decision_Agent.decide_one_pair],
                                         [Decision_Agent.decide_pairs]),
      - [ChatBattery/search_agent.py]   ([Search_Agent.MP_search]),
    followed by the properties the specification states about them.

    The definitions come first, one module per source file; the properties
    follow, in modules named after them.  Code of other files and libraries
    that these functions call (the provider's client, the chemistry oracle of
    [domain_agent.py], the [mp_api] client, [os.getenv], the Unicode table
    behind [\b]) enters as a parameter.

    Conventions.
      - A Python [str] is the list of its Unicode code points ([list N]).
      - [print] and [time.sleep] have no influence on any returned value or on
        the conversation; they are left out.
      - Python exceptions are values of [exn]; a computation that may raise
        returns an [outcome].
      - A [dict] that the code changes in place is an object on a heap, named
        by a reference; the unbounded [while] loop is run for a given number
        of passes. *)

From Stdlib Require Import List Bool Arith NArith ZArith QArith Lia.
From Stdlib Require Import Ascii String.
Import ListNotations.

Set Implicit Arguments.

(* ===================================================================== *)
(** * Python strings                                                      *)
(* ===================================================================== *)

Module PyStr.

Local Open Scope N_scope.

(** A code point, and a Python [str]. *)
Definition char := N.
Definition pystr := list char.

(** ASCII literals of the source are written [py "..."]. *)
Definition py (s : string) : pystr :=
  List.map N_of_ascii (list_ascii_of_string s).

Definition LF : char := 10.          (* "\n" *)
Definition DOLLAR : char := 36.      (* "$"  *)
Definition STAR : char := 42.        (* "*"  *)
Definition BACKSLASH : char := 92.   (* "\"  *)
Definition UNDERSCORE : char := 95.  (* "_"  *)
Definition BACKTICK : char := 96.    (* "`"  *)
Definition LBRACE : char := 123.     (* "{"  *)
Definition RBRACE : char := 125.     (* "}"  *)
Definition DOT : char := 46.         (* "."  *)
Definition MIDDLE_DOT : char := 183. (* U+00B7 *)

Definition in_range (lo hi c : char) : bool := (lo <=? c) && (c <=? hi).

Definition is_upper (c : char) : bool := in_range 65 90 c.    (* [A-Z] *)
Definition is_lower (c : char) : bool := in_range 97 122 c.   (* [a-z] *)
Definition is_digit (c : char) : bool := in_range 48 57 c.    (* [0-9] *)
Definition is_letter (c : char) : bool := is_upper c || is_lower c.

(** [Py_UNICODE_ISSPACE]: the code points that [str.strip()] removes and that
    [\s] matches in a [str] pattern. *)
Definition is_space (c : char) : bool :=
  in_range 9 13 c || in_range 28 31 c || (c =? 32) || (c =? 133) || (c =? 160)
  || (c =? 5760) || in_range 8192 8202 c || (c =? 8232) || (c =? 8233)
  || (c =? 8239) || (c =? 8287) || (c =? 12288).

(** Equality of strings, [==]. *)
Fixpoint str_eqb (a b : pystr) : bool :=
  match a, b with
  | [], [] => true
  | x :: a', y :: b' => (x =? y) && str_eqb a' b'
  | _, _ => false
  end.

(** [s.startswith(p)]. *)
Fixpoint startswith (p s : pystr) : bool :=
  match p, s with
  | [], _ => true
  | x :: p', y :: s' => (x =? y) && startswith p' s'
  | _ :: _, [] => false
  end.

(** [p in s] for strings: [p] occurs as a substring of [s]. *)
Fixpoint str_in (p s : pystr) : bool :=
  startswith p s ||
  match s with
  | [] => false
  | _ :: s' => str_in p s'
  end.

(** [x in l] for a list of strings. *)
Definition list_in (x : pystr) (l : list pystr) : bool :=
  existsb (str_eqb x) l.

Fixpoint drop_while (p : char -> bool) (s : pystr) : pystr :=
  match s with
  | [] => []
  | c :: s' => if p c then drop_while p s' else s
  end.

Fixpoint take_while (p : char -> bool) (s : pystr) : pystr :=
  match s with
  | [] => []
  | c :: s' => if p c then c :: take_while p s' else []
  end.

(** [s.lstrip(...)], [s.rstrip(...)], [s.strip(...)] for a set of characters
    given as a predicate. *)
Definition lstrip_by (p : char -> bool) (s : pystr) : pystr := drop_while p s.
Definition rstrip_by (p : char -> bool) (s : pystr) : pystr :=
  rev (drop_while p (rev s)).
Definition strip_by (p : char -> bool) (s : pystr) : pystr :=
  rstrip_by p (lstrip_by p s).

(** [s.strip()]. *)
Definition strip (s : pystr) : pystr := strip_by is_space s.

(** [s.split(sep)] for a one-character separator: always at least one field. *)
Fixpoint split (sep : char) (s : pystr) : list pystr :=
  match s with
  | [] => [[]]
  | c :: s' =>
      if c =? sep then [] :: split sep s'
      else match split sep s' with
           | f :: fs => (c :: f) :: fs
           | [] => [[c]]
           end
  end.

(** ** Scanning for non-overlapping matches

    [re.sub], [re.findall] and [str.replace] scan the text from the left.  At a
    position where the pattern matches they take the match and go on behind it;
    elsewhere they move on by one character.  A pattern is given by a matcher:
    applied to the text from the current position on, it returns the text the
    driver keeps for this match and the number of characters matched.  Every
    pattern of this program matches at least one character.

    [skip] counts the characters of the current match still to be passed. *)
Definition matcher := pystr -> option (pystr * nat).

Fixpoint sub_from (m : matcher) (skip : nat) (s : pystr) : pystr :=
  match s with
  | [] => []
  | c :: s' =>
      match skip with
      | S k => sub_from m k s'
      | O =>
          match m s with
          | Some (repl, n) => repl ++ sub_from m (pred n) s'
          | None => c :: sub_from m 0 s'
          end
      end
  end.

(** [re.sub(pattern, repl, s)]: the matcher returns the expanded replacement. *)
Definition re_sub (m : matcher) (s : pystr) : pystr := sub_from m 0 s.

Fixpoint findall_from (m : matcher) (skip : nat) (s : pystr) : list pystr :=
  match s with
  | [] => []
  | _ :: s' =>
      match skip with
      | S k => findall_from m k s'
      | O =>
          match m s with
          | Some (g, n) => g :: findall_from m (pred n) s'
          | None => findall_from m 0 s'
          end
      end
  end.

(** [re.findall(pattern, s)]: the matcher returns the text [findall] reports
    (group 1 when the pattern has one group, else the whole match). *)
Definition re_findall (m : matcher) (s : pystr) : list pystr :=
  findall_from m 0 s.

(** A literal [old], replaced by [new]. *)
Definition lit (old new : pystr) : matcher :=
  fun s => if startswith old s then Some (new, List.length old) else None.

(** [s.replace(old, new)], [old] not empty. *)
Definition replace (old new s : pystr) : pystr := re_sub (lit old new) s.

(** [s.replace(old, new, 1)]: the first occurrence only. *)
Fixpoint replace_first (old new s : pystr) : pystr :=
  if startswith old s then new ++ skipn (List.length old) s
  else match s with
       | [] => []
       | c :: s' => c :: replace_first old new s'
       end.

(** [max(chunks, key=len)] on a non-empty list: the first element of greatest
    length.  [best] is the greatest so far. *)
Fixpoint max_by_len (best : pystr) (rest : list pystr) : pystr :=
  match rest with
  | [] => best
  | x :: rest' =>
      if (List.length best <? List.length x)%nat then max_by_len x rest'
      else max_by_len best rest'
  end.

(** ** Values that are [None] or a string

    The truth value of such a value, and [a or b]: [None] and the empty string
    count as false. *)
Definition truthy (a : option pystr) : bool :=
  match a with
  | Some (_ :: _) => true
  | _ => false
  end.

Definition por (a b : option pystr) : option pystr :=
  if truthy a then a else b.

(** [p] occurs in [s]: what [p in s] decides. *)
Definition contains (p s : pystr) : Prop := exists pre post, s = pre ++ p ++ post.

End PyStr.

(* ===================================================================== *)
(** * [LLM_agent.py]: normalisation and extraction of formulas            *)
(* ===================================================================== *)

Module Extract.
Import PyStr.
Local Open Scope N_scope.

(** ** The patterns of [_clean_formula_candidate] and [parse] *)

(** [\$([^$]+)\$], reporting group 1.  The greedy [[^$]+] takes every
    character up to the next "$" or the end of the text; the pattern matches
    when it took at least one and a "$" follows. *)
Definition math_span : matcher := fun s =>
  match s with
  | d :: s1 =>
      if d =? DOLLAR then
        let inner := take_while (fun c => negb (c =? DOLLAR)) s1 in
        match inner, drop_while (fun c => negb (c =? DOLLAR)) s1 with
        | _ :: _, _ :: _ => Some (inner, (List.length inner + 2)%nat)
        | _, _ => None
        end
      else None
  | [] => None
  end.

(** [\\[a-zA-Z]+], replaced by the empty string. *)
Definition latex_command : matcher := fun s =>
  match s with
  | b :: s1 =>
      if b =? BACKSLASH then
        match take_while is_letter s1 with
        | [] => None
        | name => Some ([], S (List.length name))
        end
      else None
  | [] => None
  end.

(** [_\{([^}]+)\}], replaced by group 1. *)
Definition braced_subscript : matcher := fun s =>
  match s with
  | u :: o :: s1 =>
      if (u =? UNDERSCORE) && (o =? LBRACE) then
        let inner := take_while (fun c => negb (c =? RBRACE)) s1 in
        match inner, drop_while (fun c => negb (c =? RBRACE)) s1 with
        | _ :: _, _ :: _ => Some (inner, (List.length inner + 3)%nat)
        | _, _ => None
        end
      else None
  | _ => None
  end.

(** [_([0-9]+(?:\.[0-9]+)?)], replaced by group 1. *)
Definition numeric_subscript : matcher := fun s =>
  match s with
  | u :: s1 =>
      if u =? UNDERSCORE then
        match take_while is_digit s1 with
        | [] => None
        | whole =>
            let value :=
              match drop_while is_digit s1 with
              | d :: s2 =>
                  if d =? DOT then
                    match take_while is_digit s2 with
                    | [] => whole
                    | frac => whole ++ DOT :: frac
                    end
                  else whole
              | [] => whole
              end in
            Some (value, S (List.length value))
        end
      else None
  | [] => None
  end.

(** [\s+], replaced by the empty string. *)
Definition whitespace_run : matcher := fun s =>
  match take_while is_space s with
  | [] => None
  | run => Some ([], List.length run)
  end.

(** The characters of the class [[A-Za-z0-9\.\(\)\[\]/·]]. *)
Definition allowed (c : char) : bool :=
  is_upper c || is_lower c || is_digit c || (c =? DOT)
  || (c =? 40) || (c =? 41) || (c =? 91) || (c =? 93) || (c =? 47)
  || (c =? MIDDLE_DOT).

(** [[^A-Za-z0-9\.\(\)\[\]/·]], replaced by the empty string. *)
Definition not_allowed : matcher := fun s =>
  match s with
  | c :: _ => if allowed c then None else Some ([], 1%nat)
  | [] => None
  end.

(** [[A-Z][a-z]?], reporting the whole match. *)
Definition element_token : matcher := fun s =>
  match s with
  | c :: s1 =>
      if is_upper c then
        match s1 with
        | d :: _ => if is_lower d then Some ([c; d], 2%nat) else Some ([c], 1%nat)
        | [] => Some ([c], 1%nat)
        end
      else None
  | [] => None
  end.

(** ** [_clean_formula_candidate] *)

Definition _clean_formula_candidate (text : pystr) : pystr :=
  let text := strip text in
  match text with
  | [] => []
  | _ :: _ =>
      let text := replace (py "**") [] text in
      let text := replace (py "__") [] text in
      let text := strip_by (N.eqb BACKTICK) text in
      let text := strip text in
      let text :=
        if str_in (py "$") text then
          match re_findall math_span text with
          | chunk :: chunks => max_by_len chunk chunks
          | [] => replace (py "$") [] text
          end
        else text in
      let text := replace (BACKSLASH :: py "cdot") [MIDDLE_DOT] text in
      let text := re_sub latex_command text in
      let text := re_sub braced_subscript text in
      let text := re_sub numeric_subscript text in
      let text := replace (py "{") [] text in
      let text := replace (py "}") [] text in
      let text := re_sub whitespace_run text in
      let text := re_sub not_allowed text in
      text
  end.

(** ** [parse] *)

Section Parse.

(** [Py_UNICODE_ISALNUM] on the code points beyond ASCII: a table of the
    interpreter's Unicode database, used by [\b]. *)
Variable unicode_isalnum : char -> bool.

(** [\w] of a [str] pattern: alphanumeric or "_". *)
Definition is_word (c : char) : bool :=
  (c =? UNDERSCORE)
  || (if c <? 128 then is_letter c || is_digit c else unicode_isalnum c).

(** [\b] between two neighbouring positions; [None] is a text end. *)
Definition at_boundary (before after : option char) : bool :=
  let word o := match o with Some c => is_word c | None => false end in
  xorb (word before) (word after).

(** The characters each letter of "reasoning" matches under
    [re.IGNORECASE]: those whose lower case is the letter, and for "s" and "i"
    also the ones the [re] module declares equivalent (U+017F; U+0131), with
    U+0130 whose lower case is "i". *)
Definition reasoning_classes : list (list char) :=
  [ [114; 82]; [101; 69]; [97; 65]; [115; 83; 383]; [111; 79]; [110; 78];
    [105; 73; 304; 305]; [110; 78]; [103; 71] ].

Fixpoint match_classes (classes : list (list char)) (s : pystr) : bool :=
  match classes, s with
  | [], _ => true
  | cls :: classes', c :: s' => existsb (N.eqb c) cls && match_classes classes' s'
  | _ :: _, [] => false
  end.

(** [\breasoning\b] matches at the start of [s], [before] being the character
    in front of it. *)
Definition reasoning_at (before : option char) (s : pystr) : bool :=
  at_boundary before (nth_error s 0)
  && match_classes reasoning_classes s
  && at_boundary (nth_error s 8) (nth_error s 9).

Fixpoint search_from (before : option char) (s : pystr) : bool :=
  reasoning_at before s ||
  match s with
  | [] => false
  | c :: s' => search_from (Some c) s'
  end.

(** [re.search(r"\breasoning\b", line, flags=re.IGNORECASE)] is not [None]. *)
Definition search_reasoning (line : pystr) : bool := search_from None line.

(** The body of [for seg in segments]: the new value of [record]. *)
Definition parse_segment (history_battery_list record : list pystr) (seg : pystr)
  : list pystr :=
  let candidate := _clean_formula_candidate seg in
  match candidate with
  | [] => record
  | _ :: _ =>
      if negb (str_in (py "Li") candidate) && negb (str_in (py "Na") candidate)
      then record
      else
        let elements := re_findall element_token candidate in
        if (List.length elements <? 2)%nat then record
        else if list_in candidate history_battery_list then record
        else if negb (list_in candidate record) then record ++ [candidate]
        else record
  end.

(** The body of [for line in ...]: the new value of [record]. *)
Definition parse_line (history_battery_list record : list pystr) (line : pystr)
  : list pystr :=
  let line := strip line in
  match line with
  | [] => record
  | _ :: _ =>
      let line :=
        if startswith (py "Assistant:") line
        then strip (replace_first (py "Assistant:") [] line)
        else line in
      if negb (startswith (py "*") line) then record
      else if search_reasoning line then record
      else
        let body := strip (lstrip_by (N.eqb STAR) line) in
        match body with
        | [] => record
        | _ :: _ =>
            let segments :=
              match re_findall math_span body with
              | [] => [body]
              | found => found
              end in
            fold_left (parse_segment history_battery_list) segments record
        end
  end.

Definition parse (raw_text : pystr) (history_battery_list : list pystr)
  : list pystr :=
  fold_left (parse_line history_battery_list) (split LF (strip raw_text)) [].

End Parse.

(** ** Vocabulary for the properties of [parse] *)

(** The text of a line as [parse] tests it: stripped, and without the role
    marker. *)
Definition bullet_text (line : pystr) : pystr :=
  let line := strip line in
  if startswith (py "Assistant:") line
  then strip (replace_first (py "Assistant:") [] line)
  else line.

(** The candidates of [l] that are not in [history]. *)
Definition novel (history l : list pystr) : list pystr :=
  filter (fun c => negb (list_in c history)) l.

(** A character of the class the normalisation keeps. *)
Definition clean_char (c : char) : Prop := allowed c = true.

(** A character that the steps before the subscript rules leave alone. *)
Definition tame (c : char) : Prop :=
  is_space c = false /\ (STAR =? c) = false /\ (BACKTICK =? c) = false
  /\ (DOLLAR =? c) = false /\ (BACKSLASH =? c) = false.

(** An element-like token: an uppercase letter, optionally followed by one
    lowercase letter. *)
Definition element_like (t : pystr) : Prop :=
  exists up, is_upper up = true /\
             (t = [up] \/ exists low, is_lower low = true /\ t = [up; low]).

(** The element tokens [parse] counts in a candidate. *)
Definition element_tokens (c : pystr) : list pystr := re_findall element_token c.

(** What [parse] checks of a candidate before it appends it. *)
Record accepted (history : list pystr) (c : pystr) : Prop := {
  acc_not_empty : c <> [];
  acc_alkali : contains (py "Li") c \/ contains (py "Na") c;
  acc_elements : (2 <= List.length (element_tokens c))%nat;
  acc_novel : ~ In c history;
  acc_clean : Forall clean_char c
}.

Definition record_ok (history record : list pystr) : Prop :=
  NoDup record /\ Forall (accepted history) record.

End Extract.

(* ===================================================================== *)
(** * Exceptions                                                          *)
(* ===================================================================== *)

Module PyExc.
Import PyStr.

(** The exceptions of this program, all of them instances of [Exception].
    [ExternalError] stands for whatever a collaborator raises (the provider's
    client, the chemistry oracle, the database client). *)
Inductive exn : Type :=
| NotImplementedError (task_id : Z)
| AssertionError (message : pystr)
| IndexError
| UnboundLocalError (name : pystr)
| ExternalError (name : pystr).

(** The result of a computation that may raise. *)
Inductive outcome (A : Type) : Type :=
| Returned (a : A)
| Raised (e : exn).

Arguments Returned {A} a.
Arguments Raised {A} e.

Definition bind {A B : Type} (c : outcome A) (k : A -> outcome B) : outcome B :=
  match c with
  | Returned a => k a
  | Raised e => Raised e
  end.

(** [try: c  except Exception: handler]. *)
Definition try_except {A : Type} (c : outcome A) (handler : exn -> outcome A)
  : outcome A :=
  match c with
  | Returned a => Returned a
  | Raised e => handler e
  end.

End PyExc.

(* ===================================================================== *)
(** * [LLM_agent.py]: the generation loop                                 *)
(* ===================================================================== *)

Module Generation.
Import PyStr PyExc Extract.

(** A chat message, [{"role": ..., "content": ...}]. *)
Record Message : Type := { role : pystr; content : pystr }.

(** Messages are [dict] objects, and the loop changes one of them in place.
    An object is named by a reference; the heap gives each object its present
    value, and a conversation ([messages]) is a list of references, in which
    one object may occur more than once. *)
Definition ref := nat.
Definition Heap := ref -> Message.

Definition store (h : Heap) (r : ref) (m : Message) : Heap :=
  fun x => if Nat.eqb x r then m else h x.

(** The values of the messages of a conversation, as a reader of the list
    sees them. *)
Definition contents (h : Heap) (messages : list ref) : list Message :=
  List.map h messages.

(** The value of a message after [text] was appended to its content. *)
Definition extended (m : Message) (text : pystr) : Message :=
  {| role := role m; content := content m ++ text |}.

(** The keyword arguments of one [openai.ChatCompletion.create] call;
    [frequency_penalty] is [None] when the call does not pass it. *)
Record Request : Type := {
  req_model : pystr;
  req_messages : list Message;
  req_temperature : Q;
  req_frequency_penalty : option Q;
  req_n : option Z
}.

(** The settings of the [openai] module that this program writes. *)
Record OpenAI : Type := { api_base : pystr; api_key : option pystr }.

Definition OPENROUTER_API_BASE : pystr := py "https://openrouter.ai/api/v1".

Definition endswith (p s : pystr) : bool := startswith (rev p) (rev s).

Section Environment.

(** [os.getenv]. *)
Variable getenv : pystr -> option pystr.

Definition _configure_openai_client (openai : OpenAI) : OpenAI :=
  let api_base_env :=
    por (getenv (py "OPENAI_API_BASE"))
      (por (getenv (py "OPENAI_BASE_URL"))
         (por (getenv (py "OPENROUTER_API_BASE"))
            (getenv (py "OPENROUTER_BASE_URL")))) in
  let openai :=
    match api_base_env with
    | Some (c :: b) =>
        {| api_base := rstrip_by (N.eqb 47) (c :: b); api_key := api_key openai |}
    | _ =>
        if truthy (getenv (py "OPENROUTER_API_KEY"))
        then {| api_base := OPENROUTER_API_BASE; api_key := api_key openai |}
        else openai
    end in
  if truthy (getenv (py "OPENROUTER_API_KEY"))
     && negb (truthy (getenv (py "OPENAI_API_KEY")))
  then {| api_base := api_base openai;
          api_key := getenv (py "OPENROUTER_API_KEY") |}
  else openai.

Definition _is_openrouter_base (api_base : pystr) : bool :=
  str_in (py "openrouter.ai") api_base.

Definition _normalize_model_for_api (openai : OpenAI) (model : pystr) : pystr :=
  if _is_openrouter_base (api_base openai) && negb (str_in (py "/") model) then
    let prefix :=
      strip (match getenv (py "CHATBATTERY_OPENROUTER_MODEL_PREFIX") with
             | Some p => p
             | None => py "openai/"
             end) in
    let prefix :=
      match prefix with
      | _ :: _ => if negb (endswith (py "/") prefix) then prefix ++ py "/" else prefix
      | [] => prefix
      end in
    prefix ++ model
  else model.

End Environment.

(** [repr] of a list of strings.  The strings this program formats are
    candidates returned by [parse]: they hold characters of the class
    [allowed] only, which [repr] leaves as they are between single quotes. *)
Definition repr_str (s : pystr) : pystr := py "'" ++ s ++ py "'".

Fixpoint join (sep : pystr) (l : list pystr) : pystr :=
  match l with
  | [] => []
  | [x] => x
  | x :: rest => x ++ sep ++ join sep rest
  end.

Definition repr_list (l : list pystr) : pystr :=
  py "[" ++ join (py ", ") (List.map repr_str l) ++ py "]".

(** ["Please do not generate batteries in this list {}.".format(l)]. *)
Definition exclusion_text (l : list pystr) : pystr :=
  py "Please do not generate batteries in this list " ++ repr_list l ++ py ".".

Definition retry_message : pystr :=
  py "The generated batteries have been discussed in our previous rounds of discussion. Will retry.".

(** [messages[-1]["content"] += suffix]: the heap afterwards. *)
Definition append_to_last (suffix : pystr) (messages : list ref) (h : Heap)
  : outcome Heap :=
  match rev messages with
  | [] => Raised IndexError
  | r :: _ => Returned (store h r (extended (h r) suffix))
  end.

(** What one pass of the loop body did: the request it sent, the history list
    it held, the provider's answer, and [raw_generated_battery_list] when the
    pass reached the branch that formats the exclusion instruction. *)
Record Event : Type := {
  ev_request : Request;
  ev_history : list pystr;
  ev_response : outcome pystr;
  ev_excluded : option (list pystr)
}.

(** The variables the loop reads and writes: the caller's [messages] and the
    heap that holds their values, the local [history_battery_list], and the
    passes made so far. *)
Record LoopState : Type := {
  messages : list ref;
  heap : Heap;
  history_battery_list : list pystr;
  trace : list Event
}.

Section Loop.

Variable unicode_isalnum : char -> bool.

(** The provider: [openai.ChatCompletion.create(...)] followed by
    [response["choices"][0]["message"]['content']].  It is given the number
    of calls made before, and the request; it returns the generated text or
    raises.  An answer without a text counts as a raise: the pass then fails
    at [raw_generated_text.replace], before the exclusion branch, and leaves
    the conversation as a fault of the provider does. *)
Variable create : nat -> Request -> outcome pystr.

Variable model api_model : pystr.
Variable temperature : Q.

Definition make_request (st : LoopState) : Request :=
  if str_eqb model (py "chatgpt_3.5") then
    {| req_model := api_model;
       req_messages := contents (heap st) (messages st);
       req_temperature := temperature; req_frequency_penalty := Some (2 # 10);
       req_n := None |}
  else
    {| req_model := api_model;
       req_messages := contents (heap st) (messages st);
       req_temperature := temperature; req_frequency_penalty := None;
       req_n := None |}.

(** The state after a pass that left the heap [h]. *)
Definition log (st : LoopState) (ev : Event) (h : Heap) : LoopState :=
  {| messages := messages st; heap := h;
     history_battery_list := history_battery_list st;
     trace := trace st ++ [ev] |}.

(** The body of [try:] in the loop: the state it leaves, and the pair it
    computed or the exception it raised. *)
Definition attempt (st : LoopState) : LoopState * outcome (pystr * list pystr) :=
  let request := make_request st in
  let response := create (List.length (trace st)) request in
  let event excluded :=
    {| ev_request := request; ev_history := history_battery_list st;
       ev_response := response; ev_excluded := excluded |} in
  match response with
  | Raised e => (log st (event None) (heap st), Raised e)
  | Returned raw_generated_text =>
      let generated_battery_list :=
        parse unicode_isalnum raw_generated_text (history_battery_list st) in
      match generated_battery_list with
      | [] =>
          let raw_generated_battery_list :=
            parse unicode_isalnum raw_generated_text [] in
          match append_to_last (exclusion_text raw_generated_battery_list)
                  (messages st) (heap st) with
          | Raised e =>
              (log st (event (Some raw_generated_battery_list)) (heap st),
               Raised e)
          | Returned heap' =>
              (log st (event (Some raw_generated_battery_list)) heap',
               Raised (AssertionError retry_message))
          end
      | _ :: _ =>
          (log st (event None) (heap st),
           Returned (raw_generated_text, generated_battery_list))
      end
  end.

(** [while not received: try: ... except Exception: ...], run for at most
    [fuel] passes.  [None] when the loop is still running after them. *)
Fixpoint loop (fuel : nat) (st : LoopState)
  : LoopState * option (pystr * list pystr) :=
  match fuel with
  | O => (st, None)
  | S fuel' =>
      match attempt st with
      | (st', Returned result) => (st', Some result)
      | (st', Raised _) => loop fuel' st'
      end
  end.

End Loop.

Section Agent.

Variable unicode_isalnum : char -> bool.
Variable getenv : pystr -> option pystr.
Variable openai : OpenAI.
Variable create : nat -> Request -> outcome pystr.

(** [h] is the heap at the call; the final state holds the heap at the
    return, in which the caller finds the messages as the loop left them. *)
Definition optimize_batteries_chatgpt (fuel : nat) (h : Heap)
    (messages : list ref) (model : pystr) (temperature : Q)
  : LoopState * option (pystr * list pystr) :=
  let openai := _configure_openai_client getenv openai in
  let api_model := _normalize_model_for_api getenv openai model in
  loop unicode_isalnum create model api_model temperature fuel
    {| messages := messages; heap := h; history_battery_list := [];
       trace := [] |}.

(** How [optimize_batteries] answers: by the provider loop, or by handing the
    conversation to a locally loaded model
    ([optimize_batteries_open_source], which sends no request). *)
Inductive Dispatch : Type :=
| ViaProvider (run : LoopState * option (pystr * list pystr))
| ViaLocalModel.

Definition optimize_batteries (fuel : nat) (h : Heap) (messages : list ref)
    (LLM_type : pystr) (temperature : Q) : Dispatch :=
  if str_eqb LLM_type (py "chatgpt_3.5") then
    ViaProvider (optimize_batteries_chatgpt fuel h messages (py "gpt-3.5-turbo") temperature)
  else if str_eqb LLM_type (py "chatgpt_o1") then
    ViaProvider (optimize_batteries_chatgpt fuel h messages (py "o1-mini") temperature)
  else if str_eqb LLM_type (py "chatgpt_o3") then
    ViaProvider (optimize_batteries_chatgpt fuel h messages (py "o3-mini") temperature)
  else if str_eqb LLM_type (py "chatgpt_4o") then
    ViaProvider (optimize_batteries_chatgpt fuel h messages (py "gpt-4o-mini") temperature)
  else if str_eqb LLM_type (py "llama2") then ViaLocalModel
  else if str_eqb LLM_type (py "llama3") then ViaLocalModel
  else if str_eqb LLM_type (py "qwen") then ViaLocalModel
  else
    ViaProvider (optimize_batteries_chatgpt fuel h messages LLM_type temperature).

End Agent.

(** ** Vocabulary for the properties of the loop *)

(** The state in which [optimize_batteries_chatgpt] enters the loop. *)
Definition initial (h : Heap) (messages : list ref) : LoopState :=
  {| messages := messages; heap := h; history_battery_list := [];
     trace := [] |}.

(** Between the heaps [h] and [h'], [text] was appended to the content of the
    message [r], and no other message changed. *)
Definition appended (h h' : Heap) (r : ref) (text : pystr) : Prop :=
  h' r = extended (h r) text /\ forall r', r' <> r -> h' r' = h r'.

(** How many passes of a trace reached the exclusion branch. *)
Definition exclusions (tr : list Event) : nat :=
  List.length
    (filter (fun ev => match ev_excluded ev with Some _ => true | None => false end) tr).

(** A pass that ran with an empty history list: both extractions of its
    answer coincide, and the exclusion branch, if reached, had nothing to
    list. *)
Definition unconstrained (u : char -> bool) (ev : Event) : Prop :=
  ev_history ev = []
  /\ (forall raw, ev_response ev = Returned raw ->
      parse u raw (ev_history ev) = parse u raw [])
  /\ (forall l, ev_excluded ev = Some l -> l = []).

(** A request that does not pass [frequency_penalty]. *)
Definition no_penalty (ev : Event) : Prop :=
  req_frequency_penalty (ev_request ev) = None.

End Generation.

(* ===================================================================== *)
(** * [decision_agent.py]                                                 *)
(* ===================================================================== *)

Module Decision.
Import PyStr PyExc.

(** A Python [float]: a number, an infinity, or not-a-number.  Numbers are
    kept exact; the only product this program forms has the factor [1], which
    binary floating point computes without rounding. *)
Inductive pyfloat : Type :=
| Num (q : Q)
| PosInf
| NegInf
| NaN.

Definition sign (x : pyfloat) : comparison :=
  match x with
  | Num q => (q ?= 0)%Q
  | PosInf => Gt
  | NegInf => Lt
  | NaN => Eq
  end.

(** [x * y]. *)
Definition fmul (x y : pyfloat) : pyfloat :=
  match x, y with
  | NaN, _ | _, NaN => NaN
  | Num a, Num b => Num (a * b)
  | _, _ =>
      match sign x, sign y with
      | Eq, _ | _, Eq => NaN
      | Gt, Gt | Lt, Lt => PosInf
      | Gt, Lt | Lt, Gt => NegInf
      end
  end.

(** [x > y]: false as soon as one side is not-a-number. *)
Definition fgt (x y : pyfloat) : bool :=
  match x, y with
  | NaN, _ | _, NaN => false
  | Num a, Num b => match (b ?= a)%Q with Lt => true | _ => false end
  | PosInf, PosInf => false
  | PosInf, _ => true
  | _, NegInf => match x with NegInf => false | _ => true end
  | _, _ => false
  end.

(** The int literal [1] as the float it is converted to. *)
Definition one : pyfloat := Num 1.

(** [float("nan")]. *)
Definition float_nan : pyfloat := NaN.

(** One row of [answer_list]: [[output_formula, output_value, answer]]. *)
Record DecisionRecord : Type := {
  candidate : pystr;
  capacity : pyfloat;
  improved : bool
}.

Section Agent.

(** [Domain_Agent.calculate_theoretical_capacity], of [domain_agent.py]:
    the chemistry oracle.  It returns the capacity or raises. *)
Variable calculate_theoretical_capacity : pystr -> Z -> outcome pyfloat.

Definition decide_one_pair (input_formula output_formula : pystr) (task_id : Z)
  : outcome (pyfloat * pyfloat * bool) :=
  if negb ((task_id =? 101)%Z || (task_id =? 102)%Z) then
    Raised (NotImplementedError task_id)
  else
    bind (calculate_theoretical_capacity input_formula task_id) (fun input_value =>
    match calculate_theoretical_capacity output_formula task_id with
    | Raised _ =>
        let output_value := float_nan in
        Returned (input_value, output_value, false)
    | Returned output_value =>
        Returned (input_value, output_value,
                  fgt output_value (fmul input_value one))
    end).

(** The [for] loop of [decide_pairs], [answer_list] being the rows so far. *)
Fixpoint decide_pairs_from (input_formula : pystr) (output_formula_list : list pystr)
    (task_id : Z) (answer_list : list DecisionRecord)
  : outcome (list DecisionRecord) :=
  match output_formula_list with
  | [] => Returned answer_list
  | output_formula :: rest =>
      bind (decide_one_pair input_formula output_formula task_id) (fun r =>
      let '(_, output_value, answer) := r in
      decide_pairs_from input_formula rest task_id
        (answer_list ++ [ {| candidate := output_formula;
                             capacity := output_value;
                             improved := answer |} ]))
  end.

Definition decide_pairs (input_formula : pystr) (output_formula_list : list pystr)
    (task_id : Z) : outcome (list DecisionRecord) :=
  decide_pairs_from input_formula output_formula_list task_id [].

(** The row a candidate is expected to get, [b] being the capacity of the
    baseline: its own capacity and the comparison with [b], or not-a-number
    and [False] when the oracle raises on it. *)
Definition row (b : pyfloat) (task_id : Z) (output_formula : pystr) : DecisionRecord :=
  match calculate_theoretical_capacity output_formula task_id with
  | Returned c =>
      {| candidate := output_formula; capacity := c; improved := fgt c b |}
  | Raised _ =>
      {| candidate := output_formula; capacity := NaN; improved := false |}
  end.

End Agent.

(** ** Vocabulary for the properties of the verdict *)

(** The order and the equality of capacities as numbers; not-a-number is
    neither greater than, nor equal to, anything. *)
Definition greater (x y : pyfloat) : Prop :=
  match x, y with
  | Num a, Num b => (b < a)%Q
  | PosInf, Num _ | PosInf, NegInf | Num _, NegInf => True
  | _, _ => False
  end.

Definition equal (x y : pyfloat) : Prop :=
  match x, y with
  | Num a, Num b => (a == b)%Q
  | PosInf, PosInf | NegInf, NegInf => True
  | _, _ => False
  end.

Definition valid_task (task_id : Z) : Prop := task_id = 101%Z \/ task_id = 102%Z.

End Decision.

(* ===================================================================== *)
(** * [search_agent.py]                                                   *)
(* ===================================================================== *)

Module Search.
Import PyStr PyExc.

(** The [mp_api] client library, as [MP_search] uses it.  [docs] is the type
    of one record of a search result. *)
Record MPApi (docs : Type) : Type := {
  (** [from mp_api.client import MPRester] *)
  import_MPRester : outcome unit;
  (** [MPRester(key)] and the [__enter__] of the [with] statement *)
  open_client : pystr -> outcome unit;
  (** [mpr.summary.search(formula=formula)] *)
  summary_search : pystr -> outcome (list docs);
  (** [__exit__], given the exception raised in the block, if any: whether it
      asks for that exception to be dropped *)
  close_client : option exn -> outcome bool
}.

Section Agent.

Variable docs : Type.
Variable api : MPApi docs.
Variable getenv : pystr -> option pystr.

Definition MP_api_key : pystr :=
  match por (getenv (py "MP_API_KEY"))
          (por (getenv (py "MATERIALS_PROJECT_API_KEY")) (Some (py "xxx"))) with
  | Some k => k
  | None => []
  end.

(** [with MPRester(MP_api_key) as mpr: docs = mpr.summary.search(...)]: the
    value of [docs] afterwards ([None] when the name was never bound), or the
    exception that leaves the statement. *)
Definition lookup (formula : pystr) : outcome (option (list docs)) :=
  bind (open_client api MP_api_key) (fun _ =>
  match summary_search api formula with
  | Returned found =>
      bind (close_client api None) (fun _ => Returned (Some found))
  | Raised e =>
      bind (close_client api (Some e)) (fun drop =>
      if drop then Returned None else Raised e)
  end).

(** The body of [try:]. *)
Definition MP_search_body (formula : pystr) : outcome bool :=
  bind (lookup formula) (fun bound =>
  match bound with
  | Some found => Returned (1 <=? List.length found)%nat
  | None => Raised (UnboundLocalError (py "docs"))
  end).

Definition MP_search (formula : pystr) : outcome bool :=
  bind (import_MPRester api) (fun _ =>
  try_except (MP_search_body formula) (fun _ => Returned false)).

End Agent.

End Search.

(* ===================================================================== *)
(** * Scenario data                                                       *)
(* ===================================================================== *)

(** The texts of the specification's end-to-end scenarios, and collaborators
    for closed examples. *)
Module Scenario.
Import PyStr PyExc Generation Decision Search.

Definition formula_1 : pystr := py "Li1.02Fe0.70Mn0.25Mg0.05PO4".
Definition reasoning_bullet : pystr := py "* Reasoning: contains PO_4".
Definition formula_bullet : pystr :=
  py "* $Li_{1.02}Fe_{0.70}Mn_{0.25}Mg_{0.05}PO_4$".
Definition response_1 : pystr := reasoning_bullet ++ [LF] ++ formula_bullet.
Definition response_2 : pystr := py "* $LiMnPO_4$".
Definition anion_only : pystr := py "* $PO_4$".

(** A Unicode table that classes no code point beyond ASCII as alphanumeric.
    The scenario texts are ASCII, where [is_word] never consults the table. *)
Definition ascii_only : char -> bool := fun _ => false.

(** A provider that answers from a script: the k-th call gets the k-th entry,
    and raises once the script is used up. *)
Definition scripted (responses : list (outcome pystr))
  : nat -> Request -> outcome pystr :=
  fun k _ => nth k responses (Raised (ExternalError (py "APIError"))).

(** An entry of a script on which the loop goes round again: a fault of the
    provider, or a text from which nothing is extracted. *)
Definition retried (u : char -> bool) (o : outcome pystr) : Prop :=
  match o with
  | Returned raw => Extract.parse u raw [] = []
  | Raised _ => True
  end.

Definition user_prompt : Message :=
  {| role := py "user"; content := py "Propose one improved battery." |}.

Definition system_prompt : Message :=
  {| role := py "system"; content := py "You are a battery expert." |}.

(** A heap with two messages, and the conversation made of them. *)
Definition two_messages : Heap :=
  fun r => match r with O => system_prompt | _ => user_prompt end.

Definition conversation : list ref := [0%nat; 1%nat].

(** An oracle that knows two formulas and raises on anything else. *)
Definition oracle : pystr -> Z -> outcome pyfloat :=
  fun formula _ =>
    if str_eqb formula (py "LiFePO4") then Returned (Num 170)
    else if str_eqb formula (py "LiMnPO4") then Returned (Num 171)
    else Raised (ExternalError (py "ValueError")).

(** A database client whose search raises for every formula but one, and
    whose [__exit__] lets the exception pass. *)
Definition database : MPApi nat :=
  {| import_MPRester := Returned tt;
     open_client := fun _ => Returned tt;
     summary_search := fun formula =>
       if str_eqb formula (py "LiFePO4") then Returned [1%nat; 2%nat]
       else Raised (ExternalError (py "MPRestError"));
     close_client := fun _ => Returned false |}.

Definition no_environment : pystr -> option pystr := fun _ => None.

End Scenario.

(* ===================================================================== *)
(** * [LLM_agent.py]: ranking, and the locally loaded model               *)
(* ===================================================================== *)

Module Ranking.
Import PyStr PyExc Generation.

Section Agent.

Variable getenv : pystr -> option pystr.
Variable openai : OpenAI.

(** The provider, as in the generation loop; [calls] is the number of calls
    made before this one. *)
Variable create : nat -> Request -> outcome pystr.
Variable calls : nat.





End Agent.


End Ranking.

Module OpenSource.
Import PyStr PyExc Extract Generation.

(** What one pass of the loop of [optimize_batteries_open_source] did: the
    inputs it gave the model, the decoded answer, and
    [raw_generated_battery_list] when the pass reached the exclusion
    branch. *)
Record LocalEvent (tokens : Type) : Type := {
  le_inputs : tokens;
  le_response : outcome pystr;
  le_excluded : option (list pystr)
}.

Record LocalState (tokens : Type) : Type := {
  l_heap : Heap;
  l_history : list pystr;
  l_trace : list (LocalEvent tokens)
}.

(** [input_text = "{}\n{}".format(input_text, content)] over the messages,
    from the empty string. *)
Definition input_text_of (messages : list Message) : pystr :=
  fold_left (fun input_text m => input_text ++ [LF] ++ content m) messages [].

Section Agent.

Variable unicode_isalnum : char -> bool.

(** The encoded prompt, a tensor on the device. *)
Variable tokens : Type.

(** [loaded_tokenizer(input_text, return_tensors="pt").to("cuda")]. *)
Variable tokenizer : pystr -> outcome tokens.

(** [loaded_model.generate( **inputs )] followed by
    [loaded_tokenizer.decode(outputs[0], skip_special_tokens=True)], given the
    number of calls made before. *)
Variable generate : nat -> tokens -> outcome pystr.

(** The body of [try:]. *)
Definition local_attempt (messages : list ref) (inputs : tokens)
    (st : LocalState tokens)
  : LocalState tokens * outcome (pystr * list pystr) :=
  let response := generate (List.length (l_trace st)) inputs in
  let next excluded h :=
    {| l_heap := h; l_history := l_history st;
       l_trace := l_trace st ++
                  [ {| le_inputs := inputs; le_response := response;
                       le_excluded := excluded |} ] |} in
  match response with
  | Raised e => (next None (l_heap st), Raised e)
  | Returned raw_generated_text =>
      let generated_battery_list :=
        parse unicode_isalnum raw_generated_text (l_history st) in
      match generated_battery_list with
      | [] =>
          let raw_generated_battery_list :=
            parse unicode_isalnum raw_generated_text [] in
          match append_to_last (exclusion_text raw_generated_battery_list)
                  messages (l_heap st) with
          | Raised e => (next (Some raw_generated_battery_list) (l_heap st), Raised e)
          | Returned heap' =>
              (next (Some raw_generated_battery_list) heap',
               Raised (AssertionError retry_message))
          end
      | _ :: _ =>
          (next None (l_heap st),
           Returned (raw_generated_text, generated_battery_list))
      end
  end.

Fixpoint local_loop (fuel : nat) (messages : list ref) (inputs : tokens)
    (st : LocalState tokens)
  : LocalState tokens * option (pystr * list pystr) :=
  match fuel with
  | O => (st, None)
  | S fuel' =>
      match local_attempt messages inputs st with
      | (st', Returned result) => (st', Some result)
      | (st', Raised _) => local_loop fuel' messages inputs st'
      end
  end.

(** The prompt is built and encoded once, before the loop and outside the
    [try]; a fault of the tokenizer leaves the function. *)
Definition optimize_batteries_open_source (fuel : nat) (h : Heap)
    (messages : list ref)
  : outcome (LocalState tokens * option (pystr * list pystr)) :=
  let input_text := input_text_of (contents h messages) in
  bind (tokenizer input_text) (fun inputs =>
  Returned (local_loop fuel messages inputs
              {| l_heap := h; l_history := []; l_trace := [] |})).

End Agent.

(** How many passes of a trace reached the exclusion branch. *)
Definition local_exclusions (tokens : Type) (tr : list (LocalEvent tokens)) : nat :=
  List.length
    (filter (fun ev => match le_excluded ev with Some _ => true | None => false end) tr).

End OpenSource.

(* ===================================================================== *)
(** * [search_agent.py]: the local reference list                         *)
(* ===================================================================== *)

Module Icsd.
Import PyStr PyExc.

Section Agent.

(** [Domain_Agent.range_match], of [domain_agent.py]. *)
Variable range_match : pystr -> pystr -> outcome bool.

Fixpoint ICSD_search (formula : pystr) (ICSD_DB : list pystr) : outcome bool :=
  match ICSD_DB with
  | [] => Returned false
  | ICSD_formula :: rest =>
      bind (range_match formula ICSD_formula) (fun matched =>
      if matched then Returned true else ICSD_search formula rest)
  end.

End Agent.

End Icsd.

(* ===================================================================== *)
(** * [scripts/build_preprocessed_csv.py]                                 *)
(* ===================================================================== *)

Module BuildCsv.
Import PyStr PyExc Decision.

Definition formula_column_candidates : list pystr :=
  [ py "formula"; py "Formula"; py "chemical_formula"; py "Chemical formula";
    py "chemical formula"; py "composition"; py "Composition"; py "compound";
    py "Compound"; py "reduced_formula"; py "pretty_formula" ].

(** [columns] are the labels of [df.columns], in their order. *)
Definition _infer_formula_column (columns : list pystr) : option pystr :=
  find (fun col => list_in col columns) formula_column_candidates.

(** A table read by [pd.read_csv]: its columns, each with its cells as
    [astype(str)] gives them. *)
Definition DataFrame := list (pystr * list pystr).

Definition df_columns (df : DataFrame) : list pystr := List.map fst df.

Fixpoint df_get (df : DataFrame) (col : pystr) : option (list pystr) :=
  match df with
  | [] => None
  | (label, cells) :: rest => if str_eqb label col then Some cells else df_get rest col
  end.

(** What [_read_formulas] raises: its own [ValueError], which names the
    columns found, or the exception of a collaborator. *)
Inductive read_error : Type :=
| CouldNotInferColumn (columns : list pystr)
| ReadFault (e : exn).

Section Read.

(** [os.path.splitext(input_file)[1].lower()] and [os.path.basename]. *)
Variable extension_lower : pystr -> pystr.
Variable basename : pystr -> pystr.

(** [pd.read_csv(input_file, sep=sep)]. *)
Variable read_csv : pystr -> pystr -> outcome DataFrame.

(** The lines of the text file, as iterating over it yields them. *)
Variable file_lines : pystr -> outcome (list pystr).

(** The body of [for line in f]. *)
Definition keep_line (formulas : list pystr) (line : pystr) : list pystr :=
  let line := strip line in
  match line with
  | [] => formulas
  | _ :: _ => if startswith (py "#") line then formulas else formulas ++ [line]
  end.

Definition _read_formulas (input_file : pystr) (formula_column : option pystr)
  : list pystr * pystr + read_error :=
  let ext := extension_lower input_file in
  if str_eqb ext (py ".csv") || str_eqb ext (py ".tsv") then
    let sep : pystr := if str_eqb ext (py ".tsv") then [9%N] else py "," in
    match read_csv input_file sep with
    | Raised e => inr (ReadFault e)
    | Returned df =>
        let formula_column :=
          match formula_column with
          | None => _infer_formula_column (df_columns df)
          | Some col => Some col
          end in
        match formula_column with
        | None => inr (CouldNotInferColumn (df_columns df))
        | Some col =>
            match df_get df col with
            | None => inr (CouldNotInferColumn (df_columns df))
            | Some formulas =>
                inl (formulas, basename input_file ++ py "[" ++ col ++ py "]")
            end
        end
    end
  else
    match file_lines input_file with
    | Raised e => inr (ReadFault e)
    | Returned lines => inl (fold_left keep_line lines [], basename input_file)
    end.

End Read.

(** One row of the output, [{"formula": ..., "capacity": ...}], and one row
    of the errors, [{"formula": ..., "stage": ..., "error": repr(e)}]. *)
Record Row : Type := { row_formula : pystr; row_capacity : pyfloat }.

Inductive Stage : Type := AtParseFormula | AtCapacity.

Record ErrorRow : Type := {
  err_formula : pystr;
  err_stage : Stage;
  err_error : exn
}.

(** [x == 0] on a count. *)
Definition is_zero (x : pyfloat) : bool :=
  match x with
  | Num q => Qeq_bool q 0
  | _ => false
  end.

Section Main.

(** [parse_formula], of [domain_agent.py]: the composition as a lookup from
    element symbol to count, or a raise. *)
Variable parse_formula : pystr -> outcome (pystr -> option pyfloat).

(** [Domain_Agent.calculate_theoretical_capacity]. *)
Variable calculate_theoretical_capacity : pystr -> Z -> outcome pyfloat.

(** [args.task_index]: 101 or 102, by the parser's [choices]. *)
Variable task_index : Z.

Definition target_element : pystr :=
  if (task_index =? 101)%Z then py "Li" else py "Na".

(** [str(raw).strip().replace(" ", "")]. *)
Definition tidy (raw : pystr) : pystr := replace (py " ") [] (strip raw).

(** The body of [for raw in formulas], on [records] and [errors]. *)
Definition build_step (st : list Row * list ErrorRow) (raw : pystr)
  : list Row * list ErrorRow :=
  let '(records, errors) := st in
  let formula := tidy raw in
  match formula with
  | [] => st
  | _ :: _ =>
      match parse_formula formula with
      | Raised e =>
          (records,
           errors ++ [ {| err_formula := formula; err_stage := AtParseFormula;
                          err_error := e |} ])
      | Returned comp =>
          if match comp target_element with
             | None => true
             | Some count => is_zero count
             end
          then st
          else
            match calculate_theoretical_capacity formula task_index with
            | Raised e =>
                (records,
                 errors ++ [ {| err_formula := formula; err_stage := AtCapacity;
                                err_error := e |} ])
            | Returned capacity =>
                (records ++ [ {| row_formula := formula; row_capacity := capacity |} ],
                 errors)
            end
      end
  end.

Definition build (formulas : list pystr) : list Row * list ErrorRow :=
  fold_left build_step formulas ([], []).

(** [out_df.drop_duplicates(subset=["formula"], keep="first")]; [seen] are the
    formulas of the rows kept so far. *)
Fixpoint drop_duplicates_from (seen : list pystr) (rows : list Row) : list Row :=
  match rows with
  | [] => []
  | r :: rest =>
      if list_in (row_formula r) seen then drop_duplicates_from seen rest
      else r :: drop_duplicates_from (row_formula r :: seen) rest
  end.

Definition drop_duplicates (rows : list Row) : list Row :=
  drop_duplicates_from [] rows.

(** The rows [main] writes to the output file and to the errors file. *)
Definition main_tables (deduplicate_exact : bool) (formulas : list pystr)
  : list Row * list ErrorRow :=
  let '(records, errors) := build formulas in
  let out_df :=
    match records with
    | [] => records
    | _ :: _ => if deduplicate_exact then drop_duplicates records else records
    end in
  (out_df, errors).

End Main.

(** ** Vocabulary for the properties of the script *)

(** How [build] classes a tidied formula. *)
Inductive Fate : Type := Written (capacity : pyfloat) | Reported (stage : Stage) (e : exn) | Passed.

Definition fate (parse_formula : pystr -> outcome (pystr -> option pyfloat))
    (capacity_of : pystr -> Z -> outcome pyfloat) (task_index : Z)
    (formula : pystr) : Fate :=
  match parse_formula formula with
  | Raised e => Reported AtParseFormula e
  | Returned comp =>
      match comp (target_element task_index) with
      | None => Passed
      | Some count =>
          if is_zero count then Passed
          else match capacity_of formula task_index with
               | Raised e => Reported AtCapacity e
               | Returned c => Written c
               end
      end
  end.

(** The rows and the error rows a tidied formula stands for. *)
Definition rows_of (parse_formula : pystr -> outcome (pystr -> option pyfloat))
    (capacity_of : pystr -> Z -> outcome pyfloat) (task_index : Z)
    (formula : pystr) : list Row :=
  match formula with
  | [] => []
  | _ :: _ =>
      match fate parse_formula capacity_of task_index formula with
      | Written c => [ {| row_formula := formula; row_capacity := c |} ]
      | _ => []
      end
  end.

Definition errors_of (parse_formula : pystr -> outcome (pystr -> option pyfloat))
    (capacity_of : pystr -> Z -> outcome pyfloat) (task_index : Z)
    (formula : pystr) : list ErrorRow :=
  match formula with
  | [] => []
  | _ :: _ =>
      match fate parse_formula capacity_of task_index formula with
      | Reported stage e =>
          [ {| err_formula := formula; err_stage := stage; err_error := e |} ]
      | _ => []
      end
  end.

(** A line that [_read_formulas] keeps, once stripped. *)
Definition kept (line : pystr) : bool :=
  match line with
  | [] => false
  | _ :: _ => negb (startswith (py "#") line)
  end.

End BuildCsv.

(* ===================================================================== *)
(** * Facts about the string operations                                   *)
(* ===================================================================== *)

Module PyStrFacts.
Import PyStr.
Local Open Scope N_scope.

Lemma str_eqb_eq (a b : pystr) : str_eqb a b = true <-> a = b.
Proof.
  revert b; induction a as [|x a IH]; intros [|y b]; simpl; split;
    try congruence; try reflexivity.
  - rewrite andb_true_iff, N.eqb_eq, IH. intros [-> ->]. reflexivity.
  - intros E. injection E as -> ->. rewrite N.eqb_refl. simpl. apply IH. reflexivity.
Qed.

Lemma list_in_In (x : pystr) (l : list pystr) : list_in x l = true <-> In x l.
Proof.
  unfold list_in. rewrite existsb_exists. split.
  - intros (y & Hy & E). apply str_eqb_eq in E. subst. exact Hy.
  - intros H. exists x. split; [exact H | apply str_eqb_eq; reflexivity].
Qed.

Lemma list_in_not_In (x : pystr) (l : list pystr) : list_in x l = false <-> ~ In x l.
Proof.
  rewrite <- list_in_In. destruct (list_in x l); split; congruence.
Qed.

(** [startswith] and [str_in] say what their names say. *)
Lemma startswith_spec (p s : pystr) :
  startswith p s = true <-> exists post, s = p ++ post.
Proof.
  revert s; induction p as [|x p IH]; intros s; simpl.
  - split; [intros _; exists s; reflexivity | reflexivity].
  - destruct s as [|y s].
    + split; [discriminate | intros (post & E); discriminate].
    + rewrite andb_true_iff, N.eqb_eq, IH. split.
      * intros (-> & post & ->). exists post. reflexivity.
      * intros (post & E). injection E as -> ->. split; [reflexivity | exists post; reflexivity].
Qed.

Lemma str_in_spec (p s : pystr) :
  str_in p s = true <-> exists pre post, s = pre ++ p ++ post.
Proof.
  induction s as [|c s IH].
  - simpl. rewrite orb_false_r, startswith_spec. split.
    + intros (post & E). exists [], post. exact E.
    + intros (pre & post & E). destruct pre; simpl in E.
      * exists post. exact E.
      * discriminate.
  - cbn [str_in]. rewrite orb_true_iff, startswith_spec, IH. split.
    + intros [(post & E) | (pre & post & E)].
      * exists [], post. exact E.
      * exists (c :: pre), post. rewrite E. reflexivity.
    + intros (pre & post & E). destruct pre as [|d pre]; simpl in E.
      * left. exists post. exact E.
      * right. injection E as _ E. exists pre, post. exact E.
Qed.

Lemma drop_while_none (p : char -> bool) (s : pystr) :
  Forall (fun c => p c = false) s -> drop_while p s = s.
Proof.
  intros H. destruct H as [|c s Hc _]; simpl; [reflexivity | rewrite Hc; reflexivity].
Qed.

Lemma strip_by_none (p : char -> bool) (s : pystr) :
  Forall (fun c => p c = false) s -> strip_by p s = s.
Proof.
  intros H. unfold strip_by, rstrip_by, lstrip_by.
  rewrite (drop_while_none p H), drop_while_none.
  - apply rev_involutive.
  - apply Forall_rev. exact H.
Qed.

(** A scan whose pattern cannot start at any character of the text leaves the
    text as it is, and finds nothing. *)
Lemma sub_from_none (P : char -> Prop) (m : matcher) (s : pystr) :
  (forall c s', P c -> m (c :: s') = None) ->
  Forall P s -> sub_from m 0 s = s.
Proof.
  intros Hm H. induction H as [|c s Hc _ IH]; simpl.
  - reflexivity.
  - rewrite (Hm c s Hc), IH. reflexivity.
Qed.

Lemma findall_from_none (P : char -> Prop) (m : matcher) (s : pystr) :
  (forall c s', P c -> m (c :: s') = None) ->
  Forall P s -> findall_from m 0 s = [].
Proof.
  intros Hm H. induction H as [|c s Hc _ IH]; simpl.
  - reflexivity.
  - rewrite (Hm c s Hc). exact IH.
Qed.

Lemma replace_none (P : char -> Prop) (o : char) (old new s : pystr) :
  (forall c, P c -> (o =? c) = false) ->
  Forall P s -> replace (o :: old) new s = s.
Proof.
  intros Ho H. unfold replace, re_sub. apply sub_from_none with (P := P); [|exact H].
  intros c s' Hc. unfold lit. simpl. rewrite (Ho c Hc). reflexivity.
Qed.

Lemma str_in_none (P : char -> Prop) (o : char) (p s : pystr) :
  (forall c, P c -> (o =? c) = false) ->
  Forall P s -> str_in (o :: p) s = false.
Proof.
  intros Ho H. induction H as [|c s Hc _ IH]; simpl.
  - reflexivity.
  - rewrite (Ho c Hc). simpl. exact IH.
Qed.

(** A scan passes over a prefix at whose characters the pattern cannot
    start, and over the rest of a match it has taken. *)
Lemma sub_from_prefix (P : char -> Prop) (m : matcher) (pre s : pystr) :
  (forall c s', P c -> m (c :: s') = None) ->
  Forall P pre -> sub_from m 0 (pre ++ s) = pre ++ sub_from m 0 s.
Proof.
  intros Hm H. induction H as [|c pre Hc _ IH]; simpl.
  - reflexivity.
  - rewrite (Hm c (pre ++ s) Hc), IH. reflexivity.
Qed.

Lemma sub_from_match (m : matcher) (c : char) (s repl : pystr) (n : nat) :
  m (c :: s) = Some (repl, n) ->
  sub_from m 0 (c :: s) = repl ++ sub_from m (pred n) s.
Proof. intros H. cbn [sub_from]. rewrite H. reflexivity. Qed.

Lemma sub_from_miss (m : matcher) (c : char) (s : pystr) :
  m (c :: s) = None -> sub_from m 0 (c :: s) = c :: sub_from m 0 s.
Proof. intros H. cbn [sub_from]. rewrite H. reflexivity. Qed.

Lemma sub_from_skip (m : matcher) (a s : pystr) :
  sub_from m (List.length a) (a ++ s) = sub_from m 0 s.
Proof. induction a as [|c a IH]; simpl; [reflexivity | exact IH]. Qed.

Lemma take_while_app (p : char -> bool) (a s : pystr) (c : char) :
  Forall (fun x => p x = true) a -> p c = false ->
  take_while p (a ++ c :: s) = a /\ drop_while p (a ++ c :: s) = c :: s.
Proof.
  intros H Hc. induction H as [|x a Hx _ [IH1 IH2]]; simpl.
  - rewrite Hc. split; reflexivity.
  - rewrite Hx, IH1, IH2. split; reflexivity.
Qed.

Lemma take_drop_while (p : char -> bool) (s : pystr) :
  s = take_while p s ++ drop_while p s.
Proof.
  induction s as [|c s IH]; simpl; [reflexivity|].
  destruct (p c); simpl; [f_equal; exact IH | reflexivity].
Qed.

End PyStrFacts.

(* ===================================================================== *)
(** * Properties of normalisation and extraction                          *)
(* ===================================================================== *)

Module ExtractFacts.
Import PyStr PyStrFacts Extract.
Local Open Scope N_scope.

(** Arithmetic on code points: turns the boolean tests on a character into
    linear facts and lets [lia] finish. *)
Ltac char_facts :=
  unfold allowed, is_space, is_letter, is_upper, is_lower, is_digit, in_range,
    DOLLAR, STAR, BACKSLASH, UNDERSCORE, BACKTICK, LBRACE, RBRACE, DOT,
    MIDDLE_DOT, LF in *;
  repeat match goal with
         | |- _ = false => apply not_true_is_false; intro
         | H : _ = false |- _ => apply not_true_iff_false in H
         end;
  rewrite ?orb_true_iff, ?andb_true_iff, ?N.eqb_eq, ?N.leb_le in *;
  lia.

Lemma clean_char_not_space c : clean_char c -> is_space c = false.
Proof. unfold clean_char. intros H. char_facts. Qed.

Lemma clean_char_neq (o c : char) :
  In o [DOLLAR; STAR; BACKSLASH; UNDERSCORE; BACKTICK; LBRACE; RBRACE] ->
  clean_char c -> (o =? c) = false.
Proof.
  unfold clean_char. intros Ho H. simpl in Ho.
  repeat (destruct Ho as [<- | Ho]; [char_facts|]). contradiction.
Qed.

(** The last step of the normalisation keeps exactly the allowed characters. *)
Lemma re_sub_not_allowed (s : pystr) : re_sub not_allowed s = filter allowed s.
Proof.
  unfold re_sub. induction s as [|c s IH]; simpl.
  - reflexivity.
  - destruct (allowed c); simpl; rewrite IH; reflexivity.
Qed.

Lemma filter_allowed_clean (s : pystr) : Forall clean_char (filter allowed s).
Proof.
  apply Forall_forall. intros c Hc. apply filter_In in Hc. exact (proj2 Hc).
Qed.

(** Whatever the input, the result holds allowed characters only. *)
Lemma clean_formula_allowed (text : pystr) :
  Forall clean_char (_clean_formula_candidate text).
Proof.
  unfold _clean_formula_candidate. destruct (strip text).
  - constructor.
  - cbv zeta. rewrite re_sub_not_allowed. apply filter_allowed_clean.
Qed.

Lemma clean_char_tame (c : char) : clean_char c -> tame c.
Proof.
  intros H. unfold tame.
  repeat split; try (apply clean_char_neq; [simpl; tauto | exact H]).
  apply clean_char_not_space. exact H.
Qed.

(** On a non-empty text of tame characters without "__", the normalisation
    comes down to the subscript rules and the steps after them. *)
Lemma clean_formula_tame (text : pystr) :
  text <> [] -> Forall tame text -> replace (py "__") [] text = text ->
  _clean_formula_candidate text
  = re_sub not_allowed
      (re_sub whitespace_run
         (replace (py "}") []
            (replace (py "{") []
               (re_sub numeric_subscript (re_sub braced_subscript text))))).
Proof.
  intros Hne H Hus.
  assert (Hpick : forall Q : char -> Prop,
             (forall c, tame c -> Q c) -> Forall Q text)
    by (intros Q HQ; eapply Forall_impl; [|exact H]; exact HQ).
  assert (Hstrip : strip text = text).
  { apply strip_by_none. apply (Hpick (fun c => is_space c = false)).
    intros c Hc. apply Hc. }
  unfold _clean_formula_candidate. cbv zeta. rewrite !Hstrip.
  destruct text as [|c0 text0] eqn:Etext; [contradiction|]. rewrite <- Etext in *.
  change (py "**") with [STAR; STAR]. change (py "$") with [DOLLAR].
  rewrite (@replace_none (fun c => (STAR =? c) = false) STAR [STAR] [] text)
    by (auto; apply Hpick; intros c Hc; apply Hc).
  rewrite Hus.
  rewrite (strip_by_none (N.eqb BACKTICK))
    by (apply (Hpick (fun c => (BACKTICK =? c) = false)); intros c Hc; apply Hc).
  rewrite Hstrip.
  rewrite (@str_in_none (fun c => (DOLLAR =? c) = false) DOLLAR [] text)
    by (auto; apply Hpick; intros c Hc; apply Hc).
  rewrite (@replace_none (fun c => (BACKSLASH =? c) = false) BACKSLASH (py "cdot")
             [MIDDLE_DOT] text)
    by (auto; apply Hpick; intros c Hc; apply Hc).
  replace (re_sub latex_command text) with text; [reflexivity|].
  symmetry. unfold re_sub.
  apply sub_from_none with (P := fun c => (BACKSLASH =? c) = false).
  - intros c s' Hc. unfold latex_command. rewrite N.eqb_sym, Hc. reflexivity.
  - apply Hpick. intros c Hc. apply Hc.
Qed.

(** The steps from the subscript rules on leave a text of allowed characters
    as it is. *)
Lemma subscript_steps_fixed (text : pystr) :
  Forall clean_char text ->
  re_sub braced_subscript text = text
  /\ re_sub numeric_subscript text = text
  /\ replace (py "{") [] text = text
  /\ replace (py "}") [] text = text
  /\ re_sub whitespace_run text = text
  /\ re_sub not_allowed text = text.
Proof.
  intros H.
  assert (Hne : forall o, In o [DOLLAR; STAR; BACKSLASH; UNDERSCORE; BACKTICK; LBRACE; RBRACE] ->
                forall c, clean_char c -> (o =? c) = false)
    by (intros o Ho c; apply clean_char_neq; exact Ho).
  assert (Hsub : forall m, (forall c s', clean_char c -> m (c :: s') = None) ->
                           re_sub m text = text)
    by (intros m Hm; unfold re_sub; apply sub_from_none with (P := clean_char);
        assumption).
  change (py "{") with [LBRACE]. change (py "}") with [RBRACE].
  repeat split.
  - apply Hsub. intros c s' Hc. unfold braced_subscript. destruct s'; [reflexivity|].
    rewrite (N.eqb_sym c), (Hne UNDERSCORE); simpl; tauto.
  - apply Hsub. intros c s' Hc. unfold numeric_subscript.
    rewrite (N.eqb_sym c), (Hne UNDERSCORE); simpl; tauto.
  - apply replace_none with (P := clean_char); auto. apply Hne. simpl; tauto.
  - apply replace_none with (P := clean_char); auto. apply Hne. simpl; tauto.
  - apply Hsub. intros c s' Hc. unfold whitespace_run. simpl.
    rewrite (clean_char_not_space Hc). reflexivity.
  - apply Hsub. intros c s' Hc. unfold not_allowed. rewrite Hc. reflexivity.
Qed.

Lemma finish_clean (text : pystr) :
  Forall clean_char text ->
  re_sub not_allowed
    (re_sub whitespace_run
       (replace (py "}") [] (replace (py "{") [] (re_sub numeric_subscript text))))
  = text.
Proof.
  intros H. destruct (subscript_steps_fixed H) as (_ & -> & -> & -> & -> & ->).
  reflexivity.
Qed.

(** A text of allowed characters passes every step unchanged. *)
Lemma clean_formula_fixed (text : pystr) :
  Forall clean_char text -> _clean_formula_candidate text = text.
Proof.
  intros H. destruct text as [|c text]; [reflexivity|].
  rewrite clean_formula_tame.
  - destruct (subscript_steps_fixed H) as (-> & _). apply finish_clean. exact H.
  - discriminate.
  - eapply Forall_impl; [|exact H]. apply clean_char_tame.
  - change (py "__") with [UNDERSCORE; UNDERSCORE].
    apply replace_none with (P := clean_char); [|exact H].
    intros x. apply clean_char_neq. simpl; tauto.
Qed.

(** C8. The normalisation is idempotent: normalising a normalised text gives
    that text again, for every input. *)
Theorem clean_formula_idempotent (s : pystr) :
  _clean_formula_candidate (_clean_formula_candidate s)
  = _clean_formula_candidate s.
Proof.
  apply clean_formula_fixed. apply clean_formula_allowed.
Qed.

(** ** What [parse] returns *)

Lemma element_token_shape (skip : nat) (s : pystr) :
  Forall element_like (findall_from element_token skip s).
Proof.
  revert skip. induction s as [|c s IH]; intros skip; simpl.
  - constructor.
  - destruct skip as [|k]; [|apply IH].
    destruct (is_upper c) eqn:Hc; [|apply IH].
    destruct s as [|d s'].
    + constructor; [|constructor]. exists c. split; [exact Hc | left; reflexivity].
    + destruct (is_lower d) eqn:Hd; (constructor; [|apply IH]); exists c;
        (split; [exact Hc|]).
      * right. exists d. split; [exact Hd | reflexivity].
      * left. reflexivity.
Qed.

(** X8. Every uppercase letter starts one token, so the tokens are as many as
    the uppercase letters. *)
Lemma element_tokens_count (s : pystr) :
  List.length (element_tokens s) = List.length (filter is_upper s).
Proof.
  unfold element_tokens, re_findall.
  enough (H : List.length (findall_from element_token 0 s)
              = List.length (filter is_upper s)
              /\ (forall d rest, s = d :: rest -> is_upper d = false ->
                  List.length (findall_from element_token 1 s)
                  = List.length (filter is_upper s))) by exact (proj1 H).
  induction s as [|c s [IH0 IH1]].
  - split; [reflexivity | discriminate].
  - split.
    + cbn [findall_from element_token filter].
      destruct (is_upper c) eqn:Hc; [|exact IH0].
      destruct s as [|d s']; [reflexivity|].
      destruct (is_lower d) eqn:Hd; cbn [pred List.length]; f_equal.
      * apply (IH1 d s' eq_refl). clear - Hd. char_facts.
      * exact IH0.
    + intros d rest E Hd. injection E as -> ->.
      cbn [findall_from filter]. rewrite Hd. exact IH0.
Qed.

Lemma NoDup_snoc (A : Type) (l : list A) (x : A) :
  NoDup l -> ~ In x l -> NoDup (l ++ [x]).
Proof.
  intros Hl Hx. apply NoDup_rev in Hl.
  rewrite <- (rev_involutive (l ++ [x])). apply NoDup_rev.
  rewrite rev_app_distr. simpl. constructor; [|exact Hl].
  rewrite <- in_rev. exact Hx.
Qed.

Lemma fold_left_preserves (A B : Type) (I : A -> Prop) (f : A -> B -> A)
    (l : list B) (a : A) :
  (forall acc x, I acc -> I (f acc x)) -> I a -> I (fold_left f l a).
Proof.
  intros Hf. revert a. induction l as [|x l IH]; intros a Ha; simpl.
  - exact Ha.
  - apply IH. apply Hf. exact Ha.
Qed.

Section Parse.

Variable unicode_isalnum : char -> bool.
Variable history : list pystr.

Lemma parse_segment_ok (record : list pystr) (seg : pystr) :
  record_ok history record ->
  record_ok history (parse_segment history record seg).
Proof.
  intros [Hnd Hall]. unfold parse_segment.
  pose proof (clean_formula_allowed seg) as Hclean.
  destruct (_clean_formula_candidate seg) as [|c0 cand] eqn:Ecand; [split; assumption|].
  rewrite <- Ecand in *. set (c := _clean_formula_candidate seg) in *.
  destruct (negb (str_in (py "Li") c) && negb (str_in (py "Na") c)) eqn:Ealk;
    [split; assumption|].
  destruct (List.length (re_findall element_token c) <? 2)%nat eqn:Elen;
    [split; assumption|].
  destruct (list_in c history) eqn:Ehist; [split; assumption|].
  destruct (list_in c record) eqn:Erec; simpl; [split; assumption|].
  apply list_in_not_In in Ehist. apply list_in_not_In in Erec.
  split.
  - apply NoDup_snoc; assumption.
  - apply Forall_app. split; [exact Hall|]. constructor; [|constructor].
    constructor.
    + rewrite Ecand. discriminate.
    + apply andb_false_iff in Ealk.
      destruct Ealk as [E | E]; apply negb_false_iff in E; apply str_in_spec in E;
        [left | right]; exact E.
    + apply Nat.ltb_ge in Elen. exact Elen.
    + exact Ehist.
    + exact Hclean.
Qed.

Lemma parse_line_ok (record : list pystr) (line : pystr) :
  record_ok history record ->
  record_ok history (parse_line unicode_isalnum history record line).
Proof.
  intros H. unfold parse_line.
  destruct (strip line); [exact H|]. cbv zeta.
  destruct (negb _); [exact H|].
  destruct (search_reasoning _ _); [exact H|].
  destruct (strip (lstrip_by _ _)); [exact H|].
  apply fold_left_preserves; [|exact H].
  intros acc seg. apply parse_segment_ok.
Qed.

Lemma parse_ok (raw_text : pystr) :
  record_ok history (parse unicode_isalnum raw_text history).
Proof.
  unfold parse. apply fold_left_preserves.
  - intros acc line. apply parse_line_ok.
  - split; constructor.
Qed.

End Parse.

(** ** Reasoning bullets, and the history as a filter *)

Section ParseStructure.

Variable u : char -> bool.

(** A line that the reasoning pattern matches leaves the record as it is,
    whatever else it holds. *)
Lemma reasoning_bullet_skipped (history record : list pystr) (line : pystr) :
  search_reasoning u (bullet_text line) = true ->
  parse_line u history record line = record.
Proof.
  unfold bullet_text, parse_line. cbv zeta.
  destruct (strip line) as [|c l]; [reflexivity|].
  intros H. destruct (negb _); [reflexivity|]. rewrite H. reflexivity.
Qed.

Lemma list_in_novel (history record : list pystr) (c : pystr) :
  list_in c history = false ->
  list_in c (novel history record) = list_in c record.
Proof.
  intros Hc. unfold novel. induction record as [|x record IH]; simpl.
  - reflexivity.
  - destruct (list_in x history) eqn:Hx; simpl.
    + rewrite IH. destruct (str_eqb c x) eqn:E; [|reflexivity].
      apply str_eqb_eq in E. congruence.
    + rewrite IH. reflexivity.
Qed.

Lemma parse_segment_novel (history record : list pystr) (seg : pystr) :
  parse_segment history (novel history record) seg
  = novel history (parse_segment [] record seg).
Proof.
  unfold parse_segment.
  destruct (_clean_formula_candidate seg) as [|c0 cand] eqn:Ecand; [reflexivity|].
  rewrite <- Ecand. set (c := _clean_formula_candidate seg).
  destruct (negb (str_in (py "Li") c) && negb (str_in (py "Na") c)); [reflexivity|].
  destruct (List.length (re_findall element_token c) <? 2)%nat; [reflexivity|].
  cbn [list_in existsb].
  destruct (list_in c history) eqn:Eh.
  - destruct (list_in c record); simpl; [reflexivity|].
    unfold novel. rewrite filter_app. simpl. fold (list_in c history).
    rewrite Eh. simpl. rewrite app_nil_r. reflexivity.
  - rewrite (list_in_novel history record c Eh).
    destruct (list_in c record); simpl; [reflexivity|].
    unfold novel. rewrite filter_app. simpl. fold (list_in c history).
    rewrite Eh. reflexivity.
Qed.

Lemma fold_novel (A : Type) (history : list pystr)
    (f g : list pystr -> A -> list pystr) (l : list A) (record : list pystr) :
  (forall r x, f (novel history r) x = novel history (g r x)) ->
  fold_left f l (novel history record) = novel history (fold_left g l record).
Proof.
  intros H. revert record. induction l as [|x l IH]; intros record; simpl.
  - reflexivity.
  - rewrite H. apply IH.
Qed.

Lemma parse_line_novel (history record : list pystr) (line : pystr) :
  parse_line u history (novel history record) line
  = novel history (parse_line u [] record line).
Proof.
  unfold parse_line.
  destruct (strip line); [reflexivity|]. cbv zeta.
  destruct (negb _); [reflexivity|].
  destruct (search_reasoning _ _); [reflexivity|].
  destruct (strip (lstrip_by _ _)); [reflexivity|].
  apply fold_novel. intros r seg. apply parse_segment_novel.
Qed.

(** X3. The extraction under a history is the extraction under the empty
    history with the strings of the history taken out. *)
Lemma parse_history_filter (raw_text : pystr) (history : list pystr) :
  parse u raw_text history = novel history (parse u raw_text []).
Proof.
  unfold parse.
  apply (fold_novel history (parse_line u history) (parse_line u [])
           (split LF (strip raw_text)) []).
  intros r line. apply parse_line_novel.
Qed.

End ParseStructure.

(** ** The claims about [parse] *)

Import Scenario.

Lemma response_1_extraction (u : char -> bool) (history : list pystr) :
  parse u response_1 history
  = if list_in formula_1 history then [] else [formula_1].
Proof. vm_compute. reflexivity. Qed.

(** C1. Scenario 1: from the two-line response whose first bullet is labelled
    "Reasoning" and whose second bullet holds the formula in LaTeX, with an
    empty history, [parse] returns exactly the one normalised formula.  The
    first bullet is matched by the reasoning pattern and leaves the record as
    it was, whatever the history and the record. *)
Theorem scenario_1_extraction (u : char -> bool) :
  parse u response_1 [] = [formula_1]
  /\ search_reasoning u reasoning_bullet = true
  /\ (forall history record,
        parse_line u history record reasoning_bullet = record).
Proof.
  split; [|split].
  - rewrite response_1_extraction. reflexivity.
  - vm_compute. reflexivity.
  - intros history record. vm_compute. reflexivity.
Qed.

(** C2. Every string [parse] returns contains "Li" or "Na" and has at least
    two element tokens, each an uppercase letter optionally followed by a
    lowercase letter; the input "* $PO_4$" gives the empty list. *)
Theorem parse_candidates_valid (u : char -> bool) (raw_text : pystr)
    (history : list pystr) :
  Forall (fun c => (contains (py "Li") c \/ contains (py "Na") c)
                   /\ (2 <= List.length (element_tokens c))%nat
                   /\ Forall element_like (element_tokens c))
         (parse u raw_text history)
  /\ parse u anion_only history = [].
Proof.
  split.
  - destruct (parse_ok u history raw_text) as [_ Hall].
    eapply Forall_impl; [|exact Hall].
    intros c [_ Halk Hlen _ _]. repeat split; try assumption.
    apply element_token_shape.
  - vm_compute. reflexivity.
Qed.

(** C3. The list [parse] returns has no repeated string and no string of the
    history; with the scenario-1 formula already in the history, the
    scenario-1 response gives the empty list. *)
Theorem parse_novel_without_duplicates (u : char -> bool) (raw_text : pystr)
    (history : list pystr) :
  NoDup (parse u raw_text history)
  /\ Forall (fun c => ~ In c history) (parse u raw_text history)
  /\ (In formula_1 history -> parse u response_1 history = []).
Proof.
  destruct (parse_ok u history raw_text) as [Hnd Hall].
  split; [exact Hnd | split].
  - eapply Forall_impl; [|exact Hall]. intros c Hc. exact (acc_novel Hc).
  - intros Hin. rewrite response_1_extraction.
    apply list_in_In in Hin. rewrite Hin. reflexivity.
Qed.

Lemma parse_novel_without_duplicates_witness :
  parse ascii_only response_1 [formula_1] = [].
Proof.
  apply (proj2 (proj2 (parse_novel_without_duplicates ascii_only [] [formula_1]))).
  simpl. left. reflexivity.
Defined.

(** ** Braced and bare subscripts *)

(** The bare subscript rule at an underscore in front of a digit: it takes a
    prefix of what follows. *)
Lemma numeric_subscript_prefix (d : char) (s : pystr) :
  is_digit d = true ->
  exists value rest,
    numeric_subscript (UNDERSCORE :: d :: s) = Some (value, S (List.length value))
    /\ d :: s = value ++ rest.
Proof.
  intros Hd. unfold numeric_subscript. rewrite N.eqb_refl.
  cbn [take_while drop_while]. rewrite Hd.
  set (whole := d :: take_while is_digit s).
  assert (Hsplit : d :: s = whole ++ drop_while is_digit s)
    by (unfold whole; simpl; f_equal; apply take_drop_while).
  destruct (drop_while is_digit s) as [|p s2] eqn:Edrop.
  - exists whole, []. split; [reflexivity | exact Hsplit].
  - destruct (p =? DOT) eqn:Ep.
    + apply N.eqb_eq in Ep. subst p.
      destruct (take_while is_digit s2) as [|f frac] eqn:Efrac.
      * exists whole, (DOT :: s2). split; [reflexivity | exact Hsplit].
      * exists (whole ++ DOT :: f :: frac), (drop_while is_digit s2). split.
        -- reflexivity.
        -- rewrite Hsplit, <- app_assoc, <- Efrac. f_equal.
           cbn [app]. f_equal. apply take_drop_while.
    + exists whole, (p :: s2). split; [reflexivity | exact Hsplit].
Qed.

(** The braced rule at "_{", the value [w] and "}". *)
Lemma braced_rule (w post : pystr) :
  w <> [] -> Forall clean_char w -> Forall clean_char post ->
  re_sub braced_subscript (UNDERSCORE :: LBRACE :: w ++ RBRACE :: post) = w ++ post.
Proof.
  intros Hne Hw Hpost. unfold re_sub.
  assert (Hinner : Forall (fun x => negb (x =? RBRACE) = true) w).
  { eapply Forall_impl; [|exact Hw]. intros c Hc.
    rewrite N.eqb_sym, (@clean_char_neq RBRACE c); [reflexivity | simpl; tauto | exact Hc]. }
  destruct (@take_while_app (fun c => negb (c =? RBRACE)) w post RBRACE
              Hinner eq_refl) as [Htake Hdrop].
  assert (Hm : braced_subscript (UNDERSCORE :: LBRACE :: w ++ RBRACE :: post)
               = Some (w, (List.length w + 3)%nat)).
  { unfold braced_subscript. rewrite !N.eqb_refl. cbn [andb].
    rewrite Htake, Hdrop. destruct w; [contradiction | reflexivity]. }
  rewrite (@sub_from_match _ _ _ _ _ Hm). f_equal.
  replace (LBRACE :: w ++ RBRACE :: post) with ((LBRACE :: w ++ [RBRACE]) ++ post)
    by (cbn [app]; rewrite <- app_assoc; reflexivity).
  replace (pred (List.length w + 3)) with (List.length (LBRACE :: w ++ [RBRACE]))
    by (cbn [List.length]; rewrite length_app; simpl; lia).
  rewrite sub_from_skip.
  apply sub_from_none with (P := clean_char); [|exact Hpost].
  intros c s' Hc. unfold braced_subscript. destruct s'; [reflexivity|].
  rewrite (N.eqb_sym c), (@clean_char_neq UNDERSCORE c); [reflexivity | simpl; tauto | exact Hc].
Qed.

(** The bare rule at "_" in front of a digit. *)
Lemma bare_rule (d : char) (s : pystr) :
  is_digit d = true -> Forall clean_char (d :: s) ->
  re_sub numeric_subscript (UNDERSCORE :: d :: s) = d :: s.
Proof.
  intros Hd Hs. unfold re_sub.
  destruct (@numeric_subscript_prefix d s Hd) as (value & rest & Hm & Hsplit).
  rewrite (@sub_from_match _ _ _ _ _ Hm). cbn [pred].
  rewrite Hsplit, sub_from_skip. f_equal.
  apply sub_from_none with (P := clean_char).
  - intros c s' Hc. unfold numeric_subscript.
    rewrite (N.eqb_sym c), (@clean_char_neq UNDERSCORE c); [reflexivity | simpl; tauto | exact Hc].
  - rewrite Hsplit in Hs. apply Forall_app in Hs. exact (proj2 Hs).
Qed.

(** X2. Round trip.  Inside a text of allowed characters, a value written as a
    braced subscript and the same value written as a bare subscript (it then
    starts with a digit) are normalised to the same text: the value in
    place. *)
Lemma subscript_round_trip (pre v post : pystr) (d : char) :
  Forall clean_char pre -> Forall clean_char (d :: v) -> Forall clean_char post ->
  is_digit d = true ->
  _clean_formula_candidate (pre ++ py "_{" ++ (d :: v) ++ py "}" ++ post)
  = pre ++ (d :: v) ++ post
  /\ _clean_formula_candidate (pre ++ py "_" ++ (d :: v) ++ post)
     = pre ++ (d :: v) ++ post.
Proof.
  intros Hpre Hv Hpost Hd.
  change (py "_{") with [UNDERSCORE; LBRACE]. change (py "_") with [UNDERSCORE].
  change (py "}") with [RBRACE].
  set (w := d :: v) in *.
  assert (Hall : Forall clean_char (pre ++ w ++ post))
    by (repeat (apply Forall_app; split); assumption).
  assert (Hwpost : Forall clean_char (w ++ post))
    by (apply Forall_app; split; assumption).
  assert (Hus : forall c, clean_char c -> (UNDERSCORE =? c) = false)
    by (intros c; apply clean_char_neq; simpl; tauto).
  assert (Hlit : forall c s', clean_char c ->
                   lit [UNDERSCORE; UNDERSCORE] [] (c :: s') = None)
    by (intros c s' Hc; unfold lit; cbn [startswith]; rewrite (Hus c Hc);
        reflexivity).
  assert (Hbr : forall c s', clean_char c -> braced_subscript (c :: s') = None).
  { intros c s' Hc. unfold braced_subscript. destruct s'; [reflexivity|].
    rewrite (N.eqb_sym c), (Hus c Hc). reflexivity. }
  assert (Hnum : forall c s', clean_char c -> numeric_subscript (c :: s') = None).
  { intros c s' Hc. unfold numeric_subscript.
    rewrite (N.eqb_sym c), (Hus c Hc). reflexivity. }
  assert (Hd_clean : clean_char d) by (inversion Hv; assumption).
  assert (Htame_us : tame UNDERSCORE) by (repeat split).
  assert (Htame_lb : tame LBRACE) by (repeat split).
  assert (Htame_rb : tame RBRACE) by (repeat split).
  assert (Htame : forall l, Forall clean_char l -> Forall tame l)
    by (intros l Hl; eapply Forall_impl; [|exact Hl]; apply clean_char_tame).
  (* "__" does not occur in either text *)
  assert (Hdouble : forall s, Forall (fun c => (UNDERSCORE =? c) = false) s ->
             s <> [] ->
             replace [UNDERSCORE; UNDERSCORE] [] (pre ++ UNDERSCORE :: s)
             = pre ++ UNDERSCORE :: s).
  { intros s Hs Hne. unfold replace, re_sub.
    rewrite (@sub_from_prefix clean_char _ pre _ Hlit Hpre). f_equal.
    rewrite sub_from_miss.
    - f_equal. apply sub_from_none with (P := fun c => (UNDERSCORE =? c) = false);
        [|exact Hs].
      intros c s' Hc. unfold lit. cbn [startswith]. rewrite Hc. reflexivity.
    - destruct s as [|x s]; [contradiction|]. inversion Hs; subst.
      unfold lit. cbn [startswith]. rewrite N.eqb_refl.
      match goal with H : (UNDERSCORE =? x) = false |- _ => rewrite H end.
      reflexivity. }
  assert (Hno_us : forall l, Forall clean_char l ->
                     Forall (fun c => (UNDERSCORE =? c) = false) l)
    by (intros l Hl; eapply Forall_impl; [|exact Hl]; exact Hus).
  split.
  - (* braced *)
    rewrite clean_formula_tame.
    + unfold re_sub at 4.
      rewrite (@sub_from_prefix clean_char braced_subscript pre _ Hbr Hpre).
      cbn [app]. fold (re_sub braced_subscript (UNDERSCORE :: LBRACE :: w ++ RBRACE :: post)).
      rewrite braced_rule; try assumption; [|discriminate].
      apply finish_clean. exact Hall.
    + destruct pre; discriminate.
    + apply Forall_app. split; [apply Htame; exact Hpre|]. cbn [app].
      constructor; [exact Htame_us|]. constructor; [exact Htame_lb|].
      apply Forall_app. split; [apply Htame; exact Hv|].
      constructor; [exact Htame_rb | apply Htame; exact Hpost].
    + change (py "__") with [UNDERSCORE; UNDERSCORE]. cbn [app].
      apply Hdouble; [|discriminate].
      constructor; [reflexivity|]. apply Forall_app. split; [apply Hno_us; exact Hv|].
      constructor; [reflexivity | apply Hno_us; exact Hpost].
  - (* bare *)
    rewrite clean_formula_tame.
    + unfold re_sub at 4.
      rewrite (@sub_from_prefix clean_char braced_subscript pre _ Hbr Hpre).
      cbn [app]. unfold w at 1. cbn [app].
      rewrite sub_from_miss.
      2:{ unfold braced_subscript. rewrite N.eqb_refl. cbn [andb].
          replace (d =? LBRACE) with false; [reflexivity|].
          symmetry. clear - Hd. char_facts. }
      replace (sub_from braced_subscript 0 (d :: v ++ post)) with (w ++ post)
        by (symmetry; apply sub_from_none with (P := clean_char); assumption).
      unfold re_sub at 3.
      rewrite (@sub_from_prefix clean_char numeric_subscript pre _ Hnum Hpre).
      fold (re_sub numeric_subscript (UNDERSCORE :: w ++ post)).
      unfold w at 1. cbn [app]. rewrite bare_rule; [|exact Hd|exact Hwpost].
      change (d :: v ++ post) with (w ++ post).
      destruct (subscript_steps_fixed Hall) as (_ & _ & -> & -> & -> & ->).
      reflexivity.
    + destruct pre; discriminate.
    + apply Forall_app. split; [apply Htame; exact Hpre|]. cbn [app].
      constructor; [exact Htame_us|]. apply Htame. exact Hwpost.
    + change (py "__") with [UNDERSCORE; UNDERSCORE]. cbn [app].
      apply Hdouble; [|discriminate]. apply Hno_us. exact Hwpost.
Qed.

Lemma subscript_round_trip_witness :
  _clean_formula_candidate (py "X" ++ py "_{" ++ (49%N :: py ".02") ++ py "}" ++ [])
  = py "X" ++ (49%N :: py ".02") ++ []
  /\ _clean_formula_candidate (py "X" ++ py "_" ++ (49%N :: py ".02") ++ [])
     = py "X" ++ (49%N :: py ".02") ++ [].
Proof.
  apply (@subscript_round_trip (py "X") (py ".02") [] 49%N).
  - repeat constructor.
  - repeat constructor.
  - constructor.
  - reflexivity.
Defined.

(** ** Further facts about normalisation and extraction *)

(** The scanning functions on texts where matches touch, overlap or fail. *)
Example scanning_examples :
  re_findall math_span (py "$a$b$c$ $$x$ $y") = [py "a"; py "c"; py "x"]
  /\ re_findall element_token (py "LiFePO4Xyz")
     = [py "Li"; py "Fe"; py "P"; py "O"; py "Xy"]
  /\ re_sub numeric_subscript (py "a_1.b_2.5.6_.7_x") = py "a1.b2.5.6_.7_x"
  /\ re_sub braced_subscript (py "a_{}b_{x}c_{y") = py "a_{}bxc_{y"
  /\ replace (py "__") [] (py "a__b___c") = py "ab_c"
  /\ split LF (py "a" ++ [LF; LF] ++ py "b") = [py "a"; []; py "b"]
  /\ max_by_len (py "ab") [py "cd"; py "e"] = py "ab".
Proof. vm_compute. repeat split. Qed.

Lemma reasoning_bullet_skipped_witness :
  parse_line ascii_only [] [formula_1] reasoning_bullet = [formula_1].
Proof.
  apply (reasoning_bullet_skipped ascii_only [] [formula_1] reasoning_bullet).
  vm_compute. reflexivity.
Defined.

(** The examples of the docstring of [_clean_formula_candidate], and the
    braced and the bare subscript of one value. *)
Lemma clean_formula_examples :
  _clean_formula_candidate (py "$Li_{1.02}Fe_{0.70}Mn_{0.25}Mg_{0.05}PO_4$")
  = py "Li1.02Fe0.70Mn0.25Mg0.05PO4"
  /\ _clean_formula_candidate (py "**LiFePO_4**") = py "LiFePO4"
  /\ _clean_formula_candidate (py "X_{1.02}") = py "X1.02"
  /\ _clean_formula_candidate (py "X_1.02") = py "X1.02".
Proof. vm_compute. repeat split. Qed.

(** X4. Every string [parse] returns is a non-empty text of allowed
    characters, and it is the normalisation of itself. *)
Lemma parse_candidates_clean (u : char -> bool) (raw_text : pystr)
    (history : list pystr) :
  Forall (fun c => c <> [] /\ Forall clean_char c
                   /\ _clean_formula_candidate c = c)
         (parse u raw_text history).
Proof.
  destruct (parse_ok u history raw_text) as [_ Hall].
  eapply Forall_impl; [|exact Hall].
  intros c [Hne _ _ _ Hclean]. repeat split; try assumption.
  apply clean_formula_fixed. exact Hclean.
Qed.

End ExtractFacts.

(* ===================================================================== *)
(** * Properties of the generation loop                                   *)
(* ===================================================================== *)

Module GenerationFacts.
Import PyStr PyStrFacts PyExc Extract Generation Scenario.

Lemma store_same (h : Heap) (r : ref) (m : Message) : store h r m r = m.
Proof. unfold store. rewrite Nat.eqb_refl. reflexivity. Qed.

Lemma store_other (h : Heap) (r r' : ref) (m : Message) :
  r' <> r -> store h r m r' = h r'.
Proof.
  intros H. unfold store. apply Nat.eqb_neq in H. rewrite H. reflexivity.
Qed.

Lemma store_appended (h : Heap) (r : ref) (text : pystr) :
  appended h (store h r (extended (h r) text)) r text.
Proof.
  split; [apply store_same | intros r' H; apply store_other; exact H].
Qed.

Lemma append_to_last_snoc (suffix : pystr) (earlier : list ref) (r : ref) (h : Heap) :
  append_to_last suffix (earlier ++ [r]) h
  = Returned (store h r (extended (h r) suffix)).
Proof. unfold append_to_last. rewrite rev_app_distr. reflexivity. Qed.

Section Loop.

Variable u : char -> bool.
Variable create : nat -> Request -> outcome pystr.
Variable model api_model : pystr.
Variable temperature : Q.

Local Abbreviation attempt' := (attempt u create model api_model temperature).
Local Abbreviation loop' := (loop u create model api_model temperature).
Local Abbreviation request' := (make_request model api_model temperature).

(** One pass logs one event, for the request built from the state it started
    in, and leaves the conversation and the history list as they were. *)
Lemma attempt_logs (st : LoopState) :
  exists ev,
    trace (fst (attempt' st)) = trace st ++ [ev]
    /\ history_battery_list (fst (attempt' st)) = history_battery_list st
    /\ ev_request ev = request' st
    /\ ev_history ev = history_battery_list st
    /\ ev_response ev = create (List.length (trace st)) (request' st)
    /\ (forall l, ev_excluded ev = Some l ->
        exists raw, ev_response ev = Returned raw
                    /\ parse u raw (history_battery_list st) = []
                    /\ l = parse u raw [])
    /\ messages (fst (attempt' st)) = messages st.
Proof.
  unfold attempt.
  destruct (create _ _) as [raw|e] eqn:Ecreate.
  - destruct (parse u raw (history_battery_list st)) eqn:Eparse.
    + destruct (append_to_last _ _ _); simpl; eexists; repeat split;
        try reflexivity; simpl; try (symmetry; exact Ecreate);
        intros l [= <-]; exists raw; auto.
    + simpl; eexists; repeat split; try reflexivity; simpl;
        try (symmetry; exact Ecreate); discriminate.
  - simpl; eexists; repeat split; try reflexivity; simpl;
      try (symmetry; exact Ecreate); discriminate.
Qed.

(** A property of the state that every pass keeps holds after the loop. *)
Lemma loop_preserves (I : LoopState -> Prop) :
  (forall st, I st -> I (fst (attempt' st))) ->
  forall fuel st, I st -> I (fst (loop' fuel st)).
Proof.
  intros Hstep. induction fuel as [|fuel IH]; intros st Hst; simpl.
  - exact Hst.
  - specialize (Hstep st Hst).
    destruct (attempt' st) as [st' [result|e]]; simpl in *.
    + exact Hstep.
    + apply IH. exact Hstep.
Qed.

(** The loop ends only with the non-empty extraction of the last answer. *)
Lemma loop_result (fuel : nat) (st st' : LoopState) (raw : pystr) (l : list pystr) :
  loop' fuel st = (st', Some (raw, l)) ->
  l <> [] /\ l = parse u raw (history_battery_list st').
Proof.
  revert st. induction fuel as [|fuel IH]; intros st; simpl.
  - discriminate.
  - destruct (attempt_logs st) as (ev & _ & Hhist & _).
    destruct (attempt' st) as [st1 [result|e]] eqn:Eatt; simpl in Hhist.
    + intros [= <- ->]. revert Eatt. unfold attempt.
      destruct (create _ _) as [raw'|e']; [|discriminate].
      destruct (parse u raw' (history_battery_list st)) eqn:Eparse.
      * destruct (append_to_last _ _ _); discriminate.
      * intros [= <- <- <-]. simpl. rewrite Eparse. split; [discriminate|reflexivity].
    + apply IH.
Qed.

(** A pass whose extraction is empty, in a conversation with a trailing
    message [r]. *)
Lemma attempt_excludes (st : LoopState) (earlier : list ref) (r : ref)
    (raw : pystr) :
  messages st = earlier ++ [r] ->
  create (List.length (trace st)) (request' st) = Returned raw ->
  parse u raw (history_battery_list st) = [] ->
  attempt' st
  = ({| messages := messages st;
        heap := store (heap st) r
                  (extended (heap st r) (exclusion_text (parse u raw [])));
        history_battery_list := history_battery_list st;
        trace := trace st ++
                 [ {| ev_request := request' st;
                      ev_history := history_battery_list st;
                      ev_response := Returned raw;
                      ev_excluded := Some (parse u raw []) |} ] |},
     Raised (AssertionError retry_message)).
Proof.
  intros Hmsgs Hcreate Hparse. unfold attempt.
  rewrite Hcreate, Hparse, Hmsgs, append_to_last_snoc. unfold log.
  rewrite Hmsgs. reflexivity.
Qed.

(** A pass whose extraction is not empty. *)
Lemma attempt_accepts (st : LoopState) (raw : pystr) :
  create (List.length (trace st)) (request' st) = Returned raw ->
  parse u raw (history_battery_list st) <> [] ->
  attempt' st
  = ({| messages := messages st;
        heap := heap st;
        history_battery_list := history_battery_list st;
        trace := trace st ++
                 [ {| ev_request := request' st;
                      ev_history := history_battery_list st;
                      ev_response := Returned raw;
                      ev_excluded := None |} ] |},
     Returned (raw, parse u raw (history_battery_list st))).
Proof.
  intros Hcreate Hparse. unfold attempt. rewrite Hcreate.
  destruct (parse u raw (history_battery_list st)); [contradiction|reflexivity].
Qed.

End Loop.

(** ** The history list of one invocation *)

Lemma concat_repeat_comm (A : Type) (x : list A) (k : nat) :
  List.concat (repeat x k) ++ x = x ++ List.concat (repeat x k).
Proof.
  induction k as [|k IH]; simpl.
  - rewrite app_nil_r. reflexivity.
  - rewrite <- app_assoc, IH. reflexivity.
Qed.

Lemma exclusions_snoc (tr : list Event) (ev : Event) :
  exclusions (tr ++ [ev])
  = (exclusions tr + match ev_excluded ev with Some _ => 1 | None => 0 end)%nat.
Proof.
  unfold exclusions. rewrite filter_app, length_app. simpl.
  destruct (ev_excluded ev); reflexivity.
Qed.

Lemma appended_nothing (h : Heap) (r : ref) : appended h h r [].
Proof.
  split; [|reflexivity]. unfold extended. rewrite app_nil_r.
  destruct (h r); reflexivity.
Qed.

Lemma appended_more (h h1 : Heap) (r : ref) (text more : pystr) :
  appended h h1 r text ->
  appended h (store h1 r (extended (h1 r) more)) r (text ++ more).
Proof.
  intros [Hr Hother]. split.
  - rewrite store_same, Hr. unfold extended. simpl. rewrite app_assoc. reflexivity.
  - intros r' H. rewrite store_other by exact H. apply Hother. exact H.
Qed.

Section Invocation.

Variable u : char -> bool.
Variable create : nat -> Request -> outcome pystr.
Variable model api_model : pystr.
Variable temperature : Q.

Lemma attempt_unconstrained (st : LoopState) :
  history_battery_list st = [] /\ Forall (unconstrained u) (trace st) ->
  let st' := fst (attempt u create model api_model temperature st) in
  history_battery_list st' = [] /\ Forall (unconstrained u) (trace st').
Proof.
  intros [Hh Htr]. cbv zeta.
  destruct (attempt_logs u create model api_model temperature st)
    as (ev & -> & -> & _ & Hev & _ & Hex & _).
  split; [exact Hh|]. apply Forall_app. split; [exact Htr|].
  constructor; [|constructor]. rewrite Hh in *. repeat split.
  - exact Hev.
  - intros raw _. rewrite Hev. reflexivity.
  - intros l Hl. destruct (Hex l Hl) as (raw & _ & Hempty & ->). exact Hempty.
Qed.

(** The exclusion instructions written so far, one after the other. *)
Local Abbreviation written := (fun st : LoopState =>
  List.concat (repeat (exclusion_text []) (exclusions (trace st)))).

Lemma attempt_messages (h : Heap) (earlier : list ref) (r : ref) (st : LoopState) :
  history_battery_list st = []
  /\ messages st = earlier ++ [r]
  /\ appended h (heap st) r (written st) ->
  let st' := fst (attempt u create model api_model temperature st) in
  history_battery_list st' = []
  /\ messages st' = earlier ++ [r]
  /\ appended h (heap st') r (written st').
Proof.
  intros (Hh & Hm & Happ). cbv zeta. unfold attempt.
  destruct (create _ _) as [raw|e];
    cbn [fst log messages heap trace history_battery_list].
  - rewrite Hh. destruct (parse u raw []) eqn:Eparse.
    + rewrite Hm, append_to_last_snoc.
      cbn [fst log messages heap trace history_battery_list].
      rewrite exclusions_snoc. cbn [ev_excluded].
      split; [exact Hh|]. split; [exact Hm|].
      rewrite Nat.add_1_r. cbn [repeat List.concat].
      rewrite <- concat_repeat_comm. apply appended_more. exact Happ.
    + cbn [fst log messages heap trace history_battery_list].
      rewrite exclusions_snoc. cbn [ev_excluded]. rewrite Nat.add_0_r.
      repeat split; try assumption; apply Happ.
  - rewrite exclusions_snoc. cbn [ev_excluded]. rewrite Nat.add_0_r.
    repeat split; try assumption; apply Happ.
Qed.

End Invocation.

(** C5. In one invocation of [optimize_batteries_chatgpt] the history list
    starts empty and stays empty: every pass holds the empty history, so the
    history-constrained extraction of its answer is the extraction with an
    empty history, and whenever the exclusion branch runs the list it formats
    is empty.  Hence the trailing message only ever grows by copies of the
    exclusion instruction for the empty list, one for each pass that reached
    the exclusion branch. *)
Theorem history_stays_empty (u : char -> bool) (getenv : pystr -> option pystr)
    (openai : OpenAI) (create : nat -> Request -> outcome pystr) (fuel : nat)
    (h : Heap) (model : pystr) (temperature : Q) :
  (forall msgs,
     let st := fst (optimize_batteries_chatgpt u getenv openai create fuel h msgs
                      model temperature) in
     history_battery_list st = [] /\ Forall (unconstrained u) (trace st))
  /\ (forall earlier r,
        let st := fst (optimize_batteries_chatgpt u getenv openai create fuel h
                         (earlier ++ [r]) model temperature) in
        messages st = earlier ++ [r]
        /\ appended h (heap st) r
             (List.concat (repeat (exclusion_text []) (exclusions (trace st))))).
Proof.
  split.
  - intros msgs. cbv zeta. unfold optimize_batteries_chatgpt.
    apply (loop_preserves u create model _ temperature
             (fun st => history_battery_list st = []
                        /\ Forall (unconstrained u) (trace st))).
    + intros st. apply attempt_unconstrained.
    + split; [reflexivity | constructor].
  - intros earlier r. cbv zeta. unfold optimize_batteries_chatgpt.
    apply (loop_preserves u create model _ temperature
             (fun st => history_battery_list st = []
                        /\ messages st = earlier ++ [r]
                        /\ appended h (heap st) r
                             (List.concat (repeat (exclusion_text [])
                                             (exclusions (trace st)))))).
    + intros st. apply attempt_messages.
    + split; [reflexivity|]. split; [reflexivity|]. apply appended_nothing.
Qed.

(** ** Exclusion and retry *)

(** X11. What holds of exclusion and retry. (i) A pass whose
    history-constrained extraction is empty appends to the content of the trailing message the exclusion
    instruction for the unconstrained extraction of that answer, changes no
    other message, and signals a retry: the loop goes on from the state the
    pass left.  (ii) With a provider whose first answer yields no candidate
    and whose second answer yields one, the loop is still running after one
    call and ends with the second: two requests, the second carrying the
    conversation whose trailing message was extended by the exclusion
    instruction for the empty list.  (iii) A list the loop returns is never
    empty. *)
Theorem exclusion_then_retry (u : char -> bool) (model api_model : pystr)
    (temperature : Q) :
  (forall create st earlier r raw,
     messages st = earlier ++ [r] ->
     create (List.length (trace st)) (make_request model api_model temperature st)
     = Returned raw ->
     parse u raw (history_battery_list st) = [] ->
     exists st',
       attempt u create model api_model temperature st
       = (st', Raised (AssertionError retry_message))
       /\ messages st' = messages st
       /\ appended (heap st) (heap st') r (exclusion_text (parse u raw []))
       /\ history_battery_list st' = history_battery_list st
       /\ (forall fuel,
             loop u create model api_model temperature (S fuel) st
             = loop u create model api_model temperature fuel st'))
  /\ (forall h earlier r r1 r2 fuel,
        parse u r1 [] = [] ->
        parse u r2 [] <> [] ->
        let run := loop u (scripted [Returned r1; Returned r2]) model api_model
                     temperature in
        let st0 := initial h (earlier ++ [r]) in
        let grown := store h r (extended (h r) (exclusion_text [])) in
        snd (run 1%nat st0) = None
        /\ heap (fst (run 1%nat st0)) = grown
        /\ snd (run (S (S fuel)) st0) = Some (r2, parse u r2 [])
        /\ heap (fst (run (S (S fuel)) st0)) = grown
        /\ messages (fst (run (S (S fuel)) st0)) = earlier ++ [r]
        /\ List.map (fun ev => req_messages (ev_request ev))
             (trace (fst (run (S (S fuel)) st0)))
           = [contents h (earlier ++ [r]); contents grown (earlier ++ [r])]
        /\ appended h grown r (exclusion_text []))
  /\ (forall create fuel st st' raw l,
        loop u create model api_model temperature fuel st = (st', Some (raw, l)) ->
        l <> []).
Proof.
  split; [|split].
  - intros create st earlier r raw Hm Hc Hp.
    pose proof (@attempt_excludes u create model api_model temperature st earlier
                  r raw Hm Hc Hp) as E.
    eexists. split; [exact E|].
    split; [reflexivity|]. split; [apply store_appended|]. split; [reflexivity|].
    intros fuel. cbn [loop]. rewrite E. reflexivity.
  - intros h earlier r r1 r2 fuel H1 H2. cbv zeta.
    set (create := scripted [Returned r1; Returned r2]).
    pose proof (@attempt_excludes u create model api_model temperature
                  (initial h (earlier ++ [r])) earlier r r1 eq_refl eq_refl H1) as E1.
    rewrite H1 in E1.
    cbn [loop]. rewrite E1. cbn [fst snd heap initial].
    split; [reflexivity|]. split; [reflexivity|].
    match goal with
    | |- context [attempt _ _ _ _ _ ?st] => set (st1 := st)
    end.
    pose proof (@attempt_accepts u create model api_model temperature st1 r2
                  eq_refl H2) as E2.
    rewrite E2.
    cbn [fst snd heap messages trace st1 initial history_battery_list].
    split; [reflexivity|]. split; [reflexivity|]. split; [reflexivity|].
    split; [|apply store_appended].
    unfold make_request. destruct (str_eqb model (py "chatgpt_3.5")); reflexivity.
  - intros create fuel st st' raw l H.
    exact (proj1 (loop_result u create model api_model temperature fuel st H)).
Qed.

Lemma exclusion_then_retry_witness :
  let run := loop ascii_only (scripted [Returned anion_only; Returned response_1])
               (py "gpt-4o-mini") (py "gpt-4o-mini") 0 in
  let st0 := initial two_messages ([0%nat] ++ [1%nat]) in
  let grown :=
    store two_messages 1%nat (extended (two_messages 1%nat) (exclusion_text [])) in
  snd (run 1%nat st0) = None
  /\ heap (fst (run 1%nat st0)) = grown
  /\ snd (run 2%nat st0) = Some (response_1, parse ascii_only response_1 [])
  /\ heap (fst (run 2%nat st0)) = grown
  /\ messages (fst (run 2%nat st0)) = [0%nat] ++ [1%nat]
  /\ List.map (fun ev => req_messages (ev_request ev)) (trace (fst (run 2%nat st0)))
     = [contents two_messages ([0%nat] ++ [1%nat]);
        contents grown ([0%nat] ++ [1%nat])]
  /\ appended two_messages grown 1%nat (exclusion_text []).
Proof.
  apply (proj1 (proj2 (exclusion_then_retry ascii_only (py "gpt-4o-mini")
                         (py "gpt-4o-mini") 0))
           two_messages [0%nat] 1%nat anion_only response_1 0%nat).
  - vm_compute. reflexivity.
  - vm_compute. discriminate.
Defined.

(** C4, what the code does in scenario 4.  The history list being empty, a
    first answer that carries a formula is accepted at once, discussed before
    or not: one call, the conversation untouched, no exclusion instruction.
    A first answer the loop does retry on is one from which nothing is
    extracted, and it leaves an exclusion instruction that lists nothing: the
    text appended is the one for the empty list, and no fragment of that
    answer is in it. *)
Lemma scenario_4_on_the_code :
  (let run := loop ascii_only (scripted [Returned response_1; Returned response_2])
                (py "gpt-4o-mini") (py "gpt-4o-mini") 0 5
                (initial two_messages conversation) in
   snd run = Some (response_1, [formula_1])
   /\ List.length (trace (fst run)) = 1%nat
   /\ contents (heap (fst run)) conversation = [system_prompt; user_prompt]
   /\ str_in (exclusion_text [formula_1]) (content (heap (fst run) 1%nat)) = false)
  /\ (let run := loop ascii_only (scripted [Returned anion_only; Returned response_2])
                   (py "gpt-4o-mini") (py "gpt-4o-mini") 0 1
                   (initial two_messages conversation) in
      snd run = None
      /\ contents (heap (fst run)) conversation
         = [system_prompt;
            extended user_prompt
              (py "Please do not generate batteries in this list [].")]
      /\ str_in (py "PO") (content (heap (fst run) 1%nat)) = false).
Proof.
  vm_compute. repeat split.
Qed.

(** ** The frequency penalty *)

Lemma loop_sends_request (u : char -> bool) (create : nat -> Request -> outcome pystr)
    (model api_model : pystr) (temperature : Q) (fuel : nat) (st : LoopState) :
  trace (fst (loop u create model api_model temperature (S fuel) st)) <> [].
Proof.
  assert (Hstep : forall st0, trace (fst (attempt u create model api_model temperature st0)) <> []).
  { intros st0.
    destruct (attempt_logs u create model api_model temperature st0) as (ev & -> & _).
    intros E. apply app_eq_nil in E. destruct E as [_ E]. discriminate. }
  cbn [loop]. specialize (Hstep st).
  destruct (attempt u create model api_model temperature st) as [st' [result|e]];
    simpl in *.
  - exact Hstep.
  - apply (loop_preserves u create model api_model temperature
             (fun s => trace s <> [])); [|exact Hstep].
    intros s _.
    destruct (attempt_logs u create model api_model temperature s) as (ev & -> & _).
    intros E. apply app_eq_nil in E. destruct E as [_ E]. discriminate.
Qed.

(** The loop passes the penalty exactly when its [model] argument is the
    string "chatgpt_3.5". *)
Lemma loop_penalty (u : char -> bool) (create : nat -> Request -> outcome pystr)
    (model api_model : pystr) (temperature : Q) (fuel : nat) (st : LoopState) :
  let sent :=
    if str_eqb model (py "chatgpt_3.5") then Some (2 # 10) else None in
  Forall (fun ev => req_frequency_penalty (ev_request ev) = sent) (trace st) ->
  Forall (fun ev => req_frequency_penalty (ev_request ev) = sent)
    (trace (fst (loop u create model api_model temperature fuel st))).
Proof.
  cbv zeta. revert st.
  apply (loop_preserves u create model api_model temperature
           (fun s => Forall (fun ev => req_frequency_penalty (ev_request ev) = _)
                       (trace s))).
  intros st H.
  destruct (attempt_logs u create model api_model temperature st)
    as (ev & -> & _ & Hreq & _).
  apply Forall_app. split; [exact H|]. constructor; [|constructor].
  rewrite Hreq. unfold make_request.
  destruct (str_eqb model (py "chatgpt_3.5")); reflexivity.
Qed.

Lemma chatgpt_loop_no_penalty (u : char -> bool) (getenv : pystr -> option pystr)
    (openai : OpenAI) (create : nat -> Request -> outcome pystr) (fuel : nat)
    (h : Heap) (msgs : list ref) (model : pystr) (temperature : Q) :
  str_eqb model (py "chatgpt_3.5") = false ->
  Forall no_penalty
    (trace (fst (optimize_batteries_chatgpt u getenv openai create fuel h msgs
                   model temperature))).
Proof.
  intros Hm. unfold optimize_batteries_chatgpt.
  pose proof (loop_penalty u create model
                (_normalize_model_for_api getenv (_configure_openai_client getenv openai) model)
                temperature fuel (initial h msgs)) as H.
  cbv zeta in H. rewrite Hm in H. apply H. constructor.
Qed.

(** The branch that passes the penalty is taken when the loop itself is given
    the nickname as its [model]. *)
Lemma chatgpt_loop_penalty_branch (u : char -> bool) (getenv : pystr -> option pystr)
    (openai : OpenAI) (create : nat -> Request -> outcome pystr) (fuel : nat)
    (h : Heap) (msgs : list ref) (temperature : Q) :
  Forall (fun ev => req_frequency_penalty (ev_request ev) = Some (2 # 10))
    (trace (fst (optimize_batteries_chatgpt u getenv openai create fuel h msgs
                   (py "chatgpt_3.5") temperature))).
Proof.
  unfold optimize_batteries_chatgpt.
  apply (loop_penalty u create (py "chatgpt_3.5")
           (_normalize_model_for_api getenv (_configure_openai_client getenv openai)
              (py "chatgpt_3.5"))
           temperature fuel (initial h msgs)).
  constructor.
Qed.

(** C9, what the code does.  [optimize_batteries] called with the nickname
    "chatgpt_3.5" runs the provider loop with the model "gpt-3.5-turbo"; the
    loop compares that string with "chatgpt_3.5", so the requests it sends (at
    least one) do not pass the frequency penalty.  No selector makes
    [optimize_batteries] send a request that passes it. *)
Theorem nickname_request_has_no_penalty (u : char -> bool)
    (getenv : pystr -> option pystr) (openai : OpenAI)
    (create : nat -> Request -> outcome pystr) (fuel : nat)
    (h : Heap) (msgs : list ref) (temperature : Q) :
  (exists run,
     optimize_batteries u getenv openai create (S fuel) h msgs (py "chatgpt_3.5")
       temperature = ViaProvider run
     /\ trace (fst run) <> []
     /\ Forall no_penalty (trace (fst run)))
  /\ (forall LLM_type,
        match optimize_batteries u getenv openai create fuel h msgs LLM_type
                temperature with
        | ViaProvider run => Forall no_penalty (trace (fst run))
        | ViaLocalModel => True
        end).
Proof.
  split.
  - eexists. split; [reflexivity|]. split.
    + apply loop_sends_request.
    + apply chatgpt_loop_no_penalty. reflexivity.
  - intros LLM_type. unfold optimize_batteries.
    destruct (str_eqb LLM_type (py "chatgpt_3.5")) eqn:E;
      [apply chatgpt_loop_no_penalty; reflexivity|].
    repeat match goal with
           | |- context [if str_eqb LLM_type ?nick then _ else _] =>
               destruct (str_eqb LLM_type nick);
               [cbv beta iota;
                first [ exact I | apply chatgpt_loop_no_penalty; reflexivity ]|]
           end.
    apply chatgpt_loop_no_penalty. exact E.
Qed.

(** ** Termination against a scripted provider *)

Section Scripted.

Variable u : char -> bool.
Variable model api_model : pystr.
Variable temperature : Q.

(** What a pass returns, by the provider's answer, when the history list is
    empty. *)
Lemma attempt_outcome (create : nat -> Request -> outcome pystr) (st : LoopState) :
  history_battery_list st = [] ->
  match create (List.length (trace st)) (make_request model api_model temperature st) with
  | Returned raw =>
      match parse u raw [] with
      | [] => exists e, snd (attempt u create model api_model temperature st) = Raised e
      | _ :: _ =>
          snd (attempt u create model api_model temperature st)
          = Returned (raw, parse u raw [])
      end
  | Raised e => snd (attempt u create model api_model temperature st) = Raised e
  end.
Proof.
  intros Hh. unfold attempt. rewrite Hh.
  destruct (create _ _) as [raw|e]; [|reflexivity].
  destruct (parse u raw []) eqn:Eparse; [|reflexivity].
  destruct (append_to_last _ _ _); eexists; reflexivity.
Qed.

Lemma scripted_nth (done rest : list (outcome pystr)) (o : outcome pystr)
    (req : Request) :
  scripted (done ++ o :: rest) (List.length done) req = o.
Proof. unfold scripted. apply nth_middle. Qed.

(** Against a script whose entries are retried up to one that carries a
    candidate, the loop is still running after as many passes as entries were
    retried, and with one pass more it returns that entry's text and its
    extraction, having made exactly that many calls. *)
Lemma loop_scripted_from (failed : list (outcome pystr)) :
  forall (done rest : list (outcome pystr)) (st : LoopState) (r : pystr) (extra : nat),
    Forall (retried u) failed ->
    parse u r [] <> [] ->
    history_battery_list st = [] ->
    List.length (trace st) = List.length done ->
    let run := loop u (scripted (done ++ failed ++ Returned r :: rest))
                 model api_model temperature in
    snd (run (List.length failed) st) = None
    /\ snd (run (S (List.length failed) + extra)%nat st) = Some (r, parse u r [])
    /\ List.length (trace (fst (run (S (List.length failed) + extra)%nat st)))
       = S (List.length done + List.length failed).
Proof.
  induction failed as [|o failed IH]; intros done rest st r extra Hf Hr Hh Hlen;
    cbv zeta.
  - simpl app. split; [reflexivity|].
    set (create := scripted (done ++ Returned r :: rest)).
    pose proof (attempt_outcome create st Hh) as Hout.
    destruct (attempt_logs u create model api_model temperature st)
      as (ev & Htr & _).
    rewrite Hlen in Hout. unfold create in Hout at 1. rewrite scripted_nth in Hout.
    destruct (parse u r []) eqn:Eparse; [contradiction|].
    cbn [loop Nat.add List.length].
    destruct (attempt u create model api_model temperature st) as [st1 out].
    simpl in Hout, Htr. rewrite Hout. simpl. rewrite Htr, length_app, Hlen. simpl.
    split; [reflexivity | lia].
  - inversion Hf as [|? ? Ho Hf']; subst.
    set (create := scripted (done ++ (o :: failed) ++ Returned r :: rest)).
    assert (Hraise : exists e,
               snd (attempt u create model api_model temperature st) = Raised e).
    { pose proof (attempt_outcome create st Hh) as Hout.
      rewrite Hlen in Hout. unfold create in Hout at 1.
      simpl app in Hout. rewrite scripted_nth in Hout.
      destruct o as [raw|e]; [|eexists; exact Hout].
      simpl in Ho. rewrite Ho in Hout. exact Hout. }
    destruct Hraise as (e & Hraise).
    destruct (attempt_logs u create model api_model temperature st)
      as (ev & Htr & Hhist & _).
    cbn [List.length].
    change (S (S (List.length failed)) + extra)%nat
      with (S (S (List.length failed) + extra))%nat.
    cbn [loop].
    destruct (attempt u create model api_model temperature st) as [st1 out].
    simpl in Hraise, Htr, Hhist. subst out.
    assert (Hscript : done ++ (o :: failed) ++ Returned r :: rest
                      = (done ++ [o]) ++ failed ++ Returned r :: rest)
      by (rewrite <- app_assoc; reflexivity).
    unfold create. rewrite Hscript.
    assert (Hlen1 : List.length (trace st1) = List.length (done ++ [o]))
      by (rewrite Htr, !length_app, Hlen; reflexivity).
    rewrite Hh in Hhist.
    destruct (IH (done ++ [o]) rest st1 r extra Hf' Hr Hhist Hlen1) as (H1 & H2 & H3).
    split; [exact H1|]. split; [exact H2|].
    rewrite H3, length_app. simpl. lia.
Qed.

End Scripted.

(** X5. Against a script whose entries are retried up to one that carries a
    candidate, the loop entered by [optimize_batteries_chatgpt] is still
    running after as many passes as entries were retried, and with one pass
    more, or any number more, it returns that entry's text and extraction
    after exactly that many calls plus one. *)
Lemma loop_scripted (u : char -> bool) (model api_model : pystr) (temperature : Q)
    (failed rest : list (outcome pystr)) (r : pystr) (h : Heap) (msgs : list ref)
    (extra : nat) :
  Forall (retried u) failed ->
  parse u r [] <> [] ->
  let run := loop u (scripted (failed ++ Returned r :: rest))
               model api_model temperature in
  snd (run (List.length failed) (initial h msgs)) = None
  /\ snd (run (S (List.length failed) + extra)%nat (initial h msgs))
     = Some (r, parse u r [])
  /\ List.length
       (trace (fst (run (S (List.length failed) + extra)%nat (initial h msgs))))
     = S (List.length failed).
Proof.
  intros Hf Hr.
  exact (@loop_scripted_from u model api_model temperature failed [] rest
           (initial h msgs) r extra Hf Hr eq_refl eq_refl).
Qed.

Lemma loop_scripted_witness :
  let run := loop ascii_only
               (scripted ([Raised (ExternalError (py "Timeout")); Returned anion_only]
                          ++ Returned response_1 :: []))
               (py "o1-mini") (py "o1-mini") 0 in
  snd (run 2%nat (initial two_messages conversation)) = None
  /\ snd (run (3 + 4)%nat (initial two_messages conversation))
     = Some (response_1, parse ascii_only response_1 [])
  /\ List.length (trace (fst (run (3 + 4)%nat (initial two_messages conversation))))
     = 3%nat.
Proof.
  apply (@loop_scripted ascii_only (py "o1-mini") (py "o1-mini") 0
           [Raised (ExternalError (py "Timeout")); Returned anion_only] []
           response_1 two_messages conversation 4).
  - repeat constructor.
  - vm_compute. discriminate.
Defined.

(** ** Fuel *)

(** Once the loop has ended within some number of passes, more passes
    change nothing. *)
Lemma loop_fuel_monotone (u : char -> bool)
    (create : nat -> Request -> outcome pystr) (model api_model : pystr)
    (temperature : Q) (fuel extra : nat) (st st' : LoopState)
    (result : pystr * list pystr) :
  loop u create model api_model temperature fuel st = (st', Some result) ->
  loop u create model api_model temperature (fuel + extra) st = (st', Some result).
Proof.
  revert st. induction fuel as [|fuel IH]; intros st; simpl.
  - discriminate.
  - destruct (attempt u create model api_model temperature st) as [st1 [r|e]].
    + intros H. exact H.
    + apply IH.
Qed.

Lemma loop_fuel_monotone_witness :
  loop ascii_only (scripted [Returned anion_only; Returned response_2])
    (py "gpt-4o-mini") (py "gpt-4o-mini") 0 (2 + 5)
    (initial two_messages conversation)
  = loop ascii_only (scripted [Returned anion_only; Returned response_2])
      (py "gpt-4o-mini") (py "gpt-4o-mini") 0 2
      (initial two_messages conversation).
Proof.
  rewrite (surjective_pairing
             (loop ascii_only (scripted [Returned anion_only; Returned response_2])
                (py "gpt-4o-mini") (py "gpt-4o-mini") 0 2
                (initial two_messages conversation))).
  apply (@loop_fuel_monotone ascii_only
           (scripted [Returned anion_only; Returned response_2])
           (py "gpt-4o-mini") (py "gpt-4o-mini") 0 2 5
           (initial two_messages conversation)
           _ (response_2, [py "LiMnPO4"])).
  vm_compute. reflexivity.
Defined.

End GenerationFacts.

(* ===================================================================== *)
(** * Properties of the decision agent                                    *)
(* ===================================================================== *)

Module DecisionFacts.
Import PyStr PyExc Decision.

Lemma fgt_greater (x y : pyfloat) : fgt x y = true <-> greater x y.
Proof.
  destruct x as [a| | |], y as [b| | |]; simpl;
    try (split; [discriminate | contradiction]);
    try (split; [intros _; exact I | reflexivity]).
  rewrite Qlt_alt. destruct (b ?= a)%Q; split; congruence.
Qed.

Lemma fmul_one (x y : pyfloat) : fgt y (fmul x one) = fgt y x.
Proof.
  destruct x as [a| | |]; try reflexivity.
  destruct y as [b| | |]; try reflexivity.
  simpl. rewrite Qmult_1_r. reflexivity.
Qed.

Lemma equal_not_greater (x y : pyfloat) : equal x y -> ~ greater x y.
Proof.
  destruct x as [a| | |], y as [b| | |]; simpl; try tauto.
  intros E L. rewrite E in L. exact (Qlt_irrefl _ L).
Qed.

Lemma valid_task_test (task_id : Z) :
  valid_task task_id -> negb ((task_id =? 101)%Z || (task_id =? 102)%Z) = false.
Proof. intros [-> | ->]; reflexivity. Qed.

Section Agent.

Variable calculate_theoretical_capacity : pystr -> Z -> outcome pyfloat.

Local Abbreviation oracle := calculate_theoretical_capacity.

Lemma decide_one_pair_row (input_formula output_formula : pystr) (task_id : Z)
    (b : pyfloat) :
  valid_task task_id ->
  oracle input_formula task_id = Returned b ->
  decide_one_pair oracle input_formula output_formula task_id
  = Returned (b, capacity (row oracle b task_id output_formula),
              improved (row oracle b task_id output_formula)).
Proof.
  intros Ht Hb. unfold decide_one_pair, row.
  rewrite (valid_task_test Ht), Hb. simpl.
  destruct (oracle output_formula task_id); simpl;
    [rewrite fmul_one|]; reflexivity.
Qed.

Lemma decide_pairs_from_rows (input_formula : pystr) (task_id : Z) (b : pyfloat)
    (output_formula_list : list pystr) (answer_list : list DecisionRecord) :
  valid_task task_id ->
  oracle input_formula task_id = Returned b ->
  decide_pairs_from oracle input_formula output_formula_list task_id answer_list
  = Returned (answer_list ++ List.map (row oracle b task_id) output_formula_list).
Proof.
  intros Ht Hb. revert answer_list.
  induction output_formula_list as [|o rest IH]; intros answer_list; simpl.
  - rewrite app_nil_r. reflexivity.
  - rewrite (decide_one_pair_row o Ht Hb). simpl. rewrite IH, <- app_assoc.
    do 3 f_equal. unfold row. destruct (oracle o task_id); reflexivity.
Qed.

End Agent.

(** C6. With a valid task and an oracle that scores the baseline with [b] and
    the candidate with [c], [decide_one_pair] returns both capacities and a
    verdict that is true exactly when [c] is greater than [b]; for equal
    capacities it is false. *)
Theorem verdict_iff_greater (oracle : pystr -> Z -> outcome pyfloat)
    (input_formula output_formula : pystr) (task_id : Z) (b c : pyfloat) :
  valid_task task_id ->
  oracle input_formula task_id = Returned b ->
  oracle output_formula task_id = Returned c ->
  exists verdict,
    decide_one_pair oracle input_formula output_formula task_id
    = Returned (b, c, verdict)
    /\ (verdict = true <-> greater c b)
    /\ (equal c b \/ c = b -> verdict = false).
Proof.
  intros Ht Hb Hc. exists (fgt c b). split; [|split].
  - rewrite (@decide_one_pair_row oracle input_formula output_formula task_id b Ht Hb).
    unfold row. rewrite Hc. reflexivity.
  - apply fgt_greater.
  - intros He. apply not_true_is_false. rewrite fgt_greater.
    destruct He as [He | ->].
    + apply equal_not_greater. exact He.
    + destruct b as [q| | |]; simpl; try tauto. apply Qlt_irrefl.
Qed.

(** C7. With a valid task and a baseline the oracle scores, a candidate on
    which the oracle raises gets a not-a-number capacity and a false verdict,
    and nothing is raised; [decide_pairs] returns one row per candidate, in
    the order of the input, each row being the one the candidate gets on its
    own. *)
Theorem candidate_fault_recovered (oracle : pystr -> Z -> outcome pyfloat)
    (input_formula : pystr) (task_id : Z) (b : pyfloat) :
  valid_task task_id ->
  oracle input_formula task_id = Returned b ->
  (forall output_formula e,
     oracle output_formula task_id = Raised e ->
     decide_one_pair oracle input_formula output_formula task_id
     = Returned (b, NaN, false))
  /\ (forall output_formula_list,
        exists rows,
          decide_pairs oracle input_formula output_formula_list task_id
          = Returned rows
          /\ List.map candidate rows = output_formula_list
          /\ Forall2 (fun output_formula r =>
                        decide_one_pair oracle input_formula output_formula task_id
                        = Returned (b, capacity r, improved r))
               output_formula_list rows).
Proof.
  intros Ht Hb. split.
  - intros o e Ho. rewrite (@decide_one_pair_row oracle input_formula o task_id b Ht Hb).
    unfold row. rewrite Ho. reflexivity.
  - intros outs. exists (List.map (row oracle b task_id) outs). split; [|split].
    + unfold decide_pairs. rewrite (@decide_pairs_from_rows oracle input_formula task_id b outs [] Ht Hb).
      reflexivity.
    + rewrite map_map. rewrite <- (map_id outs) at 2. apply map_ext.
      intros o. unfold row. destruct (oracle o task_id); reflexivity.
    + induction outs as [|o outs IH]; simpl; constructor; [|exact IH].
      apply decide_one_pair_row; assumption.
Qed.

Lemma verdict_iff_greater_witness :
  exists verdict,
    decide_one_pair Scenario.oracle (py "LiFePO4") (py "LiMnPO4") 101
    = Returned (Num 170, Num 171, verdict)
    /\ (verdict = true <-> greater (Num 171) (Num 170))
    /\ (equal (Num 171) (Num 170) \/ Num 171 = Num 170 -> verdict = false).
Proof.
  apply (@verdict_iff_greater Scenario.oracle (py "LiFePO4") (py "LiMnPO4") 101
           (Num 170) (Num 171)).
  - left. reflexivity.
  - reflexivity.
  - reflexivity.
Defined.

Lemma candidate_fault_recovered_witness :
  exists rows,
    decide_pairs Scenario.oracle (py "LiFePO4") [py "LiMnPO4"; py "$PO_4"; py "LiFePO4"] 101
    = Returned rows
    /\ List.map candidate rows = [py "LiMnPO4"; py "$PO_4"; py "LiFePO4"]
    /\ Forall2 (fun output_formula r =>
                  decide_one_pair Scenario.oracle (py "LiFePO4") output_formula 101
                  = Returned (Num 170, capacity r, improved r))
         [py "LiMnPO4"; py "$PO_4"; py "LiFePO4"] rows.
Proof.
  apply (proj2 (@candidate_fault_recovered Scenario.oracle (py "LiFePO4") 101 (Num 170)
                  (or_introl eq_refl) eq_refl)).
Defined.

(** ** The faults that are not recovered *)

(** A task selector other than 101 and 102 is reported at once, and a
    fault of the oracle on the baseline reaches the caller. *)
Lemma decide_one_pair_raises (oracle : pystr -> Z -> outcome pyfloat)
    (input_formula output_formula : pystr) (task_id : Z) :
  (~ valid_task task_id ->
   decide_one_pair oracle input_formula output_formula task_id
   = Raised (NotImplementedError task_id))
  /\ (forall e, valid_task task_id ->
                oracle input_formula task_id = Raised e ->
                decide_one_pair oracle input_formula output_formula task_id
                = Raised e).
Proof.
  unfold decide_one_pair, valid_task. split.
  - intros H.
    destruct (task_id =? 101)%Z eqn:E1; [apply Z.eqb_eq in E1; tauto|].
    destruct (task_id =? 102)%Z eqn:E2; [apply Z.eqb_eq in E2; tauto|].
    reflexivity.
  - intros e Ht He. rewrite (valid_task_test Ht), He. reflexivity.
Qed.

Lemma decide_one_pair_raises_witness :
  decide_one_pair Scenario.oracle (py "LiFePO4") (py "LiMnPO4") 103
  = Raised (NotImplementedError 103)
  /\ decide_one_pair Scenario.oracle (py "$PO_4") (py "LiMnPO4") 101
     = Raised (ExternalError (py "ValueError")).
Proof.
  split.
  - apply (proj1 (decide_one_pair_raises Scenario.oracle (py "LiFePO4")
                    (py "LiMnPO4") 103)).
    unfold valid_task. intros [H | H]; discriminate.
  - apply (proj2 (decide_one_pair_raises Scenario.oracle (py "$PO_4")
                    (py "LiMnPO4") 101)).
    + left. reflexivity.
    + reflexivity.
Defined.

End DecisionFacts.

(* ===================================================================== *)
(** * Properties of the search agent                                      *)
(* ===================================================================== *)

Module SearchFacts.
Import PyStr PyExc Search.

Section Agent.

Variable docs : Type.
Variable api : MPApi docs.
Variable getenv : pystr -> option pystr.

Local Abbreviation key := (MP_api_key getenv).

(** Once the client library is imported, [MP_search] returns: the answer of
    the [try] body, or [False] in its place. *)
Lemma MP_search_returns (formula : pystr) :
  import_MPRester api = Returned tt ->
  MP_search api getenv formula
  = Returned match MP_search_body api getenv formula with
             | Returned answer => answer
             | Raised _ => false
             end.
Proof.
  intros Hi. unfold MP_search. rewrite Hi. simpl.
  destruct (MP_search_body api getenv formula); reflexivity.
Qed.

(** The [try] body returns [True] only after a search that went through and
    found something. *)
Lemma MP_search_body_true (formula : pystr) :
  MP_search_body api getenv formula = Returned true <->
  open_client api key = Returned tt
  /\ (exists found, summary_search api formula = Returned found
                    /\ (1 <= List.length found)%nat)
  /\ (exists b, close_client api None = Returned b).
Proof.
  unfold MP_search_body, lookup.
  destruct (open_client api key) as [[]|e0]; cbn [bind].
  2:{ split; [discriminate | intros [E _]; discriminate]. }
  destruct (summary_search api formula) as [found|e1]; cbn [bind].
  - destruct (close_client api None) as [b|e2]; cbn [bind].
    + split.
      * intros E.
        assert (E' : (1 <=? List.length found)%nat = true) by congruence.
        apply Nat.leb_le in E'. repeat split; eauto.
      * intros (_ & (found' & [= <-] & Hlen) & _).
        apply Nat.leb_le in Hlen. rewrite Hlen. reflexivity.
    + split; [discriminate | intros (_ & _ & (b & E)); discriminate].
  - split.
    + destruct (close_client api (Some e1)) as [[|]|e2]; discriminate.
    + intros (_ & (found & E & _) & _). discriminate.
Qed.

End Agent.

(** X25. In a call that gets to the lookup (the client library imported),
    [MP_search] returns and does not raise.  It returns [False] whenever a
    step of the lookup raises: opening the client, the search, or closing the
    client.  It returns [True] exactly when the client opened, the search
    returned at least one record, and the client closed. *)
Theorem MP_search_recovers (docs : Type) (api : MPApi docs)
    (getenv : pystr -> option pystr) (formula : pystr) :
  import_MPRester api = Returned tt ->
  (exists answer, MP_search api getenv formula = Returned answer)
  /\ (forall e,
        open_client api (MP_api_key getenv) = Raised e
        \/ summary_search api formula = Raised e
        \/ close_client api None = Raised e ->
        MP_search api getenv formula = Returned false)
  /\ (MP_search api getenv formula = Returned true <->
      open_client api (MP_api_key getenv) = Returned tt
      /\ (exists found, summary_search api formula = Returned found
                        /\ (1 <= List.length found)%nat)
      /\ (exists b, close_client api None = Returned b)).
Proof.
  intros Hi. rewrite (MP_search_returns api getenv formula Hi).
  split; [eexists; reflexivity | split].
  - intros e H. f_equal.
    destruct (MP_search_body api getenv formula) as [[|]|e'] eqn:E; try reflexivity.
    apply MP_search_body_true in E.
    destruct E as (Ho & (found & Hs & _) & (b & Hc)).
    destruct H as [H | [H | H]]; congruence.
  - rewrite <- MP_search_body_true.
    destruct (MP_search_body api getenv formula) as [[|]|e'];
      split; congruence.
Qed.

Lemma MP_search_recovers_witness :
  (exists answer,
     MP_search Scenario.database Scenario.no_environment (py "LiCoO2") = Returned answer)
  /\ (forall e,
        open_client Scenario.database (MP_api_key Scenario.no_environment) = Raised e
        \/ summary_search Scenario.database (py "LiCoO2") = Raised e
        \/ close_client Scenario.database None = Raised e ->
        MP_search Scenario.database Scenario.no_environment (py "LiCoO2") = Returned false)
  /\ (MP_search Scenario.database Scenario.no_environment (py "LiCoO2") = Returned true <->
      open_client Scenario.database (MP_api_key Scenario.no_environment) = Returned tt
      /\ (exists found, summary_search Scenario.database (py "LiCoO2") = Returned found
                        /\ (1 <= List.length found)%nat)
      /\ (exists b, close_client Scenario.database None = Returned b)).
Proof.
  apply (@MP_search_recovers nat Scenario.database Scenario.no_environment (py "LiCoO2")).
  reflexivity.
Defined.

(** The toy database at work: a formula it holds, and one whose search
    raises. *)
Example MP_search_toy :
  MP_search Scenario.database Scenario.no_environment (py "LiFePO4") = Returned true
  /\ MP_search Scenario.database Scenario.no_environment (py "LiCoO2") = Returned false.
Proof. split; reflexivity. Qed.

(** The import of the client library is outside the [try]: when it
    raises, so does [MP_search]. *)
Lemma MP_search_import_raises (docs : Type) (api : MPApi docs)
    (getenv : pystr -> option pystr) (formula : pystr) (e : exn) :
  import_MPRester api = Raised e -> MP_search api getenv formula = Raised e.
Proof. intros Hi. unfold MP_search. rewrite Hi. reflexivity. Qed.

Lemma MP_search_import_raises_witness :
  MP_search
    {| import_MPRester := Raised (ExternalError (py "ModuleNotFoundError"));
       open_client := open_client Scenario.database;
       summary_search := summary_search Scenario.database;
       close_client := close_client Scenario.database |}
    Scenario.no_environment (py "LiFePO4")
  = Raised (ExternalError (py "ModuleNotFoundError")).
Proof.
  apply (@MP_search_import_raises nat _ Scenario.no_environment (py "LiFePO4")
           (ExternalError (py "ModuleNotFoundError"))).
  reflexivity.
Defined.

End SearchFacts.

(* ===================================================================== *)
(** * [parse], line by line                                               *)
(* ===================================================================== *)

Module ParseLines.
Import PyStr Extract PyStrFacts ExtractFacts.
Local Open Scope N_scope.

Lemma split_nonempty (sep : char) (s : pystr) : split sep s <> [].
Proof.
  destruct s as [|c s]; simpl; [discriminate|].
  destruct (c =? sep); [discriminate|]. destruct (split sep s); discriminate.
Qed.

Lemma split_app (sep : char) (a b : pystr) :
  split sep (a ++ sep :: b) = split sep a ++ split sep b.
Proof.
  induction a as [|c a IH]; cbn [app split].
  - rewrite N.eqb_refl. reflexivity.
  - rewrite IH. destruct (c =? sep); [reflexivity|].
    destruct (split sep a) as [|f fs] eqn:E; [|reflexivity].
    exfalso. exact (split_nonempty sep a E).
Qed.

Lemma split_snoc (sep c : char) (s : pystr) :
  (c =? sep) = false ->
  exists init last,
    split sep s = init ++ [last] /\ split sep (s ++ [c]) = init ++ [last ++ [c]].
Proof.
  intros Hc. induction s as [|x s (init & last & E1 & E2)]; cbn [app split].
  - rewrite Hc. exists [], []. split; reflexivity.
  - rewrite E1, E2. destruct (x =? sep).
    + exists ([] :: init), last. split; reflexivity.
    + destruct init as [|i init]; cbn [app].
      * exists [], (x :: last). split; reflexivity.
      * exists ((x :: i) :: init), last. split; reflexivity.
Qed.

Lemma strip_cons_space (c : char) (l : pystr) :
  is_space c = true -> strip (c :: l) = strip l.
Proof.
  intros Hc. unfold strip, strip_by, lstrip_by. cbn [drop_while]. rewrite Hc.
  reflexivity.
Qed.

Lemma drop_while_snoc (p : char -> bool) (l : pystr) (c : char) :
  p c = true ->
  drop_while p (l ++ [c])
  = match drop_while p l with [] => [] | d => d ++ [c] end.
Proof.
  intros Hc. induction l as [|x l IH]; cbn [app drop_while].
  - rewrite Hc. reflexivity.
  - destruct (p x); [exact IH | reflexivity].
Qed.

Lemma strip_snoc_space (c : char) (l : pystr) :
  is_space c = true -> strip (l ++ [c]) = strip l.
Proof.
  intros Hc. unfold strip, strip_by, lstrip_by, rstrip_by.
  rewrite (@drop_while_snoc is_space l c Hc).
  destruct (drop_while is_space l) as [|x d]; [reflexivity|].
  rewrite rev_app_distr. cbn [rev app drop_while]. rewrite Hc. reflexivity.
Qed.

Section Lines.

Variable u : char -> bool.
Variable history : list pystr.

Local Abbreviation scan := (fold_left (parse_line u history)).

(** A line counts by what [strip] leaves of it. *)
Lemma parse_line_strip (record : list pystr) (l l' : pystr) :
  strip l = strip l' ->
  parse_line u history record l = parse_line u history record l'.
Proof. intros H. unfold parse_line. rewrite H. reflexivity. Qed.

Lemma parse_line_blank (record : list pystr) :
  parse_line u history record [] = record.
Proof. reflexivity. Qed.

Lemma scan_cons_space (c : char) (s : pystr) (record : list pystr) :
  is_space c = true ->
  scan (split LF (c :: s)) record = scan (split LF s) record.
Proof.
  intros Hc. cbn [split]. destruct (c =? LF).
  - cbn [fold_left]. rewrite parse_line_blank. reflexivity.
  - destruct (split LF s) as [|f fs] eqn:E.
    + exfalso. exact (split_nonempty LF s E).
    + cbn [fold_left].
      rewrite (@parse_line_strip record (c :: f) f (@strip_cons_space c f Hc)).
      reflexivity.
Qed.

Lemma scan_snoc_space (c : char) (s : pystr) (record : list pystr) :
  is_space c = true ->
  scan (split LF (s ++ [c])) record = scan (split LF s) record.
Proof.
  intros Hc. destruct (c =? LF) eqn:E.
  - apply N.eqb_eq in E. subst c. rewrite split_app, fold_left_app.
    cbn [split fold_left]. apply parse_line_blank.
  - destruct (@split_snoc LF c s E) as (init & last & -> & ->).
    rewrite !fold_left_app. cbn [fold_left].
    apply parse_line_strip. apply strip_snoc_space. exact Hc.
Qed.

Lemma scan_lstrip (s : pystr) (record : list pystr) :
  scan (split LF (drop_while is_space s)) record = scan (split LF s) record.
Proof.
  induction s as [|c s IH]; [reflexivity|]. cbn [drop_while].
  destruct (is_space c) eqn:Hc; [|reflexivity].
  rewrite IH. symmetry. apply scan_cons_space. exact Hc.
Qed.

Lemma scan_rstrip (s : pystr) (record : list pystr) :
  scan (split LF (rstrip_by is_space s)) record = scan (split LF s) record.
Proof.
  unfold rstrip_by. rewrite <- (rev_involutive s) at 2.
  induction (rev s) as [|c t IH]; [reflexivity|]. cbn [drop_while rev].
  destruct (is_space c) eqn:Hc; [|reflexivity].
  rewrite IH. symmetry. apply scan_snoc_space. exact Hc.
Qed.

(** [parse] reads the lines of the text as it stands: stripping the whole
    text first changes nothing, since every line is stripped again and a blank
    line is passed over. *)
Lemma parse_lines (raw_text : pystr) :
  parse u raw_text history = scan (split LF raw_text) [].
Proof.
  unfold parse, strip, strip_by, lstrip_by.
  rewrite scan_rstrip. apply scan_lstrip.
Qed.

Lemma parse_segment_after (found record : list pystr) (seg : pystr) :
  parse_segment history (found ++ novel found record) seg
  = found ++ novel found (parse_segment history record seg).
Proof.
  unfold parse_segment.
  destruct (_clean_formula_candidate seg) as [|c0 cand] eqn:Ecand; [reflexivity|].
  rewrite <- Ecand. set (c := _clean_formula_candidate seg).
  destruct (negb (str_in (py "Li") c) && negb (str_in (py "Na") c)); [reflexivity|].
  destruct (List.length (re_findall element_token c) <? 2)%nat; [reflexivity|].
  destruct (list_in c history); [reflexivity|].
  unfold list_in at 1. rewrite existsb_app. fold (list_in c found).
  fold (list_in c (novel found record)).
  destruct (list_in c found) eqn:Ef; cbn [orb negb].
  - destruct (list_in c record); cbn [negb]; [reflexivity|].
    unfold novel. rewrite filter_app. cbn [filter]. fold (list_in c found).
    rewrite Ef. cbn [negb]. rewrite app_nil_r. reflexivity.
  - rewrite (@list_in_novel found record c Ef).
    destruct (list_in c record); cbn [negb]; [reflexivity|].
    unfold novel. rewrite filter_app. cbn [filter]. fold (list_in c found).
    rewrite Ef. cbn [negb]. rewrite app_assoc. reflexivity.
Qed.

Lemma fold_after (A : Type) (f : list pystr -> A -> list pystr)
    (found : list pystr) (l : list A) (record : list pystr) :
  (forall r x, f (found ++ novel found r) x = found ++ novel found (f r x)) ->
  fold_left f l (found ++ novel found record)
  = found ++ novel found (fold_left f l record).
Proof.
  intros H. revert record. induction l as [|x l IH]; intros record; simpl.
  - reflexivity.
  - rewrite H. apply IH.
Qed.

Lemma parse_line_after (found record : list pystr) (line : pystr) :
  parse_line u history (found ++ novel found record) line
  = found ++ novel found (parse_line u history record line).
Proof.
  unfold parse_line.
  destruct (strip line); [reflexivity|]. cbv zeta.
  destruct (negb _); [reflexivity|].
  destruct (search_reasoning _ _); [reflexivity|].
  destruct (strip (lstrip_by _ _)); [reflexivity|].
  apply fold_after. intros r seg. apply parse_segment_after.
Qed.

End Lines.

(** X7. Extraction composes over the lines of a text.  For two texts joined
    by a line break, [parse] returns the candidates of the first text followed
    by those candidates of the second text that the first text did not already
    give, whatever the history list. *)
Theorem parse_two_blocks (u : char -> bool) (first second : pystr)
    (history : list pystr) :
  parse u (first ++ [LF] ++ second) history
  = parse u first history
    ++ novel (parse u first history) (parse u second history).
Proof.
  rewrite !parse_lines. cbn [app]. rewrite split_app, fold_left_app.
  set (found := fold_left (parse_line u history) (split LF first) []).
  rewrite <- (app_nil_r found) at 1.
  change (@nil pystr) with (novel found []) at 1.
  apply fold_after. intros r line. apply parse_line_after.
Qed.

Lemma split_single (sep : char) (line : pystr) :
  ~ In sep line -> split sep line = [line].
Proof.
  induction line as [|c line IH]; intros H; cbn [split]; [reflexivity|].
  destruct (c =? sep) eqn:E.
  - apply N.eqb_eq in E. exfalso. apply H. left. exact E.
  - rewrite IH; [reflexivity|]. intros Hin. apply H. right. exact Hin.
Qed.

Lemma parse_line_passed (u : char -> bool) (history record : list pystr)
    (line : pystr) :
  startswith (py "*") (bullet_text line) = false
  \/ search_reasoning u (bullet_text line) = true ->
  parse_line u history record line = record.
Proof.
  unfold bullet_text, parse_line. cbv zeta.
  destruct (strip line) as [|c l]; [reflexivity|].
  intros [H | H]; [rewrite H; reflexivity|].
  destruct (negb _); [reflexivity|]. rewrite H. reflexivity.
Qed.

(** X1. [parse] passes over a line that, stripped and without the role
    marker, does not start with "*" (a blank line among them) or is matched by
    the reasoning pattern: taking such a line out of the text leaves the
    extraction as it is, whatever formula the line holds. *)
Theorem parse_ignores_line (u : char -> bool) (first line second : pystr)
    (history : list pystr) :
  ~ In LF line ->
  startswith (py "*") (bullet_text line) = false
  \/ search_reasoning u (bullet_text line) = true ->
  parse u (first ++ [LF] ++ line ++ [LF] ++ second) history
  = parse u (first ++ [LF] ++ second) history.
Proof.
  intros Hline Hpassed. rewrite !parse_lines. cbn [app].
  rewrite !split_app, (@split_single LF line Hline), !fold_left_app. cbn [fold_left].
  rewrite (@parse_line_passed u history _ line Hpassed). reflexivity.
Qed.

Lemma parse_ignores_line_witness :
  parse Scenario.ascii_only
    (Scenario.response_2 ++ [LF] ++ Scenario.reasoning_bullet ++ [LF]
     ++ Scenario.formula_bullet) []
  = parse Scenario.ascii_only
      (Scenario.response_2 ++ [LF] ++ Scenario.formula_bullet) [].
Proof.
  apply (@parse_ignores_line Scenario.ascii_only Scenario.response_2
           Scenario.reasoning_bullet Scenario.formula_bullet []).
  - intros H. vm_compute in H. repeat (destruct H as [H | H]; [discriminate|]).
    exact H.
  - right. reflexivity.
Defined.

End ParseLines.

(* ===================================================================== *)
(** * The client settings, ranking, and the locally loaded model          *)
(* ===================================================================== *)

Module AgentFacts.
Import PyStr PyStrFacts PyExc Extract Generation Ranking OpenSource Scenario
  GenerationFacts.
Local Open Scope N_scope.

(** ** Model ids *)

Lemma endswith_spec (p s : pystr) :
  endswith p s = true <-> exists pre, s = pre ++ p.
Proof.
  unfold endswith. rewrite startswith_spec. split.
  - intros (post & E). exists (rev post).
    rewrite <- (rev_involutive s), E, rev_app_distr, rev_involutive. reflexivity.
  - intros (pre & ->). exists (rev pre). apply rev_app_distr.
Qed.

Lemma str_in_app_l (p a b : pystr) :
  str_in p a = true -> str_in p (a ++ b) = true.
Proof.
  rewrite !str_in_spec. intros (pre & post & ->). exists pre, (post ++ b).
  rewrite <- !app_assoc. reflexivity.
Qed.

(** The prefix [_normalize_model_for_api] puts in front of a model id. *)
Lemma normalized_prefix (getenv : pystr -> option pystr) (openai : OpenAI)
    (model : pystr) :
  exists prefix,
    _normalize_model_for_api getenv openai model = prefix ++ model
    /\ (prefix = [] \/ endswith (py "/") prefix = true).
Proof.
  unfold _normalize_model_for_api.
  destruct (_is_openrouter_base (api_base openai) && negb (str_in (py "/") model));
    [|exists []; split; [reflexivity | left; reflexivity]].
  cbv zeta.
  destruct (strip _) as [|c p] eqn:E.
  - exists []. split; [reflexivity | left; reflexivity].
  - destruct (endswith (py "/") (c :: p)) eqn:Eend; cbn [negb].
    + exists (c :: p). split; [reflexivity | right; exact Eend].
    + exists ((c :: p) ++ py "/"). split; [reflexivity | right].
      apply endswith_spec. exists (c :: p). reflexivity.
Qed.

(** X16. [_normalize_model_for_api] puts at most a prefix in front of the
    model id; a prefix it adds ends with "/", so that the id it returns is one
    it leaves alone: applying it twice is applying it once. *)
Theorem normalize_model_idempotent (getenv : pystr -> option pystr)
    (openai : OpenAI) (model : pystr) :
  let api_model := _normalize_model_for_api getenv openai model in
  _normalize_model_for_api getenv openai api_model = api_model
  /\ exists prefix,
       api_model = prefix ++ model
       /\ (prefix = [] \/ endswith (py "/") prefix = true).
Proof.
  cbv zeta. split; [|apply normalized_prefix].
  destruct (normalized_prefix getenv openai model) as (prefix & E & [-> | Hend]).
  - cbn [app] in E. rewrite E. exact E.
  - rewrite E. unfold _normalize_model_for_api at 1.
    replace (str_in (py "/") (prefix ++ model)) with true.
    + rewrite andb_false_r. reflexivity.
    + symmetry. apply str_in_app_l. apply str_in_spec.
      apply endswith_spec in Hend. destruct Hend as (pre & ->).
      exists pre, []. rewrite app_nil_r. reflexivity.
Qed.

(** ** The client settings *)

Lemma drop_while_head (p : char -> bool) (s : pystr) :
  match drop_while p s with
  | [] => True
  | c :: _ => p c = false
  end.
Proof.
  induction s as [|c s IH]; cbn [drop_while]; [exact I|].
  destruct (p c) eqn:E; [exact IH | exact E].
Qed.

Lemma rstrip_by_char (c : char) (s : pystr) :
  endswith [c] (rstrip_by (N.eqb c) s) = false.
Proof.
  unfold endswith, rstrip_by. rewrite rev_involutive. cbn [rev app].
  pose proof (drop_while_head (N.eqb c) (rev s)) as H.
  destruct (drop_while (N.eqb c) (rev s)) as [|x r]; [reflexivity|].
  cbn [startswith]. rewrite H. reflexivity.
Qed.

(** The base address the environment asks for. *)
Local Abbreviation env_base getenv :=
  (por (getenv (py "OPENAI_API_BASE"))
     (por (getenv (py "OPENAI_BASE_URL"))
        (por (getenv (py "OPENROUTER_API_BASE"))
           (getenv (py "OPENROUTER_BASE_URL"))))).

(** X12. When one of the four base variables is set and not empty,
    [_configure_openai_client] takes the base from the first such variable, in
    the order of the source, whatever the client held and whether or not an
    OpenRouter key is set; the base it stores has no "/" at its end.  Calling
    it again changes nothing. *)
Theorem configured_base (getenv : pystr -> option pystr) (openai : OpenAI)
    (base : pystr) :
  env_base getenv = Some base -> base <> [] ->
  let configured := _configure_openai_client getenv openai in
  api_base configured = rstrip_by (N.eqb 47) base
  /\ endswith (py "/") (api_base configured) = false
  /\ _configure_openai_client getenv configured = configured.
Proof.
  intros Hbase Hne. cbv zeta.
  assert (E : api_base (_configure_openai_client getenv openai)
              = rstrip_by (N.eqb 47) base).
  { unfold _configure_openai_client. rewrite Hbase.
    destruct base as [|c b]; [contradiction|].
    destruct (truthy _ && negb _); reflexivity. }
  split; [exact E|]. split.
  - rewrite E. apply rstrip_by_char.
  - unfold _configure_openai_client. rewrite Hbase.
    destruct base as [|c b]; [contradiction|].
    destruct (truthy _ && negb _); reflexivity.
Qed.

Lemma configured_base_witness :
  let getenv := fun name =>
    if str_eqb name (py "OPENAI_BASE_URL") then Some (py "https://openrouter.ai/api/v1//")
    else if str_eqb name (py "OPENROUTER_API_KEY") then Some (py "sk-or")
    else None in
  let openai := {| api_base := py "https://api.openai.com/v1"; api_key := None |} in
  let configured := _configure_openai_client getenv openai in
  api_base configured = rstrip_by (N.eqb 47) (py "https://openrouter.ai/api/v1//")
  /\ endswith (py "/") (api_base configured) = false
  /\ _configure_openai_client getenv configured = configured.
Proof.
  cbv zeta.
  apply (@configured_base _ _ (py "https://openrouter.ai/api/v1//"));
    [reflexivity | discriminate].
Defined.

(** Without a base in the environment the client keeps its base, unless an
    OpenRouter key is set; and the second call finds what the first left. *)
Lemma configure_idempotent (getenv : pystr -> option pystr) (openai : OpenAI) :
  _configure_openai_client getenv (_configure_openai_client getenv openai)
  = _configure_openai_client getenv openai.
Proof.
  unfold _configure_openai_client.
  destruct (env_base getenv) as [[|c b]|];
    destruct (truthy (getenv (py "OPENROUTER_API_KEY")));
    destruct (truthy (getenv (py "OPENAI_API_KEY")));
    destruct openai; reflexivity.
Qed.

(** ** Ranking *)






(** ** A provider that never gives a new candidate *)

Lemma loop_retried_from (u : char -> bool) (create : nat -> Request -> outcome pystr)
    (model api_model : pystr) (temperature : Q) :
  (forall k request, retried u (create k request)) ->
  forall fuel st,
    history_battery_list st = [] ->
    snd (loop u create model api_model temperature fuel st) = None
    /\ List.length (trace (fst (loop u create model api_model temperature fuel st)))
       = (List.length (trace st) + fuel)%nat.
Proof.
  intros Hall. induction fuel as [|fuel IH]; intros st Hh; cbn [loop].
  - cbn [fst snd]. rewrite Nat.add_0_r. split; reflexivity.
  - pose proof (@attempt_outcome u model api_model temperature create st Hh) as Hout.
    pose proof (Hall (List.length (trace st))
                  (make_request model api_model temperature st)) as Hre.
    destruct (attempt_logs u create model api_model temperature st)
      as (ev & Htr & Hhist & _).
    destruct (attempt u create model api_model temperature st) as [st' o] eqn:Eatt.
    cbn [fst snd] in *.
    assert (Hraised : exists e, o = Raised e).
    { destruct (create _ _) as [raw|e].
      - cbn [retried] in Hre. rewrite Hre in Hout. exact Hout.
      - exists e. exact Hout. }
    destruct Hraised as [e ->].
    destruct (IH st') as [Hnone Hlen]; [congruence|].
    split; [exact Hnone|]. rewrite Hlen, Htr, length_app. cbn [List.length]. lia.
Qed.

(** X9. The loop has no bound on its passes.  Against a provider whose every
    answer is a fault or a text from which nothing is extracted,
    [optimize_batteries_chatgpt] has not returned after any number of passes,
    and has made one call in each. *)
Theorem loop_never_returns (u : char -> bool) (getenv : pystr -> option pystr)
    (openai : OpenAI) (create : nat -> Request -> outcome pystr) (h : Heap)
    (msgs : list ref) (model : pystr) (temperature : Q) (fuel : nat) :
  (forall k request, retried u (create k request)) ->
  let run := optimize_batteries_chatgpt u getenv openai create fuel h msgs model
               temperature in
  snd run = None /\ List.length (trace (fst run)) = fuel.
Proof.
  intros Hall. cbv zeta. unfold optimize_batteries_chatgpt.
  apply (@loop_retried_from u create model
           (_normalize_model_for_api getenv (_configure_openai_client getenv openai) model)
           temperature Hall fuel
           {| messages := msgs; heap := h; history_battery_list := []; trace := [] |}).
  reflexivity.
Qed.

Lemma loop_never_returns_witness :
  let run := optimize_batteries_chatgpt ascii_only no_environment
               {| api_base := py "https://api.openai.com/v1"; api_key := None |}
               (fun _ _ => Returned anion_only) 5%nat two_messages conversation
               (py "gpt-4o-mini") 0 in
  snd run = None /\ List.length (trace (fst run)) = 5%nat.
Proof.
  cbv zeta.
  apply (@loop_never_returns ascii_only no_environment
           {| api_base := py "https://api.openai.com/v1"; api_key := None |}
           (fun _ _ => Returned anion_only) two_messages conversation
           (py "gpt-4o-mini") 0 5%nat).
  intros k request. reflexivity.
Defined.

(** ** The locally loaded model *)

Section Local.

Variable u : char -> bool.
Variable tokens : Type.
Variable generate : nat -> tokens -> outcome pystr.
Variable inputs : tokens.
Variable h : Heap.
Variable earlier : list ref.
Variable r : ref.

Local Abbreviation written st :=
  (List.concat (repeat (exclusion_text []) (local_exclusions (l_trace st)))).

Local Abbreviation local_invariant st :=
  (l_history st = []
   /\ Forall (fun ev => le_inputs ev = inputs) (l_trace st)
   /\ appended h (l_heap st) r (written st)).

Lemma local_exclusions_snoc (tr : list (LocalEvent tokens)) (ev : LocalEvent tokens) :
  local_exclusions (tr ++ [ev])
  = (local_exclusions tr + match le_excluded ev with Some _ => 1 | None => 0 end)%nat.
Proof.
  unfold local_exclusions. rewrite filter_app, length_app. simpl.
  destruct (le_excluded ev); reflexivity.
Qed.

Lemma local_attempt_keeps (st : LocalState tokens) :
  local_invariant st ->
  local_invariant (fst (local_attempt u generate (earlier ++ [r]) inputs st)).
Proof.
  intros (Hh & Hin & Happ). unfold local_attempt.
  destruct (generate _ _) as [raw|e]; cbn [fst l_history l_trace l_heap].
  - rewrite Hh. destruct (parse u raw []) eqn:Eparse.
    + rewrite append_to_last_snoc. cbn [fst l_history l_trace l_heap].
      rewrite local_exclusions_snoc. cbn [le_excluded].
      split; [reflexivity|]. split.
      * apply Forall_app. split; [exact Hin|]. constructor; [reflexivity|constructor].
      * rewrite Nat.add_1_r. cbn [repeat List.concat].
        rewrite <- concat_repeat_comm. apply appended_more. exact Happ.
    + cbn [fst l_history l_trace l_heap].
      rewrite local_exclusions_snoc. cbn [le_excluded]. rewrite Nat.add_0_r.
      split; [reflexivity|]. split; [|exact Happ].
      apply Forall_app. split; [exact Hin|]. constructor; [reflexivity|constructor].
  - rewrite local_exclusions_snoc. cbn [le_excluded]. rewrite Nat.add_0_r.
    split; [exact Hh|]. split; [|exact Happ].
    apply Forall_app. split; [exact Hin|]. constructor; [reflexivity|constructor].
Qed.

Lemma local_loop_keeps (fuel : nat) (st : LocalState tokens) :
  local_invariant st ->
  local_invariant (fst (local_loop u generate fuel (earlier ++ [r]) inputs st)).
Proof.
  revert st. induction fuel as [|fuel IH]; intros st Hst; cbn [local_loop].
  - exact Hst.
  - pose proof (@local_attempt_keeps st Hst) as Hstep.
    destruct (local_attempt u generate (earlier ++ [r]) inputs st)
      as [st' [result|e]]; cbn [fst] in *.
    + exact Hstep.
    + apply IH. exact Hstep.
Qed.

End Local.

(** X14. [optimize_batteries_open_source] builds and encodes its prompt once,
    from the conversation (here one with a trailing message) as it is at the
    call.  A fault of the tokenizer
    leaves the function.  Otherwise every pass gives the model these same
    inputs, while the exclusion instruction of each pass that found no
    candidate is appended to the trailing message: what the loop writes to
    the conversation is never read by the model. *)
Theorem local_model_reads_entry_prompt (u : char -> bool) (tokens : Type)
    (tokenizer : pystr -> outcome tokens)
    (generate : nat -> tokens -> outcome pystr) (fuel : nat) (h : Heap)
    (earlier : list ref) (r : ref) :
  let messages := earlier ++ [r] in
  match tokenizer (input_text_of (contents h messages)) with
  | Raised e =>
      optimize_batteries_open_source u tokenizer generate fuel h messages = Raised e
  | Returned inputs =>
      exists st result,
        optimize_batteries_open_source u tokenizer generate fuel h messages
        = Returned (st, result)
        /\ Forall (fun ev => le_inputs ev = inputs) (l_trace st)
        /\ appended h (l_heap st) r
             (List.concat (repeat (exclusion_text []) (local_exclusions (l_trace st))))
  end.
Proof.
  cbv zeta. unfold optimize_batteries_open_source.
  destruct (tokenizer _) as [inputs|e]; cbn [bind]; [|reflexivity].
  set (st0 := {| l_heap := h; l_history := []; l_trace := [] |}).
  pose proof (@local_loop_keeps u tokens generate inputs h earlier r fuel st0) as H.
  destruct (local_loop u generate fuel (earlier ++ [r]) inputs st0) as [st result].
  exists st, result. split; [reflexivity|].
  destruct H as (_ & Hin & Happ).
  - split; [reflexivity|]. split; [constructor | apply appended_nothing].
  - split; [exact Hin | exact Happ].
Qed.

End AgentFacts.

(* ===================================================================== *)
(** * The searches                                                        *)
(* ===================================================================== *)

Module LookupFacts.
Import PyStr PyExc Search Icsd SearchFacts.

(** X10. [MP_search] raises exactly when the import of the client library
    raises, and then with that exception: the import stands outside the
    [try], and everything behind it is answered with a boolean. *)
Theorem MP_search_raises_iff (docs : Type) (api : MPApi docs)
    (getenv : pystr -> option pystr) (formula : pystr) (e : exn) :
  MP_search api getenv formula = Raised e <-> import_MPRester api = Raised e.
Proof.
  destruct (import_MPRester api) as [[]|e'] eqn:Hi.
  - rewrite (MP_search_returns api getenv formula Hi). split; discriminate.
  - unfold MP_search. rewrite Hi. cbn [bind]. split; congruence.
Qed.

Section Agent.

Variable range_match : pystr -> pystr -> outcome bool.

Local Abbreviation search := (ICSD_search range_match).
Local Abbreviation misses formula :=
  (Forall (fun ICSD_formula => range_match formula ICSD_formula = Returned false)).

Lemma ICSD_search_false (formula : pystr) (ICSD_DB : list pystr) :
  search formula ICSD_DB = Returned false <-> misses formula ICSD_DB.
Proof.
  induction ICSD_DB as [|x rest IH]; cbn [ICSD_search].
  - split; [constructor | reflexivity].
  - destruct (range_match formula x) as [[|]|e] eqn:E; cbn [bind].
    + split; [discriminate | intros H; inversion H; congruence].
    + rewrite IH. split; [intros H; constructor; assumption |
                          intros H; inversion H; assumption].
    + split; [discriminate | intros H; inversion H; congruence].
Qed.

Lemma ICSD_search_stops (formula : pystr) (ICSD_DB : list pystr)
    (answer : outcome bool) :
  answer <> Returned false ->
  search formula ICSD_DB = answer <->
  exists before hit after,
    ICSD_DB = before ++ hit :: after
    /\ misses formula before
    /\ range_match formula hit = answer.
Proof.
  intros Hanswer. induction ICSD_DB as [|x rest IH]; cbn [ICSD_search].
  - split; [congruence|]. intros (before & hit & after & E & _).
    destruct before; discriminate.
  - assert (Hhere : forall b, range_match formula x = b -> b <> Returned false ->
              b = answer <->
              exists before hit after,
                x :: rest = before ++ hit :: after
                /\ misses formula before
                /\ range_match formula hit = answer).
    { intros b Hx Hb. split.
      - intros <-. exists [], x, rest. repeat split; [constructor | exact Hx].
      - intros ([|y before] & hit & after & E & Hmiss & Hhit);
          injection E as -> ->; [congruence|].
        inversion Hmiss; congruence. }
    destruct (range_match formula x) as [[|]|e] eqn:E; cbn [bind].
    + apply Hhere; [reflexivity | discriminate].
    + rewrite IH. split.
      * intros (before & hit & after & -> & Hmiss & Hhit).
        exists (x :: before), hit, after.
        repeat split; [constructor; assumption | exact Hhit].
      * intros ([|y before] & hit & after & E' & Hmiss & Hhit);
          injection E' as -> ->; [congruence|].
        exists before, hit, after. inversion Hmiss. repeat split; assumption.
    + apply Hhere; [reflexivity | discriminate].
Qed.

End Agent.

(** X15. [ICSD_search] answers by the first entry of the list that the
    range match does not reject.  It returns [False] exactly when the match
    rejects every entry (so for the empty list); it returns [True] exactly
    when some entry matches and all entries before it are rejected; and it
    raises exactly when the match raises on an entry and all entries before
    it are rejected.  The entries after that one are not consulted. *)
Theorem ICSD_search_first_match (range_match : pystr -> pystr -> outcome bool)
    (formula : pystr) (ICSD_DB : list pystr) :
  let rejected := Forall (fun x => range_match formula x = Returned false) in
  (ICSD_search range_match formula ICSD_DB = Returned false <-> rejected ICSD_DB)
  /\ (ICSD_search range_match formula ICSD_DB = Returned true <->
      exists before hit after,
        ICSD_DB = before ++ hit :: after /\ rejected before
        /\ range_match formula hit = Returned true)
  /\ (forall e,
        ICSD_search range_match formula ICSD_DB = Raised e <->
        exists before hit after,
          ICSD_DB = before ++ hit :: after /\ rejected before
          /\ range_match formula hit = Raised e).
Proof.
  cbv zeta. split; [apply ICSD_search_false | split].
  - apply ICSD_search_stops. discriminate.
  - intros e. apply ICSD_search_stops. discriminate.
Qed.

(** C10, what the code does.  The import of the client library is the first
    statement of [MP_search] and stands before the [try].  With a library that
    cannot be imported, the lookup of a formula raises the exception of the
    import instead of returning [False]: so for the formula that the same
    database, once importable, answers with [True]; and so for every client,
    environment and formula. *)
Theorem MP_search_import_fault :
  MP_search
    {| import_MPRester := Raised (ExternalError (py "ModuleNotFoundError"));
       open_client := open_client Scenario.database;
       summary_search := summary_search Scenario.database;
       close_client := close_client Scenario.database |}
    Scenario.no_environment (py "LiFePO4")
  = Raised (ExternalError (py "ModuleNotFoundError"))
  /\ MP_search Scenario.database Scenario.no_environment (py "LiFePO4")
     = Returned true
  /\ (forall (docs : Type) (api : MPApi docs) (getenv : pystr -> option pystr)
        (formula : pystr) (e : exn),
        import_MPRester api = Raised e ->
        MP_search api getenv formula = Raised e
        /\ MP_search api getenv formula <> Returned false).
Proof.
  split; [reflexivity|]. split; [reflexivity|].
  intros docs api getenv formula e Hi. unfold MP_search. rewrite Hi. cbn [bind].
  split; [reflexivity | discriminate].
Qed.

End LookupFacts.

(* ===================================================================== *)
(** * The verdicts of a whole list                                        *)
(* ===================================================================== *)

Module VerdictFacts.
Import PyStr PyExc Decision DecisionFacts.

(** X6. [decide_pairs] looks at the task and at the baseline only through
    its candidates.  With no candidate it returns the empty list, whatever
    the task and the oracle.  With at least one, an unknown task raises
    [NotImplementedError], a fault of the oracle on the baseline leaves the
    function, and otherwise it returns one row for each candidate, in order. *)
Theorem decide_pairs_outcome (oracle : pystr -> Z -> outcome pyfloat)
    (input_formula : pystr) (output_formula_list : list pystr) (task_id : Z) :
  decide_pairs oracle input_formula output_formula_list task_id
  = match output_formula_list with
    | [] => Returned []
    | _ :: _ =>
        if negb ((task_id =? 101)%Z || (task_id =? 102)%Z)
        then Raised (NotImplementedError task_id)
        else match oracle input_formula task_id with
             | Raised e => Raised e
             | Returned b =>
                 Returned (List.map (row oracle b task_id) output_formula_list)
             end
    end.
Proof.
  destruct output_formula_list as [|o rest]; [reflexivity|].
  destruct (negb ((task_id =? 101)%Z || (task_id =? 102)%Z)) eqn:Et.
  - unfold decide_pairs. cbn [decide_pairs_from]. unfold decide_one_pair.
    rewrite Et. reflexivity.
  - destruct (oracle input_formula task_id) as [b|e] eqn:Eb.
    + unfold decide_pairs.
      rewrite (@decide_pairs_from_rows oracle input_formula task_id b (o :: rest) []);
        [reflexivity | | exact Eb].
      unfold valid_task. apply negb_false_iff, orb_true_iff in Et.
      destruct Et as [Et | Et]; apply Z.eqb_eq in Et; tauto.
    + unfold decide_pairs. cbn [decide_pairs_from]. unfold decide_one_pair.
      rewrite Et, Eb. reflexivity.
Qed.

End VerdictFacts.

(* ===================================================================== *)
(** * The script that builds the preprocessed tables                      *)
(* ===================================================================== *)

Module BuildCsvFacts.
Import PyStr PyStrFacts PyExc Decision BuildCsv AgentFacts.
Local Open Scope N_scope.

(** ** The formula column *)

Lemma find_first (A : Type) (p : A -> bool) (l : list A) :
  match find p l with
  | Some x =>
      exists before after,
        l = before ++ x :: after /\ p x = true
        /\ Forall (fun y => p y = false) before
  | None => Forall (fun y => p y = false) l
  end.
Proof.
  induction l as [|a l IH]; cbn [find]; [constructor|].
  destruct (p a) eqn:E.
  - exists [], l. repeat split; [exact E | constructor].
  - destruct (find p l) as [x|].
    + destruct IH as (before & after & -> & Hx & Hb).
      exists (a :: before), after. repeat split; [exact Hx|].
      constructor; assumption.
    + constructor; assumption.
Qed.

Lemma find_same (A : Type) (p q : A -> bool) (l : list A) :
  (forall x, p x = q x) -> find p l = find q l.
Proof.
  intros H. induction l as [|a l IH]; cbn [find]; [reflexivity|].
  rewrite H, IH. reflexivity.
Qed.

(** X17. [_infer_formula_column] returns the first name of its list of
    candidates that is a column of the table, and [None] exactly when no
    candidate is a column.  The answer depends on which columns the table
    has, not on their order. *)
Theorem infer_formula_column_first (columns : list pystr) :
  match _infer_formula_column columns with
  | Some col =>
      exists before after,
        formula_column_candidates = before ++ col :: after
        /\ In col columns
        /\ Forall (fun candidate => ~ In candidate columns) before
  | None => Forall (fun candidate => ~ In candidate columns) formula_column_candidates
  end
  /\ forall columns',
       (forall col, In col columns <-> In col columns') ->
       _infer_formula_column columns' = _infer_formula_column columns.
Proof.
  split.
  - unfold _infer_formula_column.
    pose proof (find_first (fun col => list_in col columns)
                  formula_column_candidates) as H.
    destruct (find _ _) as [col|].
    + destruct H as (before & after & E & Hcol & Hb).
      exists before, after. split; [exact E|]. split; [apply list_in_In; exact Hcol|].
      eapply Forall_impl; [|exact Hb]. intros c Hc. apply list_in_not_In. exact Hc.
    + eapply Forall_impl; [|exact H]. intros c Hc. apply list_in_not_In. exact Hc.
  - intros columns' Hsame. unfold _infer_formula_column. apply find_same.
    intros col. destruct (list_in col columns) eqn:E.
    + apply list_in_In. apply Hsame. apply list_in_In. exact E.
    + apply list_in_not_In. intros H. apply Hsame in H.
      apply list_in_In in H. congruence.
Qed.

(** ** Reading a list of formulas from a text file *)

Lemma drop_while_idem (p : char -> bool) (s : pystr) :
  drop_while p (drop_while p s) = drop_while p s.
Proof.
  induction s as [|c s IH]; cbn [drop_while]; [reflexivity|].
  destruct (p c) eqn:E; [exact IH|]. cbn [drop_while]. rewrite E. reflexivity.
Qed.

Lemma drop_while_keeps_last (p : char -> bool) (l : pystr) (c : char) :
  p c = false -> exists x, drop_while p (l ++ [c]) = x ++ [c].
Proof.
  intros Hc. induction l as [|a l IH]; cbn [app drop_while].
  - rewrite Hc. exists []. reflexivity.
  - destruct (p a); [exact IH|]. exists (a :: l). reflexivity.
Qed.

Lemma strip_fixed (s : pystr) : strip (strip s) = strip s.
Proof.
  unfold strip, strip_by, lstrip_by, rstrip_by.
  pose proof (drop_while_head is_space s) as Hhead.
  destruct (drop_while is_space s) as [|c r]; [reflexivity|].
  cbn [rev].
  destruct (@drop_while_keeps_last is_space (rev r) c Hhead) as [x Hx].
  rewrite Hx, rev_app_distr. cbn [rev app drop_while]. rewrite Hhead.
  cbn [rev]. rewrite rev_involutive, <- Hx, drop_while_idem, Hx, rev_app_distr.
  reflexivity.
Qed.

Lemma keep_lines (lines formulas : list pystr) :
  fold_left keep_line lines formulas
  = formulas ++ filter kept (List.map strip lines).
Proof.
  revert formulas. induction lines as [|line lines IH]; intros formulas;
    cbn [fold_left List.map filter].
  - rewrite app_nil_r. reflexivity.
  - rewrite IH. unfold keep_line, kept at 2.
    destruct (strip line) as [|c l]; [reflexivity|].
    destruct (startswith (py "#") (c :: l)); cbn [negb]; [reflexivity|].
    rewrite <- app_assoc. reflexivity.
Qed.

Lemma kept_lines_clean (lines : list pystr) :
  Forall (fun formula => kept formula = true /\ strip formula = formula)
    (filter kept (List.map strip lines)).
Proof.
  apply Forall_forall. intros f Hf. apply filter_In in Hf. destruct Hf as [Hin Hk].
  split; [exact Hk|]. apply in_map_iff in Hin. destruct Hin as (line & <- & _).
  apply strip_fixed.
Qed.

Lemma kept_lines_fixed (formulas : list pystr) :
  Forall (fun formula => kept formula = true /\ strip formula = formula) formulas ->
  filter kept (List.map strip formulas) = formulas.
Proof.
  intros H. induction H as [|f formulas [Hk Hs] _ IH]; cbn [List.map filter].
  - reflexivity.
  - rewrite Hs, Hk, IH. reflexivity.
Qed.

(** X18. A file that is neither ".csv" nor ".tsv" is read line by line,
    whatever column was asked for.  The formulas returned are the lines
    without their surrounding white space, in order, less the blank lines and
    the lines that then start with "#"; none of them is empty, a comment, or
    carries white space at an end.  Reading the returned formulas again, one
    on each line, gives them back. *)
Theorem read_formulas_text (extension_lower basename : pystr -> pystr)
    (read_csv : pystr -> pystr -> outcome DataFrame)
    (file_lines : pystr -> outcome (list pystr))
    (input_file : pystr) (formula_column : option pystr) (lines : list pystr) :
  str_eqb (extension_lower input_file) (py ".csv")
  || str_eqb (extension_lower input_file) (py ".tsv") = false ->
  file_lines input_file = Returned lines ->
  exists formulas,
    _read_formulas extension_lower basename read_csv file_lines input_file
      formula_column = inl (formulas, basename input_file)
    /\ formulas = filter kept (List.map strip lines)
    /\ Forall (fun formula =>
                 formula <> [] /\ startswith (py "#") formula = false
                 /\ strip formula = formula) formulas
    /\ fold_left keep_line formulas [] = formulas.
Proof.
  intros Hext Hlines. exists (filter kept (List.map strip lines)).
  pose proof (kept_lines_clean lines) as Hclean.
  split; [|split; [reflexivity | split]].
  - unfold _read_formulas. rewrite Hext, Hlines, keep_lines. reflexivity.
  - eapply Forall_impl; [|exact Hclean]. intros f [Hk Hs].
    destruct f as [|c f]; [discriminate|]. unfold kept in Hk.
    apply negb_true_iff in Hk. repeat split; [discriminate | exact Hk | exact Hs].
  - rewrite keep_lines. apply kept_lines_fixed. exact Hclean.
Qed.

Lemma read_formulas_text_witness :
  exists formulas,
    _read_formulas (fun _ => py ".txt") (fun path => path)
      (fun _ _ => Raised (ExternalError (py "ParserError")))
      (fun _ => Returned [ py "LiFePO4" ++ [LF]; py "# olivines" ++ [LF]; [LF];
                           py "  NaCl " ])
      (py "formulas.txt") (Some (py "formula"))
    = inl (formulas, py "formulas.txt")
    /\ formulas
       = filter kept
           (List.map strip [ py "LiFePO4" ++ [LF]; py "# olivines" ++ [LF]; [LF];
                             py "  NaCl " ])
    /\ Forall (fun formula =>
                 formula <> [] /\ startswith (py "#") formula = false
                 /\ strip formula = formula) formulas
    /\ fold_left keep_line formulas [] = formulas.
Proof.
  apply (@read_formulas_text (fun _ => py ".txt") (fun path => path)
           (fun _ _ => Raised (ExternalError (py "ParserError")))
           (fun _ => Returned [ py "LiFePO4" ++ [LF]; py "# olivines" ++ [LF]; [LF];
                                py "  NaCl " ])
           (py "formulas.txt") (Some (py "formula")));
    reflexivity.
Defined.

(** ** Reading a column of a table *)

Lemma df_get_column (df : DataFrame) (col : pystr) :
  match df_get df col with
  | Some cells => In (col, cells) df
  | None => ~ In col (df_columns df)
  end.
Proof.
  induction df as [|[label cells] df IH]; cbn [df_get df_columns List.map fst].
  - intros [].
  - destruct (str_eqb label col) eqn:E.
    + apply str_eqb_eq in E. subst. left. reflexivity.
    + destruct (df_get df col) as [found|].
      * right. exact IH.
      * intros [H | H]; [|exact (IH H)].
        cbn [fst] in H. subst. 
        assert (str_eqb col col = true) by (apply str_eqb_eq; reflexivity).
        congruence.
Qed.

(** X21. A ".csv" or ".tsv" file is read as a table.  What is returned is a
    column of it, described by the file name and the label: the column asked
    for, or without one the first candidate that is a column.  The
    [ValueError] is raised exactly when the column asked for is not in the
    table, or without one when no candidate is a column; a column asked for is
    never replaced by a candidate. *)
Theorem read_formulas_table (extension_lower basename : pystr -> pystr)
    (read_csv : pystr -> pystr -> outcome DataFrame)
    (file_lines : pystr -> outcome (list pystr))
    (input_file : pystr) (formula_column : option pystr) (df : DataFrame) :
  let ext := extension_lower input_file in
  let read := _read_formulas extension_lower basename read_csv file_lines
                input_file formula_column in
  str_eqb ext (py ".csv") || str_eqb ext (py ".tsv") = true ->
  read_csv input_file (if str_eqb ext (py ".tsv") then [9] else py ",")
  = Returned df ->
  (forall formulas source,
     read = inl (formulas, source) ->
     exists col,
       In (col, formulas) df
       /\ source = basename input_file ++ py "[" ++ col ++ py "]"
       /\ match formula_column with
          | Some asked => col = asked
          | None => _infer_formula_column (df_columns df) = Some col
          end)
  /\ (read = inr (CouldNotInferColumn (df_columns df)) <->
      match formula_column with
      | Some asked => ~ In asked (df_columns df)
      | None =>
          Forall (fun candidate => ~ In candidate (df_columns df))
            formula_column_candidates
      end)
  /\ ((exists formulas source, read = inl (formulas, source))
      \/ read = inr (CouldNotInferColumn (df_columns df))).
Proof.
  cbv zeta. intros Hext Hread. unfold _read_formulas. cbv zeta. rewrite Hext, Hread.
  destruct formula_column as [asked|].
  - pose proof (df_get_column df asked) as Hget.
    destruct (df_get df asked) as [cells|].
    + split; [|split].
      * intros formulas source [= <- <-]. exists asked. repeat split. exact Hget.
      * split; [discriminate|]. intros H. exfalso. apply H.
        apply in_map_iff. exists (asked, cells). split; [reflexivity | exact Hget].
      * left. eexists. eexists. reflexivity.
    + split; [|split].
      * intros formulas source [=].
      * split; [intros _; exact Hget | reflexivity].
      * right. reflexivity.
  - destruct (infer_formula_column_first (df_columns df)) as [Hfirst _].
    destruct (_infer_formula_column (df_columns df)) as [col|].
    + destruct Hfirst as (before & after & Ecand & Hcol & Hbefore).
      pose proof (df_get_column df col) as Hget.
      destruct (df_get df col) as [cells|]; [|contradiction].
      split; [|split].
      * intros formulas source [= <- <-]. exists col. repeat split. exact Hget.
      * split; [discriminate|]. intros H. exfalso.
        rewrite Ecand in H. apply Forall_app in H. destruct H as [_ H].
        inversion H. contradiction.
      * left. eexists. eexists. reflexivity.
    + split; [|split].
      * intros formulas source [=].
      * split; [intros _; exact Hfirst | reflexivity].
      * right. reflexivity.
Qed.

Lemma read_formulas_table_witness :
  let df := [ (py "id", [py "1"; py "2"]);
              (py "Formula", [py "LiFePO4"; py "NaCl"]);
              (py "formula", [py "LiCoO2"; py "KCl"]) ] in
  let read := _read_formulas (fun _ => py ".csv") (fun path => path)
                (fun _ _ => Returned df) (fun _ => Raised (ExternalError (py "OSError")))
                (py "export.CSV") None in
  (forall formulas source,
     read = inl (formulas, source) ->
     exists col,
       In (col, formulas) df
       /\ source = py "export.CSV" ++ py "[" ++ col ++ py "]"
       /\ _infer_formula_column (df_columns df) = Some col)
  /\ (read = inr (CouldNotInferColumn (df_columns df)) <->
      Forall (fun candidate => ~ In candidate (df_columns df))
        formula_column_candidates)
  /\ ((exists formulas source, read = inl (formulas, source))
      \/ read = inr (CouldNotInferColumn (df_columns df))).
Proof.
  cbv zeta.
  apply (@read_formulas_table (fun _ => py ".csv") (fun path => path)
           (fun _ _ => Returned [ (py "id", [py "1"; py "2"]);
                                  (py "Formula", [py "LiFePO4"; py "NaCl"]);
                                  (py "formula", [py "LiCoO2"; py "KCl"]) ])
           (fun _ => Raised (ExternalError (py "OSError")))
           (py "export.CSV") None);
    reflexivity.
Defined.

(** ** The rows of the tables *)

Lemma replace_char (c : char) (s : pystr) :
  replace [c] [] s = filter (fun x => negb (c =? x)) s.
Proof.
  unfold replace, re_sub. induction s as [|x s IH]; [reflexivity|].
  cbn [sub_from filter]. unfold lit at 1. cbn [startswith].
  destruct (c =? x); cbn [andb negb List.length pred app].
  - exact IH.
  - rewrite IH. reflexivity.
Qed.

Lemma tidy_no_space (raw : pystr) : ~ In 32 (tidy raw).
Proof.
  unfold tidy. change (py " ") with [32]. rewrite replace_char.
  intros H. apply filter_In in H. destruct H as [_ H]. discriminate.
Qed.

Section Main.

Variable parse_formula : pystr -> outcome (pystr -> option pyfloat).
Variable capacity_of : pystr -> Z -> outcome pyfloat.
Variable task_index : Z.

Local Abbreviation step := (build_step parse_formula capacity_of task_index).
Local Abbreviation fate' := (fate parse_formula capacity_of task_index).
Local Abbreviation rows := (rows_of parse_formula capacity_of task_index).
Local Abbreviation errors := (errors_of parse_formula capacity_of task_index).

Lemma build_step_spec (st : list Row * list ErrorRow) (raw : pystr) :
  step st raw = (fst st ++ rows (tidy raw), snd st ++ errors (tidy raw)).
Proof.
  destruct st as [records errs]. unfold build_step, rows_of, errors_of, fate.
  cbn [fst snd].
  destruct (tidy raw) as [|c f]; [rewrite !app_nil_r; reflexivity|].
  destruct (parse_formula (c :: f)) as [comp|e]; [|rewrite app_nil_r; reflexivity].
  destruct (comp (target_element task_index)) as [count|];
    [|rewrite !app_nil_r; reflexivity].
  destruct (is_zero count); [rewrite !app_nil_r; reflexivity|].
  destruct (capacity_of (c :: f) task_index); rewrite app_nil_r; reflexivity.
Qed.

Lemma build_from (formulas : list pystr) (st : list Row * list ErrorRow) :
  fold_left step formulas st
  = (fst st ++ flat_map rows (List.map tidy formulas),
     snd st ++ flat_map errors (List.map tidy formulas)).
Proof.
  revert st. induction formulas as [|raw formulas IH]; intros st;
    cbn [fold_left List.map flat_map].
  - rewrite !app_nil_r. destruct st; reflexivity.
  - rewrite IH, build_step_spec. cbn [fst snd]. rewrite <- !app_assoc. reflexivity.
Qed.

Lemma build_spec (formulas : list pystr) :
  build parse_formula capacity_of task_index formulas
  = (flat_map rows (List.map tidy formulas),
     flat_map errors (List.map tidy formulas)).
Proof. unfold build. rewrite build_from. reflexivity. Qed.

Lemma in_rows (row : Row) (formula : pystr) :
  In row (rows formula) <->
  formula = row_formula row /\ formula <> []
  /\ fate' formula = Written (row_capacity row).
Proof.
  unfold rows_of. destruct formula as [|c f].
  - split; [contradiction | intros (_ & H & _); congruence].
  - destruct (fate' (c :: f)) as [cap|stage e|]; cbn [In].
    + split.
      * intros [<- | []]. repeat split. discriminate.
      * intros (E & _ & [= Ec]). left. destruct row; cbn in *. congruence.
    + split; [contradiction | intros (_ & _ & H); discriminate].
    + split; [contradiction | intros (_ & _ & H); discriminate].
Qed.

Lemma in_errors (err : ErrorRow) (formula : pystr) :
  In err (errors formula) <->
  formula = err_formula err /\ formula <> []
  /\ fate' formula = Reported (err_stage err) (err_error err).
Proof.
  unfold errors_of. destruct formula as [|c f].
  - split; [contradiction | intros (_ & H & _); congruence].
  - destruct (fate' (c :: f)) as [cap|stage e|]; cbn [In].
    + split; [contradiction | intros (_ & _ & H); discriminate].
    + split.
      * intros [<- | []]. repeat split. discriminate.
      * intros (E & _ & [= Es Ee]). left. destruct err; cbn in *. congruence.
    + split; [contradiction | intros (_ & _ & H); discriminate].
Qed.

Lemma sorted_once (l : list pystr) :
  (List.length (flat_map rows l) + List.length (flat_map errors l)
   <= List.length l)%nat.
Proof.
  induction l as [|f l IH]; cbn [flat_map List.length]; [lia|].
  rewrite !length_app.
  assert (List.length (rows f) + List.length (errors f) <= 1)%nat.
  { unfold rows_of, errors_of. destruct f; [cbn; lia|].
    destruct (fate' _); cbn; lia. }
  lia.
Qed.

Lemma in_records (formulas : list pystr) (row : Row) :
  In row (fst (build parse_formula capacity_of task_index formulas)) <->
  exists raw,
    In raw formulas /\ tidy raw = row_formula row /\ row_formula row <> []
    /\ fate' (row_formula row) = Written (row_capacity row).
Proof.
  rewrite build_spec. cbn [fst]. rewrite in_flat_map. split.
  - intros (f & Hf & Hrow). apply in_map_iff in Hf. destruct Hf as (raw & <- & Hraw).
    apply in_rows in Hrow. destruct Hrow as (E & Hne & Hfate).
    exists raw. rewrite <- E. repeat split; assumption.
  - intros (raw & Hraw & E & Hne & Hfate). exists (tidy raw).
    split; [apply in_map; exact Hraw|]. apply in_rows. rewrite E.
    repeat split; assumption.
Qed.

Lemma in_reported (formulas : list pystr) (err : ErrorRow) :
  In err (snd (build parse_formula capacity_of task_index formulas)) <->
  exists raw,
    In raw formulas /\ tidy raw = err_formula err /\ err_formula err <> []
    /\ fate' (err_formula err) = Reported (err_stage err) (err_error err).
Proof.
  rewrite build_spec. cbn [snd]. rewrite in_flat_map. split.
  - intros (f & Hf & Herr). apply in_map_iff in Hf. destruct Hf as (raw & <- & Hraw).
    apply in_errors in Herr. destruct Herr as (E & Hne & Hfate).
    exists raw. rewrite <- E. repeat split; assumption.
  - intros (raw & Hraw & E & Hne & Hfate). exists (tidy raw).
    split; [apply in_map; exact Hraw|]. apply in_errors. rewrite E.
    repeat split; assumption.
Qed.

End Main.

(** X19. The loop of [main] sorts every input formula once.  A row is
    written exactly for the tidied form (stripped, blanks removed) of an input
    that is not empty, parses, holds the target element with a count other
    than zero and gets a capacity, with that capacity; an error row is
    written exactly for one on which the parser or the capacity function
    raised, with the stage and the exception.  No formula is in both tables,
    no written formula holds a blank, and the two tables together have at
    most one row for each input. *)
Theorem build_sorts_each_formula
    (parse_formula : pystr -> outcome (pystr -> option pyfloat))
    (capacity_of : pystr -> Z -> outcome pyfloat) (task_index : Z)
    (formulas : list pystr) :
  let records := fst (build parse_formula capacity_of task_index formulas) in
  let errors := snd (build parse_formula capacity_of task_index formulas) in
  let fate := fate parse_formula capacity_of task_index in
  (forall row,
     In row records <->
     exists raw,
       In raw formulas /\ tidy raw = row_formula row /\ row_formula row <> []
       /\ fate (row_formula row) = Written (row_capacity row))
  /\ (forall err,
        In err errors <->
        exists raw,
          In raw formulas /\ tidy raw = err_formula err /\ err_formula err <> []
          /\ fate (err_formula err) = Reported (err_stage err) (err_error err))
  /\ (forall row err,
        In row records -> In err errors -> row_formula row <> err_formula err)
  /\ Forall (fun row => ~ In 32 (row_formula row)) records
  /\ (List.length records + List.length errors <= List.length formulas)%nat.
Proof.
  cbv zeta. split; [intros row; apply in_records|].
  split; [intros err; apply in_reported|]. split; [|split].
  - intros row err Hrow Herr E.
    apply in_records in Hrow. destruct Hrow as (_ & _ & _ & _ & Hw).
    apply in_reported in Herr. destruct Herr as (_ & _ & _ & _ & Hr).
    rewrite E in Hw. congruence.
  - apply Forall_forall. intros row Hrow.
    apply in_records in Hrow. destruct Hrow as (raw & _ & <- & _).
    apply tidy_no_space.
  - rewrite build_spec. cbn [fst snd].
    etransitivity; [apply sorted_once|]. rewrite length_map. reflexivity.
Qed.

(** ** Exact duplicates *)

Lemma drop_duplicates_sub (seen : list pystr) (rows : list Row) (row : Row) :
  In row (drop_duplicates_from seen rows) ->
  In row rows /\ list_in (row_formula row) seen = false.
Proof.
  revert seen. induction rows as [|x rows IH]; intros seen; cbn [drop_duplicates_from].
  - contradiction.
  - destruct (list_in (row_formula x) seen) eqn:E.
    + intros H. apply IH in H. destruct H as [H1 H2]. split; [right; exact H1 | exact H2].
    + intros [<- | H]; [split; [left; reflexivity | exact E]|].
      apply IH in H. destruct H as [H1 H2]. split; [right; exact H1|].
      cbn [list_in existsb] in H2. apply orb_false_iff in H2. apply H2.
Qed.

Lemma drop_duplicates_NoDup (seen : list pystr) (rows : list Row) :
  NoDup (List.map row_formula (drop_duplicates_from seen rows)).
Proof.
  revert seen. induction rows as [|x rows IH]; intros seen; cbn [drop_duplicates_from].
  - constructor.
  - destruct (list_in (row_formula x) seen); [apply IH|].
    cbn [List.map]. constructor; [|apply IH].
    intros H. apply in_map_iff in H. destruct H as (row & E & Hrow).
    apply drop_duplicates_sub in Hrow. destruct Hrow as [_ Hrow].
    cbn [list_in existsb] in Hrow. apply orb_false_iff in Hrow.
    destruct Hrow as [Hrow _]. rewrite E in Hrow.
    assert (str_eqb (row_formula x) (row_formula x) = true)
      by (apply str_eqb_eq; reflexivity).
    congruence.
Qed.

Lemma drop_duplicates_keeps (seen : list pystr) (rows : list Row) (row : Row) :
  (forall a b, In a rows -> In b rows -> row_formula a = row_formula b -> a = b) ->
  In row rows -> list_in (row_formula row) seen = false ->
  In row (drop_duplicates_from seen rows).
Proof.
  revert seen. induction rows as [|x rows IH]; intros seen Hsame Hin Hseen;
    cbn [drop_duplicates_from].
  - contradiction.
  - assert (Hsame' : forall a b, In a rows -> In b rows ->
                       row_formula a = row_formula b -> a = b)
      by (intros a b Ha Hb; apply Hsame; right; assumption).
    destruct (list_in (row_formula x) seen) eqn:E.
    + destruct Hin as [-> | Hin]; [congruence|]. apply IH; assumption.
    + destruct Hin as [-> | Hin]; [left; reflexivity|].
      destruct (str_eqb (row_formula row) (row_formula x)) eqn:Ex.
      * apply str_eqb_eq in Ex. left. symmetry.
        apply Hsame; [right; exact Hin | left; reflexivity | exact Ex].
      * right. apply IH; [exact Hsame' | exact Hin|].
        cbn [list_in existsb]. rewrite Ex. exact Hseen.
Qed.

(** X20. With [--deduplicate_exact] the table written has one row for each
    formula, the first; the errors are the same.  Since the capacity is
    computed from the formula, the rows dropped are copies of rows kept: the
    table holds the same rows as without the option. *)
Theorem deduplicated_table
    (parse_formula : pystr -> outcome (pystr -> option pyfloat))
    (capacity_of : pystr -> Z -> outcome pyfloat) (task_index : Z)
    (formulas : list pystr) :
  let plain := main_tables parse_formula capacity_of task_index false formulas in
  let deduplicated :=
    main_tables parse_formula capacity_of task_index true formulas in
  snd deduplicated = snd plain
  /\ NoDup (List.map row_formula (fst deduplicated))
  /\ (forall row, In row (fst deduplicated) <-> In row (fst plain)).
Proof.
  cbv zeta. unfold main_tables.
  pose proof (in_records parse_formula capacity_of task_index formulas) as Hrec.
  destruct (build parse_formula capacity_of task_index formulas)
    as [records errs]. cbn [fst snd] in *.
  assert (E : match records with
              | [] => records
              | _ :: _ => drop_duplicates records
              end = drop_duplicates records) by (destruct records; reflexivity).
  assert (E' : match records with [] => records | _ :: _ => records end = records)
    by (destruct records; reflexivity).
  rewrite E, E'. split; [reflexivity|]. split; [apply drop_duplicates_NoDup|].
  intros row. split.
  - intros H. apply drop_duplicates_sub in H. apply H.
  - intros H. apply drop_duplicates_keeps; [|exact H|reflexivity].
    intros a b Ha Hb Eab. apply Hrec in Ha, Hb.
    destruct Ha as (_ & _ & _ & _ & Ha), Hb as (_ & _ & _ & _ & Hb).
    rewrite Eab in Ha. destruct a, b; cbn in *. congruence.
Qed.

End BuildCsvFacts.

(* ===================================================================== *)
(** * Bullets with a math span                                            *)
(* ===================================================================== *)

Module ParseSpans.
Import PyStr Extract PyStrFacts ExtractFacts ParseLines.
Local Open Scope N_scope.

Lemma drop_while_app_stop (p : char -> bool) (a b : pystr) (d : char) :
  p d = false -> drop_while p (a ++ d :: b) = drop_while p a ++ d :: b.
Proof.
  intros Hd. induction a as [|x a IH]; cbn [app drop_while].
  - rewrite Hd. reflexivity.
  - destruct (p x); [exact IH | reflexivity].
Qed.

Lemma rstrip_app_stop (p : char -> bool) (a b : pystr) (d : char) :
  p d = false -> rstrip_by p (a ++ d :: b) = a ++ d :: rstrip_by p b.
Proof.
  intros Hd. unfold rstrip_by. rewrite rev_app_distr. cbn [rev].
  rewrite <- app_assoc. cbn [app].
  rewrite (@drop_while_app_stop p (rev b) (rev a) d Hd), rev_app_distr.
  cbn [rev]. rewrite rev_involutive, <- app_assoc. reflexivity.
Qed.

Lemma Forall_drop_while (P : char -> Prop) (p : char -> bool) (s : pystr) :
  Forall P s -> Forall P (drop_while p s).
Proof.
  intros H. induction H as [|c s Hc Hs IH]; cbn [drop_while]; [constructor|].
  destruct (p c); [exact IH | constructor; assumption].
Qed.

Lemma Forall_rstrip (P : char -> Prop) (p : char -> bool) (s : pystr) :
  Forall P s -> Forall P (rstrip_by p s).
Proof.
  intros H. unfold rstrip_by. apply Forall_rev, Forall_drop_while, Forall_rev.
  exact H.
Qed.

Lemma findall_from_prefix (P : char -> Prop) (m : matcher) (pre s : pystr) :
  (forall c s', P c -> m (c :: s') = None) ->
  Forall P pre -> findall_from m 0 (pre ++ s) = findall_from m 0 s.
Proof.
  intros Hm H. induction H as [|c pre Hc _ IH]; cbn [app findall_from].
  - reflexivity.
  - rewrite (Hm c (pre ++ s) Hc). exact IH.
Qed.

Lemma findall_from_skip (m : matcher) (a s : pystr) :
  findall_from m (List.length a) (a ++ s) = findall_from m 0 s.
Proof. induction a as [|c a IH]; simpl; [reflexivity | exact IH]. Qed.

Lemma findall_from_match (m : matcher) (c : char) (s g : pystr) (n : nat) :
  m (c :: s) = Some (g, n) ->
  findall_from m 0 (c :: s) = g :: findall_from m (pred n) s.
Proof. intros H. cbn [findall_from]. rewrite H. reflexivity. Qed.

Local Abbreviation plain := (fun c : char => (c =? DOLLAR) = false).

Lemma math_span_plain (c : char) (s : pystr) : plain c -> math_span (c :: s) = None.
Proof. intros H. unfold math_span. rewrite H. reflexivity. Qed.

(** A text with one pair of "$": the pattern reports what stands between
    them. *)
Lemma findall_one_span (pre chunk post : pystr) :
  Forall plain pre -> Forall plain chunk -> Forall plain post -> chunk <> [] ->
  re_findall math_span (pre ++ DOLLAR :: chunk ++ DOLLAR :: post) = [chunk].
Proof.
  intros Hpre Hchunk Hpost Hne. unfold re_findall.
  rewrite (@findall_from_prefix plain math_span pre _ math_span_plain Hpre).
  assert (Hm : math_span (DOLLAR :: chunk ++ DOLLAR :: post)
               = Some (chunk, (List.length chunk + 2)%nat)).
  { unfold math_span. rewrite N.eqb_refl.
    destruct (@take_while_app (fun c => negb (c =? DOLLAR)) chunk post DOLLAR)
      as [-> ->].
    - eapply Forall_impl; [|exact Hchunk]. intros c Hc. cbv beta in *.
      rewrite Hc. reflexivity.
    - rewrite N.eqb_refl. reflexivity.
    - destruct chunk; [contradiction | reflexivity]. }
  rewrite (@findall_from_match math_span _ _ _ _ Hm). f_equal.
  replace (pred (List.length chunk + 2)) with (List.length (chunk ++ [DOLLAR]))
    by (rewrite length_app; cbn [List.length]; lia).
  replace (chunk ++ DOLLAR :: post) with ((chunk ++ [DOLLAR]) ++ post)
    by (rewrite <- app_assoc; reflexivity).
  rewrite findall_from_skip.
  apply (@findall_from_none plain math_span post math_span_plain Hpost).
Qed.

Section Bullet.

Variable u : char -> bool.
Variable history : list pystr.

(** The line ["*" + pre + "$" + chunk + "$" + post]. *)
Local Abbreviation bullet pre chunk post :=
  (STAR :: pre ++ DOLLAR :: chunk ++ DOLLAR :: post).

Lemma strip_bullet (pre chunk post : pystr) :
  strip (bullet pre chunk post) = bullet pre chunk (rstrip_by is_space post).
Proof.
  unfold strip, strip_by, lstrip_by. cbn [drop_while].
  change (is_space STAR) with false. cbv iota.
  replace (STAR :: pre ++ DOLLAR :: chunk ++ DOLLAR :: post)
    with ((STAR :: pre ++ DOLLAR :: chunk) ++ DOLLAR :: post)
    by (cbn [app]; rewrite <- app_assoc; reflexivity).
  rewrite rstrip_app_stop by reflexivity.
  cbn [app]. rewrite <- app_assoc. reflexivity.
Qed.

Lemma parse_line_span (record : list pystr) (pre chunk post : pystr) :
  Forall plain pre -> Forall plain chunk -> Forall plain post -> chunk <> [] ->
  search_reasoning u (bullet_text (bullet pre chunk post)) = false ->
  parse_line u history record (bullet pre chunk post)
  = parse_segment history record chunk.
Proof.
  intros Hpre Hchunk Hpost Hne. unfold bullet_text, parse_line. cbv zeta.
  rewrite strip_bullet. set (post1 := rstrip_by is_space post).
  assert (Hpost1 : Forall plain post1) by (apply Forall_rstrip; exact Hpost).
  assert (Ha : startswith (py "Assistant:") (bullet pre chunk post1) = false)
    by reflexivity.
  assert (Hs : startswith (py "*") (bullet pre chunk post1) = true)
    by reflexivity.
  cbv iota. rewrite Ha, Hs. cbn [negb]. intros Hreason. rewrite Hreason.
  unfold lstrip_by. cbn [drop_while]. rewrite N.eqb_refl.
  rewrite (@drop_while_app_stop (N.eqb STAR) pre (chunk ++ DOLLAR :: post1) DOLLAR)
    by reflexivity.
  set (pre1 := drop_while (N.eqb STAR) pre).
  assert (Hpre1 : Forall plain pre1) by (apply Forall_drop_while; exact Hpre).
  unfold strip, strip_by, lstrip_by.
  rewrite !(@drop_while_app_stop is_space pre1 (chunk ++ DOLLAR :: post1) DOLLAR)
    by reflexivity.
  set (pre2 := drop_while is_space pre1).
  assert (Hpre2 : Forall plain pre2) by (apply Forall_drop_while; exact Hpre1).
  replace (pre2 ++ DOLLAR :: chunk ++ DOLLAR :: post1)
    with ((pre2 ++ DOLLAR :: chunk) ++ DOLLAR :: post1)
    by (rewrite <- app_assoc; reflexivity).
  rewrite rstrip_app_stop by reflexivity.
  rewrite <- app_assoc. cbn [app].
  set (post2 := rstrip_by is_space post1).
  assert (Hpost2 : Forall plain post2) by (apply Forall_rstrip; exact Hpost1).
  rewrite (findall_one_span Hpre2 Hchunk Hpost2 Hne).
  destruct pre2; reflexivity.
Qed.

End Bullet.

(** X22. On a bullet line that holds one math span, only the span counts.
    Let a line be "*", some text, "$", a non-empty chunk, "$" and some more
    text, none of them holding "$" or a line break, and let the reasoning
    pattern match neither this line nor the bare bullet "*$chunk$".  Then
    [parse] extracts from the line what it extracts from the bare bullet: the
    text around the span is never extracted and changes nothing, even where it
    reads like a formula. *)
Theorem bullet_span_only (u : char -> bool) (pre chunk post : pystr)
    (history : list pystr) :
  let unmarked := Forall (fun c => c <> DOLLAR /\ c <> LF) in
  let line := py "*" ++ pre ++ py "$" ++ chunk ++ py "$" ++ post in
  let bare := py "*" ++ py "$" ++ chunk ++ py "$" in
  unmarked pre -> unmarked chunk -> unmarked post -> chunk <> [] ->
  search_reasoning u (bullet_text line) = false ->
  search_reasoning u (bullet_text bare) = false ->
  parse u line history = parse u bare history.
Proof.
  cbv zeta. change (py "*") with [STAR]. change (py "$") with [DOLLAR].
  cbn [app]. intros Hpre Hchunk Hpost Hne Hline Hbare.
  assert (Hplain : forall s, Forall (fun c => c <> DOLLAR /\ c <> LF) s ->
                             Forall (fun c : char => (c =? DOLLAR) = false) s).
  { intros s H. eapply Forall_impl; [|exact H]. intros c [Hc _].
    apply N.eqb_neq. exact Hc. }
  assert (Hbreak : forall s, Forall (fun c => c <> DOLLAR /\ c <> LF) s -> ~ In LF s).
  { intros s H Hin. rewrite Forall_forall in H. destruct (H LF Hin) as [_ Hc].
    apply Hc. reflexivity. }
  assert (Hone : forall a b, ~ In LF a -> ~ In LF b ->
                   ~ In LF (STAR :: a ++ DOLLAR :: chunk ++ DOLLAR :: b)).
  { intros a b Ha Hb [H | H]; [discriminate|].
    apply in_app_or in H. destruct H as [H | [H | H]];
      [exact (Ha H) | discriminate|].
    apply in_app_or in H. destruct H as [H | [H | H]];
      [exact (Hbreak chunk Hchunk H) | discriminate | exact (Hb H)]. }
  rewrite !parse_lines.
  rewrite (@split_single LF _ (Hone pre post (Hbreak pre Hpre) (Hbreak post Hpost))).
  change (DOLLAR :: chunk ++ [DOLLAR]) with ([] ++ DOLLAR :: chunk ++ [DOLLAR]).
  rewrite (@split_single LF _ (Hone [] [] (fun H => H) (fun H => H))).
  cbn [fold_left].
  rewrite (@parse_line_span u history [] pre chunk post
             (Hplain pre Hpre) (Hplain chunk Hchunk) (Hplain post Hpost) Hne Hline).
  rewrite (@parse_line_span u history [] [] chunk []
             (Forall_nil _) (Hplain chunk Hchunk) (Forall_nil _) Hne Hbare).
  reflexivity.
Qed.

Lemma bullet_span_only_witness :
  parse Scenario.ascii_only
    (py "*" ++ py " NaCl or " ++ py "$" ++ py "LiMnPO_4" ++ py "$" ++ py " (LiCoO2) ")
    [py "LiCoO2"]
  = parse Scenario.ascii_only
      (py "*" ++ py "$" ++ py "LiMnPO_4" ++ py "$") [py "LiCoO2"].
Proof.
  apply (@bullet_span_only Scenario.ascii_only (py " NaCl or ") (py "LiMnPO_4")
           (py " (LiCoO2) ") [py "LiCoO2"]);
    try (repeat constructor; discriminate); try discriminate; reflexivity.
Defined.

End ParseSpans.

(* ===================================================================== *)
(** * The verdict as an order                                             *)
(* ===================================================================== *)

Module VerdictOrder.
Import PyStr PyExc Decision DecisionFacts.

Lemma fgt_irreflexive (x : pyfloat) : fgt x x = false.
Proof.
  destruct x as [a| | |]; try reflexivity.
  simpl. rewrite (proj1 (Qeq_alt a a) (Qeq_refl a)). reflexivity.
Qed.

Lemma fgt_asymmetric (x y : pyfloat) : fgt x y = true -> fgt y x = false.
Proof.
  intros H. destruct (fgt y x) eqn:E; [|reflexivity].
  apply fgt_greater in H. apply fgt_greater in E.
  destruct x as [a| | |], y as [b| | |]; simpl in *; try contradiction.
  exfalso. exact (Qlt_irrefl a (Qlt_trans _ _ _ E H)).
Qed.

(** X23. The verdict is a strict comparison.  With a valid task and an
    oracle that scores both formulas, [decide_one_pair] never finds a formula
    better than itself, and never finds each of two formulas better than the
    other. *)
Theorem improvement_is_strict (oracle : pystr -> Z -> outcome pyfloat)
    (formula other : pystr) (task_id : Z) (a b : pyfloat) :
  valid_task task_id ->
  oracle formula task_id = Returned a ->
  oracle other task_id = Returned b ->
  decide_one_pair oracle formula formula task_id = Returned (a, a, false)
  /\ exists there back,
       decide_one_pair oracle formula other task_id = Returned (a, b, there)
       /\ decide_one_pair oracle other formula task_id = Returned (b, a, back)
       /\ (there = true -> back = false).
Proof.
  intros Ht Ha Hb.
  rewrite (@decide_one_pair_row oracle formula formula task_id a Ht Ha),
          (@decide_one_pair_row oracle formula other task_id a Ht Ha),
          (@decide_one_pair_row oracle other formula task_id b Ht Hb).
  unfold row. rewrite Ha, Hb. cbn [capacity improved]. split.
  - rewrite fgt_irreflexive. reflexivity.
  - eexists. eexists. split; [reflexivity|]. split; [reflexivity|].
    apply fgt_asymmetric.
Qed.

Lemma improvement_is_strict_witness :
  decide_one_pair Scenario.oracle (py "LiFePO4") (py "LiFePO4") 101
  = Returned (Num 170, Num 170, false)
  /\ exists there back,
       decide_one_pair Scenario.oracle (py "LiFePO4") (py "LiMnPO4") 101
       = Returned (Num 170, Num 171, there)
       /\ decide_one_pair Scenario.oracle (py "LiMnPO4") (py "LiFePO4") 101
          = Returned (Num 171, Num 170, back)
       /\ (there = true -> back = false).
Proof.
  apply (@improvement_is_strict Scenario.oracle (py "LiFePO4") (py "LiMnPO4") 101
           (Num 170) (Num 171)).
  - left. reflexivity.
  - reflexivity.
  - reflexivity.
Defined.

End VerdictOrder.

(* ===================================================================== *)
(** * An OpenRouter key and nothing else                                  *)
(* ===================================================================== *)

Module OpenRouterFacts.
Import PyStr PyStrFacts PyExc Generation.
Local Open Scope N_scope.

(** X24. The convenience default.  When the environment names no base
    address and no model prefix but holds an OpenRouter key,
    [_configure_openai_client] points the client at OpenRouter, whatever base
    it held; it takes the OpenRouter key as the client's key exactly when no
    OpenAI key is set; and [_normalize_model_for_api] then sends a model id
    without "/" as "openai/" followed by the id, and leaves any other id as it
    is. *)
Theorem openrouter_key_alone (getenv : pystr -> option pystr) (openai : OpenAI)
    (model : pystr) :
  truthy (por (getenv (py "OPENAI_API_BASE"))
            (por (getenv (py "OPENAI_BASE_URL"))
               (por (getenv (py "OPENROUTER_API_BASE"))
                  (getenv (py "OPENROUTER_BASE_URL"))))) = false ->
  truthy (getenv (py "OPENROUTER_API_KEY")) = true ->
  getenv (py "CHATBATTERY_OPENROUTER_MODEL_PREFIX") = None ->
  let configured := _configure_openai_client getenv openai in
  api_base configured = OPENROUTER_API_BASE
  /\ api_key configured
     = (if truthy (getenv (py "OPENAI_API_KEY")) then api_key openai
        else getenv (py "OPENROUTER_API_KEY"))
  /\ _normalize_model_for_api getenv configured model
     = (if str_in (py "/") model then model else py "openai/" ++ model).
Proof.
  intros Hbase Hkey Hprefix. cbv zeta.
  assert (E : _configure_openai_client getenv openai
              = {| api_base := OPENROUTER_API_BASE;
                   api_key := if truthy (getenv (py "OPENAI_API_KEY"))
                              then api_key openai
                              else getenv (py "OPENROUTER_API_KEY") |}).
  { unfold _configure_openai_client. rewrite Hkey.
    destruct (por _ _) as [[|c b]|]; try discriminate;
      destruct (truthy (getenv (py "OPENAI_API_KEY"))); reflexivity. }
  rewrite E. cbn [api_base api_key]. split; [reflexivity|]. split; [reflexivity|].
  unfold _normalize_model_for_api. cbn [api_base]. rewrite Hprefix.
  assert (Hor : _is_openrouter_base OPENROUTER_API_BASE = true) by reflexivity.
  assert (Hstrip : strip (py "openai/") = py "openai/") by reflexivity.
  rewrite Hor, Hstrip.
  destruct (str_in (py "/") model); reflexivity.
Qed.

Lemma openrouter_key_alone_witness :
  let getenv := fun name =>
    if str_eqb name (py "OPENROUTER_API_KEY") then Some (py "sk-or") else None in
  let openai := {| api_base := py "https://api.openai.com/v1"; api_key := None |} in
  let configured := _configure_openai_client getenv openai in
  api_base configured = OPENROUTER_API_BASE
  /\ api_key configured
     = (if truthy (getenv (py "OPENAI_API_KEY")) then api_key openai
        else getenv (py "OPENROUTER_API_KEY"))
  /\ _normalize_model_for_api getenv configured (py "gpt-4o-mini")
     = (if str_in (py "/") (py "gpt-4o-mini") then py "gpt-4o-mini"
        else py "openai/" ++ py "gpt-4o-mini").
Proof.
  cbv zeta.
  apply (@openrouter_key_alone
           (fun name =>
              if str_eqb name (py "OPENROUTER_API_KEY") then Some (py "sk-or")
              else None)
           {| api_base := py "https://api.openai.com/v1"; api_key := None |}
           (py "gpt-4o-mini"));
    reflexivity.
Defined.

End OpenRouterFacts.
